(** * GoogleSheetsService: a shallow embedding of [server/sheets.js]

    The development follows the class [GoogleSheetsService]: the identifier
    resolver [extractSheetIdFromUrl], the two retrieval operations
    [getSpreadsheetSummary] and [getSheetData], the cell extractor
    [extractCellData] with its type inference [detectCellType], and the
    column-name helper [columnToLetter].

    JavaScript strings are sequences of UTF-16 code units, JavaScript values
    are a tagged union, regular expressions are a small syntax with the
    backtracking semantics of [String.prototype.match], and the methods that
    log, throw or call the spreadsheet client run in a state-and-trace monad. *)

From Stdlib Require Import List ZArith NArith Lia Bool Arith Sorted.
From Stdlib Require Import Ascii String DecimalString DecimalNat.
From Equations Require Import Equations.
Import ListNotations.

Set Implicit Arguments.

(* ------------------------------------------------------------------------- *)
(** ** JavaScript strings and values *)

Module Js.

(** A string is its list of UTF-16 code units. *)
Definition jsstring := list N.

(** Code units of an ASCII literal, for the constants of the source. *)
Fixpoint lit (s : string) : jsstring :=
  match s with
  | EmptyString => []
  | String a r => N_of_ascii a :: lit r
  end.

Fixpoint str_eqb (a b : jsstring) : bool :=
  match a, b with
  | [], [] => true
  | x :: a', y :: b' => N.eqb x y && str_eqb a' b'
  | _, _ => false
  end.

(** [s.startsWith(p)], and the remainder of [s] after [p]. *)
Fixpoint strip_prefix (p s : jsstring) : option jsstring :=
  match p, s with
  | [], _ => Some s
  | x :: p', y :: s' => if N.eqb x y then strip_prefix p' s' else None
  | _ :: _, [] => None
  end.

(** [s.includes(needle)]. *)
Fixpoint includes (s needle : jsstring) : bool :=
  match strip_prefix needle s with
  | Some _ => true
  | None => match s with
            | [] => false
            | _ :: s' => includes s' needle
            end
  end.

(** The values a cell accessor can hand out.  Numbers are carried as
    integers: the service only inspects their [typeof], their truthiness and
    their identity.  [JObj] stands for any other object (an error value of
    the client library, say), compared by reference. *)
Inductive jsval :=
| JNull
| JUndefined
| JBool (b : bool)
| JNum (z : Z)
| JStr (s : jsstring)
| JObj (ref : nat).

(** [a === b]. *)
Definition strict_eq (a b : jsval) : bool :=
  match a, b with
  | JNull, JNull => true
  | JUndefined, JUndefined => true
  | JBool x, JBool y => Bool.eqb x y
  | JNum x, JNum y => Z.eqb x y
  | JStr x, JStr y => str_eqb x y
  | JObj x, JObj y => Nat.eqb x y
  | _, _ => false
  end.

(** ToBoolean. *)
Definition truthy (v : jsval) : bool :=
  match v with
  | JNull | JUndefined => false
  | JBool b => b
  | JNum z => negb (Z.eqb z 0)
  | JStr s => match s with [] => false | _ => true end
  | JObj _ => true
  end.

Inductive jstype := TyBoolean | TyNumber | TyString | TyObject | TyUndefined.

(** [typeof v]. *)
Definition typeof (v : jsval) : jstype :=
  match v with
  | JNull => TyObject
  | JUndefined => TyUndefined
  | JBool _ => TyBoolean
  | JNum _ => TyNumber
  | JStr _ => TyString
  | JObj _ => TyObject
  end.

(** [String.fromCharCode(n)]: the code unit is [n] modulo 2^16. *)
Definition fromCharCode (n : Z) : N := Z.to_N (n mod 65536).

End Js.
Import Js.

(* ------------------------------------------------------------------------- *)
(** ** Regular expressions *)

Module Regex.

(** The literals of the source only quantify single-character atoms, so the
    syntax does the same; this keeps the matcher structurally recursive. *)
Inductive atom :=
| Chr (c : N)                       (* a literal character *)
| Cls (ranges : list (N * N)).      (* a class, as inclusive ranges *)

Inductive regex :=
| Eps
| One (a : atom)
| Rep (a : atom) (lo : nat) (hi : option nat)   (* a{lo,hi}, greedy *)
| Seq (r1 r2 : regex)
| Alt (r1 r2 : regex)
| Grp (r : regex).                              (* a capture group *)

Definition in_range (c : N) (r : N * N) : bool :=
  N.leb (fst r) c && N.leb c (snd r).

Definition atom_matches (a : atom) (c : N) : bool :=
  match a with
  | Chr d => N.eqb d c
  | Cls rs => existsb (in_range c) rs
  end.

(** A literal run of characters. *)
Fixpoint chars (s : jsstring) : regex :=
  match s with
  | [] => Eps
  | c :: s' => Seq (One (Chr c)) (chars s')
  end.

Definition digit : atom := Cls [(48, 57)%N].             (* \d *)
Definition plus (a : atom) : regex := Rep a 1 None.      (* a+ *)
Definition between (a : atom) (lo hi : nat) : regex := Rep a lo (Some hi).

(** Whether a quantifier that may still take [hi] characters can take one. *)
Definition may_take (hi : option nat) : bool :=
  match hi with
  | Some O => false
  | _ => true
  end.

Definition taken (hi : option nat) : option nat :=
  match hi with
  | Some n => Some (Nat.pred n)
  | None => None
  end.

Section Matcher.
Variable R : Type.

(** Greedy repetition with backtracking: take one more character when
    allowed and possible, and fall back to stopping here (if the lower
    bound is met) when the rest of the pattern fails after that. *)
Fixpoint rep (a : atom) (lo : nat) (hi : option nat) (s : jsstring)
         (k : jsstring -> option R) {struct s} : option R :=
  let stop := match lo with O => k s | S _ => None end in
  match s with
  | [] => stop
  | c :: s' =>
      if may_take hi && atom_matches a c then
        match rep a (Nat.pred lo) (taken hi) s' k with
        | Some r => Some r
        | None => stop
        end
      else stop
  end.

(** [run r s caps k]: match [r] at the start of [s], then continue with
    [k] on the rest; [caps] collects the captured groups in order. *)
Fixpoint run (r : regex) (s : jsstring) (caps : list jsstring)
         (k : jsstring -> list jsstring -> option R) {struct r} : option R :=
  match r with
  | Eps => k s caps
  | One a =>
      match s with
      | c :: s' => if atom_matches a c then k s' caps else None
      | [] => None
      end
  | Rep a lo hi => rep a lo hi s (fun s' => k s' caps)
  | Seq r1 r2 => run r1 s caps (fun s' caps' => run r2 s' caps' k)
  | Alt r1 r2 =>
      match run r1 s caps k with
      | Some x => Some x
      | None => run r2 s caps k
      end
  | Grp r1 =>
      run r1 s caps
          (fun s' caps' =>
             k s' (caps' ++ [firstn (List.length s - List.length s') s]))
  end.
End Matcher.

(** A match anchored at the start of [s]: element 0 is the matched text,
    element [i] the text of group [i]. *)
Definition match_here (r : regex) (s : jsstring) : option (list jsstring) :=
  run r s []
      (fun s' caps => Some (firstn (List.length s - List.length s') s :: caps)).

(** [s.match(r)] for a non-global [r]: the leftmost start that matches. *)
Fixpoint exec (r : regex) (s : jsstring) : option (list jsstring) :=
  match match_here r s with
  | Some m => Some m
  | None => match s with
            | [] => None
            | _ :: s' => exec r s'
            end
  end.

(** [r.test(s)]. *)
Definition test (r : regex) (s : jsstring) : bool :=
  match exec r s with Some _ => true | None => false end.

End Regex.
Import Regex.

(* ------------------------------------------------------------------------- *)
(** ** Errors, the console, and the monad of the service methods *)

Module Effects.

Record error := Error { message : string }.

(** What a log call prints after the level prefix: a constant message, or
    the template literal that embeds the sheet count. *)
Inductive logtext :=
| Text (s : string)
| Template (before : string) (n : nat) (after : string).

(** What the outside world observes of a method call, in order: lines on
    the console (the wall-clock prefix is left out) and the requests made to
    the spreadsheet client. *)
Inductive event :=
| EvConsole (level : string) (msg : logtext) (args : list error)
| EvLoadInfo (sheetId : jsstring)
| EvLoadCells (title : jsstring).

(** [logger.js]: the level comes from the environment. *)
Record Logger := { logLevel : string; debugMode : bool }.

Record Config := {
  serviceAccountEmail : jsstring;
  privateKey : jsstring;
  projectId : jsstring
}.

Record JWT := { email : jsstring; key : jsstring; scopes : list string }.

(** The fields of a [GoogleSheetsService] instance; [auth] is [null] until
    [initialize] has run. *)
Record GoogleSheetsService := {
  config : Config;
  logger : Logger;
  auth : option JWT
}.

Inductive outcome (A : Type) :=
| Ret (a : A)
| Throw (e : error).
Arguments Ret {A} a.
Arguments Throw {A} e.

(** A method body: it reads and updates [this], appends to the trace, and
    returns or throws. *)
Definition M (A : Type) : Type :=
  GoogleSheetsService -> list event ->
  outcome A * GoogleSheetsService * list event.

Definition ret {A} (a : A) : M A := fun this tr => (Ret a, this, tr).

Definition throw {A} (e : error) : M A := fun this tr => (Throw e, this, tr).

Definition bind {A B} (m : M A) (k : A -> M B) : M B :=
  fun this tr =>
    match m this tr with
    | (Ret a, this', tr') => k a this' tr'
    | (Throw e, this', tr') => (Throw e, this', tr')
    end.

(** [try { body } catch (error) { handler }]. *)
Definition try_catch {A} (body : M A) (handler : error -> M A) : M A :=
  fun this tr =>
    match body this tr with
    | (Ret a, this', tr') => (Ret a, this', tr')
    | (Throw e, this', tr') => handler e this' tr'
    end.

Definition emit (e : event) : M unit :=
  fun this tr => (Ret tt, this, tr ++ [e]).

Definition get_this : M GoogleSheetsService :=
  fun this tr => (Ret this, this, tr).

Definition set_auth (j : JWT) : M unit :=
  fun this tr =>
    (Ret tt, {| config := config this; logger := logger this; auth := Some j |}, tr).

Declare Scope js_scope.
Delimit Scope js_scope with js.
Notation "x <- m ;; k" := (bind m (fun x => k))
  (at level 61, m at next level, right associativity) : js_scope.
Notation "m ;; k" := (bind m (fun _ => k))
  (at level 61, right associativity) : js_scope.
Local Open Scope js_scope.
Local Open Scope string_scope.

(** [Logger._log] behind the level test of each method. *)
Definition log (level : string) (enabled : list string)
           (msg : logtext) (args : list error) : M unit :=
  this <- get_this ;;
  if existsb (String.eqb (logLevel (logger this))) enabled
  then emit (EvConsole level msg args)
  else ret tt.

Definition info (msg : logtext) : M unit :=
  log "info" ["debug"; "info"] msg [].

Definition error_ (msg : logtext) (e : error) : M unit :=
  log "error" ["debug"; "info"; "warn"; "error"] msg [e].

(** Accumulating loop: [for (const x of l) acc = f(x, acc)]. *)
Fixpoint for_each {A B} (f : A -> B -> M B) (l : list A) (acc : B) : M B :=
  match l with
  | [] => ret acc
  | x :: l' => acc' <- f x acc ;; for_each f l' acc'
  end.

End Effects.
Import Effects.
#[local] Open Scope js_scope.

(* ------------------------------------------------------------------------- *)
(** ** The spreadsheet client, as the service sees it *)

Module Client.

(** [cell.formattedValue] is a display string or [null]; the extractor also
    guards against [undefined]. *)
Inductive display :=
| DNull
| DUndefined
| DStr (s : jsstring).

Definition display_val (d : display) : jsval :=
  match d with
  | DNull => JNull
  | DUndefined => JUndefined
  | DStr s => JStr s
  end.

(** A loaded cell.  Reading [hyperlink] may throw ([None]). *)
Record Cell := {
  value : jsval;
  formattedValue : display;
  hyperlink : option jsval
}.

(** A worksheet of a loaded document.  [loadCells] either fails with
    [cellsFailure] or makes [getCell] available on the declared grid. *)
Record Worksheet := {
  title : jsstring;
  index : nat;
  rowCount : nat;
  columnCount : nat;
  gridProperties : jsval;
  cellsFailure : option error;
  getCell : nat -> nat -> Cell
}.

(** A document after [loadInfo]: [sheetsByIndex] is [sheets], and
    [sheetCount] its length. *)
Record Spreadsheet := {
  docTitle : jsval;
  spreadsheetUrl : jsval;
  sheets : list Worksheet;
  createdTime : jsval;
  modifiedTime : jsval;
  lastModifyingUser : jsval
}.

Definition sheetCount (doc : Spreadsheet) : nat := List.length (sheets doc).

Definition sheetsByIndex (doc : Spreadsheet) (i : nat) : option Worksheet :=
  nth_error (sheets doc) i.

(** The result of reading a property of a plain object. *)
Inductive property (A : Type) :=
| Own (a : A)
| Inherited          (* a member of Object.prototype: truthy, not an [A] *)
| Absent.            (* undefined *)
Arguments Own {A} a.
Arguments Inherited {A}.
Arguments Absent {A}.

Definition objectPrototypeKeys : list jsstring :=
  map lit
      ["constructor"; "hasOwnProperty"; "isPrototypeOf";
       "propertyIsEnumerable"; "toLocaleString"; "toString"; "valueOf";
       "__proto__"; "__defineGetter__"; "__defineSetter__";
       "__lookupGetter__"; "__lookupSetter__"]%string.

(** [doc.sheetsByTitle[name]]: the worksheets keyed by title (a later sheet
    replaces an earlier one of the same title), on a plain object. *)
Definition sheetsByTitle (doc : Spreadsheet) (name : jsstring)
  : property Worksheet :=
  match find (fun s => str_eqb (title s) name) (rev (sheets doc)) with
  | Some s => Own s
  | None => if existsb (str_eqb name) objectPrototypeKeys
            then Inherited else Absent
  end.

(** What the remote service answers to [loadInfo] for an identifier. *)
Definition Remote := jsstring -> JWT -> error + Spreadsheet.

Section Calls.
Variable remote : Remote.

(** [new GoogleSpreadsheet(sheetId, auth)] followed by [await doc.loadInfo()]. *)
Definition loadInfo (sheetId : jsstring) (a : JWT) : M Spreadsheet :=
  emit (EvLoadInfo sheetId) ;;
  match remote sheetId a with
  | inl e => throw e
  | inr doc => ret doc
  end.

(** [await sheet.loadCells()]. *)
Definition loadCells (sheet : Worksheet) : M unit :=
  emit (EvLoadCells (title sheet)) ;;
  match cellsFailure sheet with
  | Some e => throw e
  | None => ret tt
  end.
End Calls.

End Client.
Import Client.

(* ------------------------------------------------------------------------- *)
(** ** The service *)

Module Service.

Local Open Scope string_scope.

(** [initialize]: builds the JWT handle from the configuration. *)
Definition SCOPES : list string :=
  ["https://www.googleapis.com/auth/spreadsheets";
   "https://www.googleapis.com/auth/drive.file"].

Definition initialize : M unit :=
  try_catch
    (this <- get_this ;;
     set_auth {| email := serviceAccountEmail (config this);
                 key := privateKey (config this);
                 scopes := SCOPES |} ;;
     info (Text "Google authentication configured with JWT and scopes"))
    (fun e =>
       error_ (Text "Failed to configure Google authentication:") e ;;
       throw (Error "Authentication configuration failed. Please check your service account credentials.")).

(** *** extractSheetIdFromUrl *)

(** [[a-zA-Z0-9-_]] *)
Definition idclass : atom :=
  Cls [(97, 122); (65, 90); (48, 57); (45, 45); (95, 95)]%N.

(** The text in front of the captured identifier, per pattern. *)
Definition markers : list jsstring :=
  [lit "/spreadsheets/d/"; lit "/d/"; lit "id="].

Definition pattern (marker : jsstring) : regex :=
  Seq (chars marker) (Grp (plus idclass)).

Definition patterns : list regex := map pattern markers.

(** The loop over the patterns: the first with a non-empty group 1 wins. *)
Fixpoint first_match (ps : list regex) (url : jsstring) : option jsstring :=
  match ps with
  | [] => None
  | p :: ps' =>
      match exec p url with
      | Some m =>
          match nth_error m 1 with
          | Some g => if truthy (JStr g) then Some g else first_match ps' url
          | None => first_match ps' url
          end
      | None => first_match ps' url
      end
  end.

Definition CouldNotExtract : error :=
  Error "Could not extract sheet ID from URL. Please provide a valid Google Sheets URL.".

Definition InvalidUrlFormat : error :=
  Error "Invalid Google Sheets URL format. Please provide a valid Google Sheets URL.".

Definition extractSheetIdFromUrl (url : jsstring) : M jsstring :=
  try_catch
    (match first_match patterns url with
     | Some id => ret id
     | None => throw CouldNotExtract
     end)
    (fun e =>
       error_ (Text "Error extracting sheet ID from URL:") e ;;
       throw InvalidUrlFormat).

(** *** detectCellType *)

(** [[$£€¥₹₽₩]], by code unit. *)
Definition currencySymbol : atom :=
  Cls [(36, 36); (163, 163); (8364, 8364); (165, 165);
       (8377, 8377); (8381, 8381); (8361, 8361)]%N.

(** [\d{1,2}<sep>\d{1,2}<sep>\d{2,4}] *)
Definition dayMonthYear (sep : N) : regex :=
  Seq (between digit 1 2)
      (Seq (One (Chr sep))
           (Seq (between digit 1 2)
                (Seq (One (Chr sep)) (between digit 2 4)))).

(** [\d{4}-\d{2}-\d{2}] *)
Definition isoDate : regex :=
  Seq (between digit 4 4)
      (Seq (One (Chr 45))
           (Seq (between digit 2 2)
                (Seq (One (Chr 45)) (between digit 2 2)))).

(** The pattern applied to the display string of a number. *)
Definition displayDatePattern : regex :=
  Alt (dayMonthYear 47) (dayMonthYear 45).

(** [datePattern], applied to a string value. *)
Definition datePattern : regex :=
  Alt (dayMonthYear 47) (Alt (dayMonthYear 45) isoDate).

(** [cell.formattedValue || ''] *)
Definition or_empty (d : display) : jsstring :=
  match d with
  | DStr s => s
  | DNull | DUndefined => []
  end.

Definition detectCellType (cell : Cell) : string :=
  match value cell with
  | JBool _ => "boolean"
  | JNum _ =>
      let formatted := or_empty (formattedValue cell) in
      if includes formatted (lit "%") then "percentage"
      else if test (One currencySymbol) formatted then "currency"
      else if test displayDatePattern formatted then "date"
      else "number"
  | JStr s => if test datePattern s then "date" else "string"
  | JNull | JUndefined | JObj _ => "string"
  end.

(** *** extractCellData *)

Module CellData.
Record t := {
  pos : nat * nat;
  val : jsval;
  type : string;
  fmt : option display;
  hyperlink : option jsval
}.
End CellData.

Record Dimensions := { rows : nat; columns : nat }.

Record SheetMetadata := { metaTitle : jsstring; dimensions : Dimensions }.

Record Extracted := { metadata : SheetMetadata; cells : list CellData.t }.

(** [v !== null && v !== undefined && v !== ''] *)
Definition has_content (v : jsval) : bool :=
  negb (strict_eq v JNull) && negb (strict_eq v JUndefined)
  && negb (strict_eq v (JStr [])).

(** The record pushed for a cell with content at zero-based [(row, col)],
    after the optional fields have been added. *)
Definition cellData (cell : Cell) (row col : nat) : CellData.t :=
  let formatted := display_val (formattedValue cell) in
  {| CellData.pos := (row + 1, col + 1);
     CellData.val := value cell;
     CellData.type := detectCellType cell;
     CellData.fmt :=
       if truthy formatted && negb (strict_eq formatted (value cell))
       then Some (formattedValue cell) else None;
     CellData.hyperlink :=
       match Client.hyperlink cell with
       | Some h => if truthy h then Some h else None
       | None => None
       end |}.

(** The test that guards the push. *)
Definition included (cell : Cell) : bool :=
  has_content (value cell)
  && has_content (display_val (formattedValue cell)).

(** The body of the inner loop: what [cells] is after the cell at
    zero-based [(row, col)] has been looked at. *)
Definition visit (cell : Cell) (row col : nat) (cells : list CellData.t)
  : list CellData.t :=
  if included cell then cells ++ [cellData cell row col] else cells.

Definition extractCellData (sheet : Worksheet) : Extracted :=
  let maxRow := rowCount sheet in
  let maxCol := columnCount sheet in
  let cells :=
    fold_left
      (fun cells row =>
         fold_left
           (fun cells col => visit (getCell sheet row col) row col cells)
           (seq 0 maxCol) cells)
      (seq 0 maxRow) [] in
  {| metadata := {| metaTitle := title sheet;
                    dimensions := {| rows := maxRow; columns := maxCol |} |};
     cells := cells |}.

(** *** getSpreadsheetSummary and getSheetData *)

Record SheetName := {
  name : jsstring;
  sheetIndex : nat;
  nameRowCount : nat;
  nameColumnCount : nat
}.

Record Times := {
  created : jsval;
  modified : jsval;
  lastUser : jsval
}.

Record Summary := {
  summaryId : jsstring;
  summaryTitle : jsval;
  summaryUrl : jsval;
  summarySheetCount : nat;
  sheetNames : list SheetName;
  summaryMetadata : Times
}.

Record SheetData := {
  spreadsheetId : jsstring;
  spreadsheetTitle : jsval;
  dataUrl : jsval;
  dataTitle : jsstring;
  dataDimensions : Dimensions;
  dataTimes : Times;
  dataSheetIndex : nat;
  dataGridProperties : jsval;
  dataCells : list CellData.t
}.

Definition NotInitialized : error :=
  Error "Service not initialized. Call initialize() first.".

Definition SummaryFailed : error :=
  Error "Failed to retrieve spreadsheet summary. Please check the URL and your permissions.".

Definition SheetNotFound : error :=
  Error "Specified sheet not found. Please check the sheet name and try again.".

Definition SheetDataFailed : error :=
  Error "Failed to retrieve sheet data. Please check the sheet name and your permissions.".

(** The TypeErrors of the runtime that the bodies below can run into. *)
Definition UndefinedSheet : error :=
  Error "Cannot read properties of undefined (reading 'title')".

Definition NotAFunction : error :=
  Error "sheet.loadCells is not a function".

Section Retrieval.
Variable remote : Remote.

Definition getSpreadsheetSummary (url : jsstring) : M Summary :=
  try_catch
    (this <- get_this ;;
     match auth this with
     | None => throw NotInitialized
     | Some a =>
         info (Text "Retrieving spreadsheet summary...") ;;
         sheetId <- extractSheetIdFromUrl url ;;
         info (Text "Extracted sheet ID from URL") ;;
         doc <- loadInfo remote sheetId a ;;
         info (Template "Spreadsheet loaded with " (sheetCount doc) " sheets") ;;
         names <-
           for_each
             (fun i acc =>
                match sheetsByIndex doc i with
                | Some sheet =>
                    ret (acc ++ [ {| name := title sheet;
                                     sheetIndex := index sheet;
                                     nameRowCount := rowCount sheet;
                                     nameColumnCount := columnCount sheet |} ])%list
                | None => throw UndefinedSheet
                end)
             (seq 0 (sheetCount doc)) [] ;;
         info (Text "Successfully retrieved spreadsheet summary") ;;
         ret {| summaryId := sheetId;
                summaryTitle := docTitle doc;
                summaryUrl := spreadsheetUrl doc;
                summarySheetCount := sheetCount doc;
                sheetNames := names;
                summaryMetadata :=
                  {| created := createdTime doc;
                     modified := modifiedTime doc;
                     lastUser := lastModifyingUser doc |} |}
     end)
    (fun e =>
       error_ (Text "Error retrieving spreadsheet summary:") e ;;
       throw SummaryFailed).

Definition getSheetData (url sheetName : jsstring) : M SheetData :=
  try_catch
    (this <- get_this ;;
     match auth this with
     | None => throw NotInitialized
     | Some a =>
         info (Text "Retrieving specific sheet data...") ;;
         sheetId <- extractSheetIdFromUrl url ;;
         info (Text "Extracted sheet ID from URL") ;;
         doc <- loadInfo remote sheetId a ;;
         info (Template "Spreadsheet loaded with " (sheetCount doc) " sheets") ;;
         match sheetsByTitle doc sheetName with
         | Absent => throw SheetNotFound
         | Inherited => throw NotAFunction
         | Own sheet =>
             loadCells sheet ;;
             let extractedData := extractCellData sheet in
             info (Text "Successfully retrieved specific sheet data") ;;
             ret {| spreadsheetId := sheetId;
                    spreadsheetTitle := docTitle doc;
                    dataUrl := spreadsheetUrl doc;
                    dataTitle := metaTitle (metadata extractedData);
                    dataDimensions := dimensions (metadata extractedData);
                    dataTimes :=
                      {| created := createdTime doc;
                         modified := modifiedTime doc;
                         lastUser := lastModifyingUser doc |};
                    dataSheetIndex := index sheet;
                    dataGridProperties := gridProperties sheet;
                    dataCells := cells extractedData |}
         end
     end)
    (fun e =>
       error_ (Text "Error retrieving sheet data:") e ;;
       throw SheetDataFailed).
End Retrieval.

(** *** columnToLetter *)

(** One turn of the loop is a call; [result] is the string built so far.
    On the non-negative numbers the loop sees, [%] is [Z.rem] and
    [Math.floor(x / 26)] is [Z.div].  The arithmetic here is that of the
    integers, which is the arithmetic of a number up to 2^53, where the row
    and column counters of a worksheet stay; [Float64.columnToLetter] runs
    the loop on doubles, whatever the number. *)
Equations? columnToLetterFrom (colNum : Z) (result : jsstring) : jsstring
  by wf (Z.to_nat colNum) lt :=
  columnToLetterFrom colNum result with Z_gt_dec colNum 0 := {
    | left _ =>
        columnToLetterFrom
          ((colNum - 1) / 26)
          (fromCharCode (65 + Z.rem (colNum - 1) 26) :: result)
    | right _ => result }.
Proof.
  assert ((colNum - 1) / 26 < colNum)%Z by (apply Z.div_lt_upper_bound; lia).
  assert (0 <= (colNum - 1) / 26)%Z by (apply Z.div_pos; lia).
  lia.
Qed.

Definition columnToLetter (colNum : Z) : jsstring :=
  columnToLetterFrom colNum [].

End Service.
Import Service.
(* ------------------------------------------------------------------------- *)
(** ** columnToLetter on JavaScript numbers *)

(** [colNum] is a JavaScript number, an IEEE 754 double.  [Service.columnToLetter]
    runs the loop in exact integer arithmetic, which is what the row and
    column counters of a worksheet see; here the loop runs on doubles.  A
    double holding an integer is kept as that integer, and every operation
    of the loop rounds as the double operation does. *)

Module Float64.

Local Open Scope Z_scope.

(** [round z], for [z >= 0]: the double nearest to the integer [z].  A double
    has 53 significant bits, so an integer below 2^53 is a double; above, the
    significand [m] is kept and the [e] bits below it are rounded away, to
    the nearest, a tie going to the even significand.  (Overflow, at 2^1024,
    is out of reach: the loop only makes its number smaller.) *)
Definition round (z : Z) : Z :=
  if z <? 2 ^ 53 then z
  else
    let e := Z.log2 z - 52 in
    let m := z / 2 ^ e in
    let r := z mod 2 ^ e in
    let half := 2 ^ (e - 1) in
    if (r <? half) || ((r =? half) && Z.even m)
    then m * 2 ^ e
    else (m + 1) * 2 ^ e.

(** [colNum--]: the double nearest to [colNum - 1]. *)
Definition decrement (colNum : Z) : Z := round (colNum - 1).

(** [Math.floor(x / d)], for [x >= 0] and [d > 0].  The quotient is rounded
    to a double before [Math.floor] sees it: it is computed to more bits than
    a significand holds, with a last bit that tells whether anything is left
    below, and that number is rounded as an integer is. *)
Definition floorOfQuotient (x d : Z) : Z :=
  let s := 54 + Z.log2_up d in
  let q := (x * 2 ^ s) / d in
  let sticky := if (x * 2 ^ s) mod d =? 0 then 0 else 1 in
  round (2 * q + sticky) / 2 ^ (s + 1).

(** Rounding moves a number by half a unit of its last kept bit, at most,
    and not below the truncated significand. *)
Lemma round_bounds z :
  2 ^ 53 <= z ->
  let e := Z.log2 z - 52 in
  1 <= e /\ (z / 2 ^ e) * 2 ^ e <= round z <= z + 2 ^ (e - 1).
Proof.
  intros Hz e.
  assert (He : 1 <= e).
  { unfold e. assert (53 <= Z.log2 z) by (apply Z.log2_le_pow2; lia). lia. }
  split; [exact He|].
  unfold round. destruct (Z.ltb_spec z (2 ^ 53)) as [|_]; [lia|].
  fold e.
  assert (Hp : 0 < 2 ^ e) by (apply Z.pow_pos_nonneg; lia).
  assert (Hh : 2 ^ e = 2 * 2 ^ (e - 1)).
  { replace e with (1 + (e - 1)) at 1 by lia.
    rewrite Z.pow_add_r by lia. reflexivity. }
  pose proof (Z.div_mod z (2 ^ e) ltac:(lia)) as Hdm.
  pose proof (Z.mod_pos_bound z (2 ^ e) Hp) as Hr.
  set (m := z / 2 ^ e) in *. set (r := z mod 2 ^ e) in *.
  destruct ((r <? 2 ^ (e - 1)) || ((r =? 2 ^ (e - 1)) && Z.even m)) eqn:Hdown.
  - nia.
  - apply orb_false_iff in Hdown as [Hlt _].
    apply Z.ltb_ge in Hlt. nia.
Qed.

Lemma round_nonneg z : 0 <= z -> 0 <= round z <= 2 * z.
Proof.
  intros Hz. destruct (Z_lt_dec z (2 ^ 53)) as [Hs|Hb].
  - unfold round. destruct (Z.ltb_spec z (2 ^ 53)); lia.
  - destruct (@round_bounds z ltac:(lia)) as (He & Hlo & Hhi).
    set (e := Z.log2 z - 52) in *.
    assert (Hp : 0 < 2 ^ e) by (apply Z.pow_pos_nonneg; lia).
    assert (0 <= z / 2 ^ e) by (apply Z.div_pos; lia).
    assert (Hle : 2 ^ (e - 1) <= z).
    { transitivity (2 ^ Z.log2 z).
      - apply Z.pow_le_mono_r; unfold e; lia.
      - apply Z.log2_spec. lia. }
    nia.
Qed.

(** One turn of the loop makes its number smaller, whatever it is. *)
Lemma turn_decreases colNum :
  colNum > 0 ->
  0 <= floorOfQuotient (decrement colNum) 26 < colNum.
Proof.
  intros Hc. unfold floorOfQuotient, decrement.
  change (54 + Z.log2_up 26) with 59. change (59 + 1) with 60.
  pose proof (@round_nonneg (colNum - 1) ltac:(lia)) as Hy.
  set (y := round (colNum - 1)) in *.
  assert (Hq : 0 <= y * 2 ^ 59 / 26) by (apply Z.div_pos; lia).
  pose proof (Z.mul_div_le (y * 2 ^ 59) 26 ltac:(lia)) as Hq'.
  set (q := y * 2 ^ 59 / 26) in *.
  set (sticky := if y * 2 ^ 59 mod 26 =? 0 then 0 else 1).
  assert (Hs : 0 <= sticky <= 1) by (unfold sticky; destruct (_ =? _); lia).
  pose proof (@round_nonneg (2 * q + sticky) ltac:(lia)) as Ht.
  split.
  - apply Z.div_pos; lia.
  - apply Z.div_lt_upper_bound; [lia|].
    change (2 ^ 60) with 1152921504606846976.
    change (2 ^ 59) with 576460752303423488 in Hq'. lia.
Qed.

(** One turn of the loop is a call; [result] is the string built so far.
    The number is positive when it is decremented, so [%] sees a
    non-negative number and is exact, as is the small sum after it. *)
Equations? columnToLetterFrom (colNum : Z) (result : jsstring) : jsstring
  by wf (Z.to_nat colNum) lt :=
  columnToLetterFrom colNum result with Z_gt_dec colNum 0 := {
    | left _ =>
        columnToLetterFrom
          (floorOfQuotient (decrement colNum) 26)
          (fromCharCode (65 + Z.rem (decrement colNum) 26) :: result)
    | right _ => result }.
Proof.
  pose proof (@turn_decreases colNum ltac:(lia)). lia.
Qed.

Definition columnToLetter (colNum : Z) : jsstring :=
  columnToLetterFrom colNum [].

End Float64.


(* ------------------------------------------------------------------------- *)
(** ** Reference notions the properties are stated against *)

Module Reference.

(** An upper-case letter A-Z. *)
Definition isLetter (c : N) : bool := N.leb 65 c && N.leb c 90.

(** The number a column name stands for in bijective base 26: the letters
    are the digits 1 to 26, most significant first. *)
Definition letterValue (s : jsstring) : Z :=
  fold_left (fun acc c => acc * 26 + (Z.of_N c - 64))%Z s 0%Z.

(** A value that counts as content: not [null], not [undefined], not the
    empty string. *)
Definition nonEmpty (v : jsval) : Prop :=
  v <> JNull /\ v <> JUndefined /\ v <> JStr [].

(** Row-major order on positions. *)
Definition rowMajor (a b : nat * nat) : Prop :=
  fst a < fst b \/ (fst a = fst b /\ snd a < snd b).

(** [String(v)], the string form of a value. *)
Definition stringForm (v : jsval) : jsstring :=
  match v with
  | JNull => lit "null"
  | JUndefined => lit "undefined"
  | JBool true => lit "true"
  | JBool false => lit "false"
  | JNum z => lit (NilZero.string_of_int (Z.to_int z))
  | JStr s => s
  | JObj _ => lit "[object Object]"
  end.

(** [s] contains the character [c]. *)
Definition contains (c : N) (s : jsstring) : bool := existsb (N.eqb c) s.

(** The currency symbols $ £ € ¥ ₹ ₽ ₩, as code units. *)
Definition isCurrencySymbol (c : N) : bool :=
  existsb (N.eqb c) [36; 163; 8364; 165; 8377; 8381; 8361]%N.

(** The records one row of the grid contributes, left to right. *)
Definition rowCells (sheet : Worksheet) (row : nat) : list CellData.t :=
  flat_map (fun col => visit (getCell sheet row col) row col [])
           (seq 0 (columnCount sheet)).

(** A cell as the client hands it out, without a hyperlink. *)
Definition plainCell (v : jsval) (d : display) : Cell :=
  {| value := v; formattedValue := d; Client.hyperlink := Some JUndefined |}.

(** A one-row sheet used to exercise the extractor: 5 shown as "5", a 7
    with no display text, "x" shown as "x", and 5 shown as "5.00". *)
Definition sampleSheet : Worksheet :=
  {| title := lit "Sheet1";
     index := 0;
     rowCount := 1;
     columnCount := 4;
     gridProperties := JNull;
     cellsFailure := None;
     getCell := fun _ col =>
       match col with
       | 0 => plainCell (JNum 5) (DStr (lit "5"))
       | 1 => plainCell (JNum 7) (DStr [])
       | 2 => plainCell (JStr (lit "x")) (DStr (lit "x"))
       | _ => plainCell (JNum 5) (DStr (lit "5.00"))
       end |}.

(** An identifier character: a letter, a digit, "-" or "_". *)
Definition isIdChar (c : N) : bool :=
  (N.leb 97 c && N.leb c 122) || (N.leb 65 c && N.leb c 90)
  || (N.leb 48 c && N.leb c 57) || N.eqb c 45 || N.eqb c 95.

(** A non-empty run of identifier characters. *)
Definition isId (x : jsstring) : bool :=
  match x with
  | [] => false
  | _ :: _ => forallb isIdChar x
  end.

(** The text after an identifier does not continue it. *)
Definition delimited (suffix : jsstring) : bool :=
  match suffix with
  | [] => true
  | c :: _ => negb (isIdChar c)
  end.

(** The longest run of identifier characters at the start of [s]. *)
Fixpoint idRun (s : jsstring) : jsstring :=
  match s with
  | c :: s' => if isIdChar c then c :: idRun s' else []
  | [] => []
  end.

(** [marker] stands at the start of [url] and an identifier character
    follows it: a place where a URL of that shape carries an identifier. *)
Definition candidateHere (marker url : jsstring) : bool :=
  match strip_prefix marker url with
  | Some (c :: _) => isIdChar c
  | _ => false
  end.

(** No such place at the first [n] offsets of [url]. *)
Fixpoint noCandidateBefore (marker url : jsstring) (n : nat) : bool :=
  match n with
  | O => true
  | S n' =>
      negb (candidateHere marker url)
      && match url with
         | [] => true
         | _ :: url' => noCandidateBefore marker url' n'
         end
  end.

(** No such place anywhere in [url]. *)
Definition noCandidate (marker url : jsstring) : bool :=
  noCandidateBefore marker url (S (List.length url)).

(** The identifier at the leftmost such place, if there is one. *)
Fixpoint findId (marker url : jsstring) : option jsstring :=
  let here := match strip_prefix marker url with
              | Some rest => idRun rest
              | None => []
              end in
  match here with
  | _ :: _ => Some here
  | [] => match url with
          | [] => None
          | _ :: url' => findId marker url'
          end
  end.

(** The identifier found by the first marker, in order, that finds one. *)
Fixpoint firstId (ms : list jsstring) (url : jsstring) : option jsstring :=
  match ms with
  | [] => None
  | m :: ms' => match findId m url with
                | Some x => Some x
                | None => firstId ms' url
                end
  end.

(** Whether [logger.error] prints for this instance. *)
Definition logsErrors (this : GoogleSheetsService) : bool :=
  existsb (String.eqb (logLevel (logger this)))
          ["debug"; "info"; "warn"; "error"]%string.

(** Whether [logger.info] prints for this instance. *)
Definition logsInfo (this : GoogleSheetsService) : bool :=
  existsb (String.eqb (logLevel (logger this))) ["debug"; "info"]%string.

(** The console line of a caught error, when errors are printed. *)
Definition errorLine (this : GoogleSheetsService) (msg : string) (e : error)
  : list event :=
  if logsErrors this then [EvConsole "error" (Text msg) [e]] else [].

(** The console line of an informational message, when those are printed. *)
Definition infoLine (this : GoogleSheetsService) (msg : logtext)
  : list event :=
  if logsInfo this then [EvConsole "info" msg []] else [].

(** A request for the cell grid of some worksheet. *)
Definition isLoadCells (e : event) : bool :=
  match e with
  | EvLoadCells _ => true
  | _ => false
  end.

(** A request to the spreadsheet service of any kind. *)
Definition isRequest (e : event) : bool :=
  match e with
  | EvLoadInfo _ | EvLoadCells _ => true
  | EvConsole _ _ _ => false
  end.

(** An initialised instance with the default log level. *)
Definition sampleJWT : JWT :=
  {| email := lit "reader@project.iam.gserviceaccount.com";
     key := lit "KEY";
     scopes := SCOPES |}.

Definition sampleService : GoogleSheetsService :=
  {| config := {| serviceAccountEmail := lit "reader@project.iam.gserviceaccount.com";
                  privateKey := lit "KEY";
                  projectId := lit "project" |};
     logger := {| logLevel := "info"; debugMode := false |};
     auth := Some sampleJWT |}.

(** The same instance before [initialize]. *)
Definition freshService : GoogleSheetsService :=
  {| config := config sampleService;
     logger := logger sampleService;
     auth := None |}.

(** A document with the single worksheet "Sheet1", and a service that
    answers every [loadInfo] with it. *)
Definition sampleDoc : Spreadsheet :=
  {| docTitle := JStr (lit "Budget");
     spreadsheetUrl := JUndefined;
     sheets := [sampleSheet];
     createdTime := JUndefined;
     modifiedTime := JUndefined;
     lastModifyingUser := JUndefined |}.

Definition sampleRemote : Remote := fun _ _ => inr sampleDoc.

Definition sampleUrl : jsstring :=
  lit "https://docs.google.com/spreadsheets/d/1BxiMVs0XRA5nFMdKvBdBZjgmUUqptlbs74OgvE2upms/edit#gid=0".

(** The descriptor the summary lists for a worksheet. *)
Definition describe (sheet : Worksheet) : SheetName :=
  {| name := title sheet;
     sheetIndex := index sheet;
     nameRowCount := rowCount sheet;
     nameColumnCount := columnCount sheet |}.

(** A method body that leaves the instance as it was and only appends
    events accepted by [allowed] to the trace. *)
Definition adds {A : Type} (allowed : event -> bool) (m : M A) : Prop :=
  forall this tr,
  exists res new,
    m this tr = (res, this, tr ++ new) /\ forallb allowed new = true.

End Reference.
Import Reference.


(* ------------------------------------------------------------------------- *)
(** ** The remaining methods of the logger *)

Module LoggerMethods.

Local Open Scope string_scope.


(** [Logger.debug]: printed in debug mode or at the debug level. *)
Definition debug (msg : logtext) (args : list error) : M unit :=
  this <- get_this ;;
  if debugMode (logger this) || String.eqb (logLevel (logger this)) "debug"
  then emit (EvConsole "debug" msg args)
  else ret tt.

(** [Logger.mcp]: a debug line with the "[MCP] " prefix. *)
Definition mcp (message : string) (args : list error) : M unit :=
  debug (Text ("[MCP] " ++ message)) args.

End LoggerMethods.
Import LoggerMethods.

(* ------------------------------------------------------------------------- *)
(** ** Plain objects and number-to-string conversion *)

Module JsObject.

(** [String(n)] for a non-negative integer: its decimal digits. *)
Definition natToString (n : nat) : jsstring :=
  lit (NilEmpty.string_of_uint (Nat.to_uint n)).

(** A plain object with string keys that are not array indices: its own
    properties, in insertion order. *)
Definition object (V : Type) : Type := list (jsstring * V).

(** [o[k] = v]: an existing property keeps its place and gets the new
    value, a new property is added at the end. *)
Fixpoint obj_set {V} (o : object V) (k : jsstring) (v : V) : object V :=
  match o with
  | [] => [(k, v)]
  | (k', v') :: o' =>
      if str_eqb k' k then (k', v) :: o' else (k', v') :: obj_set o' k v
  end.

(** [o[k]] for an own property ([None] when there is none). *)
Fixpoint obj_get {V} (o : object V) (k : jsstring) : option V :=
  match o with
  | [] => None
  | (k', v') :: o' => if str_eqb k' k then Some v' else obj_get o' k
  end.

End JsObject.
Import JsObject.

(* ------------------------------------------------------------------------- *)
(** ** The address-keyed extractor and [getSheet] of the earlier service *)

Module Legacy.

Local Open Scope string_scope.
Local Open Scope list_scope.

(** The further accessors of a cell that the earlier extractor reads; each
    may throw ([None]). *)
Record CellStyle := {
  note : option jsval;
  backgroundColor : option jsval;
  textFormat : option jsval;
  horizontalAlignment : option jsval;
  verticalAlignment : option jsval;
  textDirection : option jsval;
  numberFormat : option jsval
}.

Record CellData := {
  row : nat;
  column : nat;
  address : jsstring;
  value : jsval;
  formattedValue : display;
  dataNote : option jsval;
  dataBackgroundColor : option jsval;
  dataTextFormat : option jsval;
  dataHorizontalAlignment : option jsval;
  dataVerticalAlignment : option jsval;
  dataTextDirection : option jsval;
  dataHyperlink : option jsval;
  dataNumberFormat : option jsval
}.

(** [try { if (cell.p) cellData.p = cell.p } catch (e) { }] *)
Definition optional (read : option jsval) : option jsval :=
  match read with
  | Some v => if truthy v then Some v else None
  | None => None
  end.

(** [`${this.columnToLetter(col + 1)}${row + 1}`] *)
Definition cellAddress (row col : nat) : jsstring :=
  columnToLetter (Z.of_nat (col + 1)) ++ natToString (row + 1).

Definition cellData (cell : Cell) (style : CellStyle) (row col : nat)
  : CellData :=
  {| row := row + 1;
     column := col + 1;
     address := cellAddress row col;
     value := Client.value cell;
     formattedValue := Client.formattedValue cell;
     dataNote := optional (note style);
     dataBackgroundColor := optional (backgroundColor style);
     dataTextFormat := optional (textFormat style);
     dataHorizontalAlignment := optional (horizontalAlignment style);
     dataVerticalAlignment := optional (verticalAlignment style);
     dataTextDirection := optional (textDirection style);
     dataHyperlink := optional (Client.hyperlink cell);
     dataNumberFormat := optional (numberFormat style) |}.

(** The body of the inner loop. *)
Definition visit (cell : Cell) (style : CellStyle) (row col : nat)
           (cells : object CellData) : object CellData :=
  if has_content (Client.value cell)
  then obj_set cells (cellAddress row col) (cellData cell style row col)
  else cells.

(** [extractCellData(sheet)]: an object keyed by cell address.  [styles]
    gives the further accessors of the cell at a zero-based position. *)
Definition extractCellData (sheet : Worksheet)
           (styles : nat -> nat -> CellStyle) : object CellData :=
  let maxRow := rowCount sheet in
  let maxCol := columnCount sheet in
  fold_left
    (fun cells row =>
       fold_left
         (fun cells col =>
            visit (getCell sheet row col) (styles row col) row col cells)
         (seq 0 maxCol) cells)
    (seq 0 maxRow) [].

Record SheetData := {
  sheetTitle : jsstring;
  sheetIndex : nat;
  sheetRowCount : nat;
  sheetColumnCount : nat;
  sheetGridProperties : jsval;
  sheetCells : object CellData
}.

Record SheetResult := {
  resultId : jsstring;
  resultTitle : jsval;
  resultUrl : jsval;
  resultSheetCount : nat;
  resultSheets : list SheetData;
  resultMetadata : Times
}.

Definition SheetFailed : error :=
  Error "Failed to retrieve sheet data. Please check your permissions and try again.".

Section GetSheet.
Variable remote : Remote.
(** The further accessors of the cells of each worksheet. *)
Variable styles : Worksheet -> nat -> nat -> CellStyle.

(** [getSheet(fileId)]: every worksheet of the document, cells included. *)
Definition getSheet (fileId : jsstring) : M SheetResult :=
  try_catch
    (this <- get_this ;;
     match auth this with
     | None => throw NotInitialized
     | Some a =>
         info (Text "Retrieving sheet data...") ;;
         doc <- loadInfo remote fileId a ;;
         info (Template "Spreadsheet loaded with " (sheetCount doc) " sheets") ;;
         sheets <-
           for_each
             (fun i acc =>
                match sheetsByIndex doc i with
                | Some sheet =>
                    loadCells sheet ;;
                    ret (acc ++ [ {| sheetTitle := title sheet;
                                     sheetIndex := index sheet;
                                     sheetRowCount := rowCount sheet;
                                     sheetColumnCount := columnCount sheet;
                                     sheetGridProperties := gridProperties sheet;
                                     sheetCells :=
                                       extractCellData sheet (styles sheet) |} ])
                | None => throw (Error "Cannot read properties of undefined (reading 'loadCells')")
                end)
             (seq 0 (sheetCount doc)) [] ;;
         info (Text "Successfully retrieved sheet data") ;;
         ret {| resultId := fileId;
                resultTitle := docTitle doc;
                resultUrl := spreadsheetUrl doc;
                resultSheetCount := sheetCount doc;
                resultSheets := sheets;
                resultMetadata :=
                  {| created := createdTime doc;
                     modified := modifiedTime doc;
                     lastUser := lastModifyingUser doc |} |}
     end)
    (fun e =>
       error_ (Text "Error retrieving sheet:") e ;;
       throw SheetFailed).
End GetSheet.

End Legacy.

(* ------------------------------------------------------------------------- *)
(** ** Global replacement and string conversion *)

Module JsText.

(** [`${v}`], the string form of a value inside a template literal; an
    object is taken to print as a plain object does. *)
Definition toString (v : jsval) : jsstring :=
  match v with
  | JNull => lit "null"
  | JUndefined => lit "undefined"
  | JBool true => lit "true"
  | JBool false => lit "false"
  | JNum z => lit (NilZero.string_of_int (Z.to_int z))
  | JStr s => s
  | JObj _ => lit "[object Object]"
  end.

(** [l.join(sep)] *)
Fixpoint join (sep : jsstring) (l : list jsstring) : jsstring :=
  match l with
  | [] => []
  | [x] => x
  | x :: l' => x ++ sep ++ join sep l'
  end.

(** [s.replace(r, replacement)] for a global [r] and a replacement text
    without "$": every match, found left to right from the end of the one
    before, gives way to the replacement.  [skip] counts the characters still
    covered by the last match. *)
Fixpoint replaceFrom (r : regex) (replacement s : jsstring) (skip : nat)
  : jsstring :=
  match s with
  | [] =>
      match skip, match_here r [] with
      | O, Some _ => replacement
      | _, _ => []
      end
  | c :: s' =>
      match skip with
      | S k => replaceFrom r replacement s' k
      | O =>
          match match_here r s with
          | Some (whole :: _) =>
              match List.length whole with
              | O => replacement ++ c :: replaceFrom r replacement s' 0
              | S n => replacement ++ replaceFrom r replacement s' n
              end
          | _ => c :: replaceFrom r replacement s' 0
          end
      end
  end.

Definition replaceAll (r : regex) (s replacement : jsstring) : jsstring :=
  replaceFrom r replacement s 0.

End JsText.
Import JsText.

(* ------------------------------------------------------------------------- *)
(** ** The tool layer: lazy initialisation and the two tools *)

Module Server.

Local Open Scope string_scope.
Local Open Scope list_scope.

(** What the process does, seen from outside: what the service does, and
    reads of the credentials file. *)
Inductive io :=
| Svc (e : event)
| ReadFile (path : jsstring).

(** The fields of the parsed credentials file that are read; each is a
    string when present. *)
Record Credentials := {
  client_email : display;
  private_key : display;
  project_id : display
}.

(** The surroundings of the process: the environment variable, path
    resolution, the file system and [JSON.parse] ([None] for JSON null). *)
Record World := {
  credentialsJsonFile : option jsstring;
  resolve : jsstring -> jsstring;
  readFile : jsstring -> error + jsstring;
  parse : jsstring -> error + option Credentials
}.

(** A tool result: its one text block and the error flag. *)
Record Response := { text : jsstring; isError : bool }.

(** Code of the module: it reads and assigns [sheetsService] and appends
    to the trace. *)
Definition S (A : Type) : Type :=
  option GoogleSheetsService -> list io ->
  outcome A * option GoogleSheetsService * list io.

Definition sret {A} (a : A) : S A := fun st tr => (Ret a, st, tr).

Definition sthrow {A} (e : error) : S A := fun st tr => (Throw e, st, tr).

Definition sbind {A B} (m : S A) (k : A -> S B) : S B :=
  fun st tr =>
    match m st tr with
    | (Ret a, st', tr') => k a st' tr'
    | (Throw e, st', tr') => (Throw e, st', tr')
    end.

Definition stry {A} (body : S A) (handler : error -> S A) : S A :=
  fun st tr =>
    match body st tr with
    | (Ret a, st', tr') => (Ret a, st', tr')
    | (Throw e, st', tr') => handler e st' tr'
    end.

Definition MissingEnv : error :=
  Error "Missing GOOGLE_CREDENTIALS_JSON_FILE environment variable. Please configure the credentials JSON file path in the extension settings.".

Definition InterpolationFailed : error :=
  Error "Environment variable interpolation failed. Credentials file path contains unresolved placeholders. Please check your extension configuration in Claude Desktop settings.".

Definition InvalidCredentials : error :=
  Error "Invalid credentials JSON file. Missing required fields: client_email, private_key, or project_id".

Definition NullCredentials : error :=
  Error "Cannot read properties of null (reading 'client_email')".

(** The TypeError of a method call on [null]. *)
Definition NullService (method : string) : error :=
  Error ("Cannot read properties of null (reading '" ++ method ++ "')").

(** [privateKey.replace(/\\n/g, '\n')]: backslash followed by "n" becomes a
    line feed. *)
Definition unescapeNewlines (privateKey : jsstring) : jsstring :=
  replaceAll (chars [92; 110]%N) privateKey [10%N].

(** [`Error: ${error.message}`] *)
Definition errorText (e : error) : jsstring := lit ("Error: " ++ message e).

Section Tools.
(** The settings both loggers are built with, the surroundings, the
    spreadsheet service and [JSON.stringify] on sheet data. *)
Variable settings : Logger.
Variable world : World.
Variable remote : Remote.
Variable stringify : SheetData -> jsstring.

(** A call of the module-level logger. *)
Definition slog (level : string) (enabled : list string)
           (msg : logtext) (args : list error) : S unit :=
  fun st tr =>
    (Ret tt, st,
     tr ++ if existsb (String.eqb (logLevel settings)) enabled
           then [Svc (EvConsole level msg args)] else []).

Definition sinfo (msg : string) : S unit :=
  slog "info" ["debug"; "info"] (Text msg) [].

Definition serror (msg : string) (e : error) : S unit :=
  slog "error" ["debug"; "info"; "warn"; "error"] (Text msg) [e].

(** A method call on [sheetsService]. *)
Definition call {A} (name : string) (method : M A) : S A :=
  fun st tr =>
    match st with
    | None => (Throw (NullService name), st, tr)
    | Some this =>
        match method this [] with
        | (res, this', new) => (res, Some this', tr ++ map Svc new)
        end
    end.

Definition assignService (this : GoogleSheetsService) : S unit :=
  fun _ tr => (Ret tt, Some this, tr).

Definition readCredentials (path : jsstring) : S jsstring :=
  fun st tr =>
    match readFile world path with
    | inl e => (Throw e, st, tr ++ [ReadFile path])
    | inr data => (Ret data, st, tr ++ [ReadFile path])
    end.

Definition initializeSheetsService : S unit :=
  stry
    (sbind (sinfo "Initializing Google Sheets service...") (fun _ =>
     match credentialsJsonFile world with
     | None | Some [] => sthrow MissingEnv
     | Some ((_ :: _) as file) =>
         if includes file (lit "${user_config.")
         then sthrow InterpolationFailed
         else
           sbind (sinfo "Loading credentials from JSON file...") (fun _ =>
           sbind (readCredentials (resolve world file)) (fun data =>
           match parse world data with
           | inl e => sthrow e
           | inr None => sthrow NullCredentials
           | inr (Some credentials) =>
               match client_email credentials,
                     private_key credentials,
                     project_id credentials with
               | DStr ((_ :: _) as serviceAccountEmail),
                 DStr ((_ :: _) as privateKey),
                 DStr ((_ :: _) as projectId) =>
                   let formattedPrivateKey := unescapeNewlines privateKey in
                   sbind (sinfo "Successfully loaded credentials from JSON file")
                         (fun _ =>
                   sbind (assignService
                            {| config :=
                                 {| Effects.serviceAccountEmail := serviceAccountEmail;
                                    Effects.privateKey := formattedPrivateKey;
                                    Effects.projectId := projectId |};
                               logger := settings;
                               auth := None |}) (fun _ =>
                   sbind (call "initialize" initialize) (fun _ =>
                   sinfo "Google Sheets service initialized successfully")))
               | _, _, _ => sthrow InvalidCredentials
               end
           end))
     end))
    (fun e =>
       sbind (serror "Failed to initialize Google Sheets service:" e)
             (fun _ => sthrow e)).

(** [if (!sheetsService) { ...; await initializeSheetsService(); }] *)
Definition ensureService : S unit :=
  fun st tr =>
    match st with
    | Some _ => (Ret tt, st, tr)
    | None =>
        sbind (sinfo "Sheets service not initialized, initializing now...")
              (fun _ => initializeSheetsService) st tr
    end.

Definition sheetLine (sheet : SheetName) : jsstring :=
  lit "- " ++ name sheet ++ lit " (" ++ natToString (nameRowCount sheet)
  ++ lit " rows " ++ [215%N] ++ lit " " ++ natToString (nameColumnCount sheet)
  ++ lit " columns)".

Definition summaryText (summaryData : Summary) : jsstring :=
  lit "**Google Sheet Summary: " ++ toString (summaryTitle summaryData)
  ++ lit "**" ++ [10; 10]%N
  ++ lit "Sheet ID: " ++ summaryId summaryData ++ [10%N]
  ++ lit "URL: " ++ toString (summaryUrl summaryData) ++ [10%N]
  ++ lit "Number of worksheets: "
  ++ natToString (summarySheetCount summaryData) ++ [10%N]
  ++ lit "Created: " ++ toString (created (summaryMetadata summaryData)) ++ [10%N]
  ++ lit "Last modified: "
  ++ toString (modified (summaryMetadata summaryData)) ++ [10; 10]%N
  ++ lit "**Available Sheets:**" ++ [10%N]
  ++ join [10%N] (map sheetLine (sheetNames summaryData)).

Definition sheetDataText (sheetData : SheetData) : jsstring :=
  lit "**Google Sheet Data: " ++ toString (spreadsheetTitle sheetData)
  ++ lit " - " ++ dataTitle sheetData ++ lit "**" ++ [10; 10]%N
  ++ lit "Spreadsheet ID: " ++ spreadsheetId sheetData ++ [10%N]
  ++ lit "URL: " ++ toString (dataUrl sheetData) ++ [10%N]
  ++ lit "Sheet: " ++ dataTitle sheetData ++ [10%N]
  ++ lit "Size: " ++ natToString (rows (dataDimensions sheetData))
  ++ lit " rows " ++ [215%N] ++ lit " "
  ++ natToString (columns (dataDimensions sheetData)) ++ lit " columns" ++ [10%N]
  ++ lit "Created: " ++ toString (created (dataTimes sheetData)) ++ [10%N]
  ++ lit "Last modified: "
  ++ toString (modified (dataTimes sheetData)) ++ [10; 10]%N
  ++ lit "**Cell Data (" ++ natToString (List.length (dataCells sheetData))
  ++ lit " cells with data):**" ++ [10%N]
  ++ stringify sheetData.

(** The handler of [get_spreadsheet_summary]. *)
Definition get_spreadsheet_summary (url : jsstring) : S Response :=
  stry
    (sbind (sinfo "Retrieving Google Sheet summary...") (fun _ =>
     sbind ensureService (fun _ =>
     sbind (call "getSpreadsheetSummary" (getSpreadsheetSummary remote url))
           (fun summaryData =>
     sbind (sinfo "Successfully retrieved spreadsheet summary") (fun _ =>
     sret {| text := summaryText summaryData; isError := false |})))))
    (fun e =>
       sbind (serror "Error in get_spreadsheet_summary:" e) (fun _ =>
       sret {| text := errorText e; isError := true |})).

(** The handler of [get_spreadsheet_sheet_data]. *)
Definition get_spreadsheet_sheet_data (url sheet_name : jsstring) : S Response :=
  stry
    (sbind (sinfo "Retrieving specific sheet data...") (fun _ =>
     sbind ensureService (fun _ =>
     sbind (call "getSheetData" (getSheetData remote url sheet_name))
           (fun sheetData =>
     sbind (sinfo "Successfully retrieved sheet data") (fun _ =>
     sret {| text := sheetDataText sheetData; isError := false |})))))
    (fun e =>
       sbind (serror "Error in get_spreadsheet_sheet_data:" e) (fun _ =>
       sret {| text := errorText e; isError := true |})).

End Tools.

End Server.

(* ------------------------------------------------------------------------- *)
(** ** Further notions used to state what the methods do *)

Module Observations.

(** The requests made to the spreadsheet service, in order, among the
    events a call added. *)
Definition requests (new : list event) : list event := filter isRequest new.

(** The handle [initialize] builds for an instance. *)
Definition jwtOf (this : GoogleSheetsService) : JWT :=
  {| email := serviceAccountEmail (config this);
     key := privateKey (config this);
     scopes := SCOPES |}.

(** The instance once [initialize] has run. *)
Definition initialized (this : GoogleSheetsService) : GoogleSheetsService :=
  {| config := config this; logger := logger this; auth := Some (jwtOf this) |}.

(** A worksheet whose cells cannot be loaded, and a document holding it
    next to the sample sheet. *)
Definition quotaExceeded : error := Error "Quota exceeded".

Definition lockedSheet : Worksheet :=
  {| title := lit "Locked";
     index := 1;
     rowCount := 2;
     columnCount := 2;
     gridProperties := JNull;
     cellsFailure := Some quotaExceeded;
     getCell := fun _ _ => plainCell JNull DNull |}.

Definition twoSheetDoc : Spreadsheet :=
  {| docTitle := JStr (lit "Budget");
     spreadsheetUrl := JUndefined;
     sheets := [sampleSheet; lockedSheet];
     createdTime := JUndefined;
     modifiedTime := JUndefined;
     lastModifyingUser := JUndefined |}.

Definition twoSheetRemote : Remote := fun _ _ => inr twoSheetDoc.

(** What [getSheetData] has printed and requested once the document is
    loaded. *)
Definition loadedPrefix (this : GoogleSheetsService) (sheetId : jsstring)
           (doc : Spreadsheet) : list event :=
  infoLine this (Text "Retrieving specific sheet data...")
  ++ infoLine this (Text "Extracted sheet ID from URL")
  ++ [EvLoadInfo sheetId]
  ++ infoLine this (Template "Spreadsheet loaded with " (sheetCount doc) " sheets").

(** A 2 x 3 grid in which every cell has content. *)
Definition fullSheet : Worksheet :=
  {| title := lit "Full";
     index := 0;
     rowCount := 2;
     columnCount := 3;
     gridProperties := JNull;
     cellsFailure := None;
     getCell := fun row col =>
       plainCell (JNum (Z.of_nat (row * 3 + col + 1))) (DStr (lit "n")) |}.

(** The sample sheet with different cells outside its declared bounds. *)
Definition paddedSheet : Worksheet :=
  {| title := lit "Sheet1";
     index := 0;
     rowCount := 1;
     columnCount := 4;
     gridProperties := JNull;
     cellsFailure := None;
     getCell := fun row col =>
       match row with
       | 0 => match col with
              | 0 | 1 | 2 | 3 => getCell sampleSheet row col
              | _ => plainCell (JStr (lit "beyond")) (DStr (lit "beyond"))
              end
       | _ => plainCell (JStr (lit "below")) (DStr (lit "below"))
       end |}.



(** The entry the address-keyed extractor makes for a cell, if any. *)
Definition legacyEntry (sheet : Worksheet) (styles : nat -> nat -> Legacy.CellStyle)
           (row col : nat) : list (jsstring * Legacy.CellData) :=
  if has_content (value (getCell sheet row col))
  then [(Legacy.cellAddress row col,
         Legacy.cellData (getCell sheet row col) (styles row col) row col)]
  else [].

(** All of them, row by row. *)
Definition legacyEntries (sheet : Worksheet)
           (styles : nat -> nat -> Legacy.CellStyle)
  : list (jsstring * Legacy.CellData) :=
  flat_map (fun row => flat_map (legacyEntry sheet styles row)
                                (seq 0 (columnCount sheet)))
           (seq 0 (rowCount sheet)).

(** An entry made for some cell, and the order of the cells of two
    entries. *)
Definition entryOf (e : jsstring * Legacy.CellData) : Prop :=
  exists row col,
    fst e = Legacy.cellAddress row col
    /\ Legacy.row (snd e) = row + 1 /\ Legacy.column (snd e) = col + 1.

Definition entryBefore (a b : jsstring * Legacy.CellData) : Prop :=
  entryOf a /\ entryOf b
  /\ rowMajor (Legacy.row (snd a), Legacy.column (snd a))
              (Legacy.row (snd b), Legacy.column (snd b)).

(** The record [getSheet] lists for a worksheet. *)
Definition legacySheetData (styles : Worksheet -> nat -> nat -> Legacy.CellStyle)
           (sheet : Worksheet) : Legacy.SheetData :=
  {| Legacy.sheetTitle := title sheet;
     Legacy.sheetIndex := index sheet;
     Legacy.sheetRowCount := rowCount sheet;
     Legacy.sheetColumnCount := columnCount sheet;
     Legacy.sheetGridProperties := gridProperties sheet;
     Legacy.sheetCells := Legacy.extractCellData sheet (styles sheet) |}.

(** The requests for the cell grids of a list of worksheets, in order. *)
Definition loads (l : list Worksheet) : list event :=
  map (fun s => EvLoadCells (title s)) l.

(** A cell without any of the further accessors set. *)
Definition plainStyle : Legacy.CellStyle :=
  {| Legacy.note := Some JUndefined;
     Legacy.backgroundColor := Some JUndefined;
     Legacy.textFormat := Some JUndefined;
     Legacy.horizontalAlignment := Some JUndefined;
     Legacy.verticalAlignment := Some JUndefined;
     Legacy.textDirection := Some JUndefined;
     Legacy.numberFormat := None |}.

(** A document whose second worksheet fails to load, between two that
    would load. *)
Definition threeSheetDoc : Spreadsheet :=
  {| docTitle := JStr (lit "Budget");
     spreadsheetUrl := JUndefined;
     sheets := [sampleSheet; lockedSheet; fullSheet];
     createdTime := JUndefined;
     modifiedTime := JUndefined;
     lastModifyingUser := JUndefined |}.

(** Backslash-n pairs replaced by line feeds, read from left to right. *)
Fixpoint unescaped (s : jsstring) : jsstring :=
  match s with
  | [] => []
  | c :: s' =>
      match s' with
      | d :: s'' =>
          if N.eqb c 92 && N.eqb d 110 then 10%N :: unescaped s''
          else c :: unescaped s'
      | [] => [c]
      end
  end.

(** The reads of the credentials file, and the requests to the spreadsheet
    service, among what a tool call added. *)
Definition isFileRead (e : Server.io) : bool :=
  match e with
  | Server.ReadFile _ => true
  | Server.Svc _ => false
  end.

Definition fileReads (new : list Server.io) : list Server.io :=
  filter isFileRead new.

Definition isServiceRequest (e : Server.io) : bool :=
  match e with
  | Server.Svc e' => isRequest e'
  | Server.ReadFile _ => false
  end.

Definition serviceRequests (new : list Server.io) : list Server.io :=
  filter isServiceRequest new.

(** The console line of the module-level logger, when printed. *)
Definition sline (settings : Logger) (level : string) (enabled : list string)
           (msg : string) (args : list error) : list Server.io :=
  if existsb (String.eqb (logLevel settings)) enabled
  then [Server.Svc (EvConsole level (Text msg) args)] else [].

Definition sinfoLine (settings : Logger) (msg : string) : list Server.io :=
  sline settings "info" ["debug"; "info"]%string msg [].

Definition serrorLine (settings : Logger) (msg : string) (e : error)
  : list Server.io :=
  sline settings "error" ["debug"; "info"; "warn"; "error"]%string msg [e].

(** [sheetsService], when assigned, has been initialised. *)
Definition ready (st : option GoogleSheetsService) : Prop :=
  forall this, st = Some this -> auth this <> None.

(** The service object the tool layer builds from credentials. *)
Definition serviceFor (settings : Logger) (email key project : jsstring)
  : GoogleSheetsService :=
  initialized
    {| config := {| serviceAccountEmail := email;
                    privateKey := Server.unescapeNewlines key;
                    projectId := project |};
       logger := settings;
       auth := None |}.

(** The path of the credentials file, when the environment names one
    without unresolved placeholders. *)
Definition credentialsPath (world : Server.World) : option jsstring :=
  match Server.credentialsJsonFile world with
  | None | Some [] => None
  | Some ((_ :: _) as file) =>
      if includes file (lit "${user_config.") then None
      else Some (Server.resolve world file)
  end.

(** What is wrong with the configuration, if anything; otherwise the
    e-mail, private key and project the credentials file gives. *)
Definition configuration (world : Server.World)
  : error + (jsstring * jsstring * jsstring) :=
  match Server.credentialsJsonFile world with
  | None | Some [] => inl Server.MissingEnv
  | Some ((_ :: _) as file) =>
      if includes file (lit "${user_config.") then inl Server.InterpolationFailed
      else
        match Server.readFile world (Server.resolve world file) with
        | inl e => inl e
        | inr data =>
            match Server.parse world data with
            | inl e => inl e
            | inr None => inl Server.NullCredentials
            | inr (Some credentials) =>
                match Server.client_email credentials,
                      Server.private_key credentials,
                      Server.project_id credentials with
                | DStr ((_ :: _) as email), DStr ((_ :: _) as key),
                  DStr ((_ :: _) as project) => inr (email, key, project)
                | _, _, _ => inl Server.InvalidCredentials
                end
            end
        end
  end.

(** The reads of the credentials file one initialisation makes. *)
Definition credentialReads (world : Server.World) : list Server.io :=
  match credentialsPath world with
  | Some path => [Server.ReadFile path]
  | None => []
  end.

(** The answer of a tool for the outcome of the method it called. *)
Definition answer {A : Type} (render : A -> jsstring) (res : outcome A)
  : Server.Response :=
  match res with
  | Ret data => {| Server.text := render data; Server.isError := false |}
  | Throw e => {| Server.text := Server.errorText e; Server.isError := true |}
  end.

(** Surroundings in which the credentials load. *)
Definition goodWorld : Server.World :=
  {| Server.credentialsJsonFile := Some (lit "creds.json");
     Server.resolve := fun p => lit "/home/user/" ++ p;
     Server.readFile := fun _ => inr (lit "{...}");
     Server.parse := fun _ =>
       inr (Some {| Server.client_email := DStr (lit "reader@project.iam.gserviceaccount.com");
                    Server.private_key := DStr (lit "KEY");
                    Server.project_id := DStr (lit "project") |}) |}.

(** Surroundings without the environment variable. *)
Definition bareWorld : Server.World :=
  {| Server.credentialsJsonFile := None;
     Server.resolve := fun p => p;
     Server.readFile := fun _ => inl (Error "ENOENT");
     Server.parse := fun _ => inl (Error "Unexpected end of JSON input") |}.

End Observations.
Import Observations.

(* ------------------------------------------------------------------------- *)
(** ** The texts a regular expression stands for *)

Module RegexLanguage.

(** [Matches r w]: the text [w], as a whole, is an instance of [r]. *)
Inductive Matches : regex -> jsstring -> Prop :=
| MEps : Matches Eps []
| MOne a c : atom_matches a c = true -> Matches (One a) [c]
| MRep a lo hi w :
    forallb (atom_matches a) w = true ->
    lo <= List.length w ->
    (forall h, hi = Some h -> List.length w <= h) ->
    Matches (Rep a lo hi) w
| MSeq r1 r2 w1 w2 :
    Matches r1 w1 -> Matches r2 w2 -> Matches (Seq r1 r2) (w1 ++ w2)
| MAltL r1 r2 w : Matches r1 w -> Matches (Alt r1 r2) w
| MAltR r1 r2 w : Matches r2 w -> Matches (Alt r1 r2) w
| MGrp r w : Matches r w -> Matches (Grp r) w.

(** [s] contains an instance of [r] somewhere. *)
Definition Contains (r : regex) (s : jsstring) : Prop :=
  exists before w after, s = before ++ w ++ after /\ Matches r w.

(** A run of decimal digits. *)
Definition isDigit (c : N) : bool := N.leb 48 c && N.leb c 57.

Definition digits (w : jsstring) : Prop := forallb isDigit w = true.

(** Day, month and year digits around a separator: one or two digits, the
    separator, one or two digits, the separator, two to four digits. *)
Definition dayMonthYearText (sep : N) (w : jsstring) : Prop :=
  exists d m y,
    w = d ++ [sep] ++ m ++ [sep] ++ y
    /\ digits d /\ digits m /\ digits y
    /\ 1 <= List.length d <= 2
    /\ 1 <= List.length m <= 2
    /\ 2 <= List.length y <= 4.

(** A piece of text that looks like a date with "/" or "-". *)
Definition dateText (w : jsstring) : Prop :=
  dayMonthYearText 47 w \/ dayMonthYearText 45 w.

(** The text contains a piece that looks like a date. *)
Definition mentionsDate (s : jsstring) : Prop :=
  exists before w after, s = before ++ w ++ after /\ dateText w.

End RegexLanguage.
Import RegexLanguage.

(* ------------------------------------------------------------------------- *)
(** ** Lists in increasing order *)

Section Increasing.
Context {A : Type} (R : A -> A -> Prop).

Lemma StronglySorted_app l1 l2 :
  StronglySorted R l1 -> StronglySorted R l2 ->
  (forall a b, In a l1 -> In b l2 -> R a b) ->
  StronglySorted R (l1 ++ l2).
Proof.
  induction l1 as [|x l1 IH]; intros H1 H2 H12; simpl; [exact H2|].
  inversion H1 as [|? ? Hs Hf]; subst.
  constructor.
  - apply IH; [exact Hs | exact H2 |].
    intros a b Ha Hb. apply H12; [right; exact Ha | exact Hb].
  - apply Forall_app. split; [exact Hf|].
    apply Forall_forall. intros b Hb. apply H12; [left; reflexivity | exact Hb].
Qed.

Lemma StronglySorted_flat_map {I : Type} (Q : I -> I -> Prop)
      (f : I -> list A) (l : list I) :
  StronglySorted Q l ->
  (forall x, In x l -> StronglySorted R (f x)) ->
  (forall x y a b, Q x y -> In a (f x) -> In b (f y) -> R a b) ->
  StronglySorted R (flat_map f l).
Proof.
  intros Hl Hin Hout. induction Hl as [|x l Hs IH Hf]; simpl.
  - constructor.
  - apply StronglySorted_app.
    + apply Hin. left. reflexivity.
    + apply IH. intros y Hy. apply Hin. right. exact Hy.
    + intros a b Ha Hb. apply in_flat_map in Hb as (y & Hy & Hb).
      rewrite Forall_forall in Hf. exact (Hout x y a b (Hf y Hy) Ha Hb).
Qed.

Lemma StronglySorted_nth_error l :
  StronglySorted R l ->
  forall i j a b, i < j ->
    nth_error l i = Some a -> nth_error l j = Some b -> R a b.
Proof.
  induction 1 as [|x l Hs IH Hf]; intros i j a b Hij Hi Hj.
  - destruct i; discriminate.
  - destruct j as [|j]; [lia|]. simpl in Hj.
    destruct i as [|i]; simpl in Hi.
    + injection Hi as <-. rewrite Forall_forall in Hf.
      apply Hf. eapply nth_error_In. exact Hj.
    + apply (IH i j); [lia | exact Hi | exact Hj].
Qed.

Lemma StronglySorted_NoDup_map {K : Type} (key : A -> K)
      (S : K -> K -> Prop) l :
  (forall k, ~ S k k) ->
  (forall a b, R a b -> S (key a) (key b)) ->
  StronglySorted R l -> NoDup (map key l).
Proof.
  intros Hirr HS. induction 1 as [|x l Hs IH Hf]; simpl; constructor.
  - intros Hx. apply in_map_iff in Hx as (y & Hk & Hy).
    rewrite Forall_forall in Hf. specialize (HS _ _ (Hf y Hy)).
    rewrite Hk in HS. exact (Hirr _ HS).
  - exact IH.
Qed.
End Increasing.

Lemma StronglySorted_seq start len : StronglySorted lt (seq start len).
Proof.
  revert start. induction len as [|len IH]; intros start; simpl; constructor.
  - apply IH.
  - apply Forall_forall. intros y Hy. apply in_seq in Hy. lia.
Qed.

(* ------------------------------------------------------------------------- *)
(** ** The cell extractor *)

Section CellExtractor.

Lemma str_eqb_eq a b : str_eqb a b = true <-> a = b.
Proof.
  revert b. induction a as [|x a IH]; intros [|y b]; simpl; split;
    try discriminate; try reflexivity; intros H.
  - apply andb_true_iff in H as [Hx Hr]. apply N.eqb_eq in Hx.
    apply IH in Hr. congruence.
  - injection H as -> ->. rewrite N.eqb_refl. apply IH. reflexivity.
Qed.

Lemma strict_eq_eq a b : strict_eq a b = true <-> a = b.
Proof.
  destruct a, b; simpl; split; intros H;
    try discriminate; try reflexivity.
  - apply Bool.eqb_prop in H. congruence.
  - injection H as ->. apply Bool.eqb_reflx.
  - apply Z.eqb_eq in H. congruence.
  - injection H as ->. apply Z.eqb_refl.
  - apply str_eqb_eq in H. congruence.
  - injection H as ->. apply str_eqb_eq. reflexivity.
  - apply Nat.eqb_eq in H. congruence.
  - injection H as ->. apply Nat.eqb_refl.
Qed.

Lemma strict_eq_neq a b : strict_eq a b = false <-> a <> b.
Proof.
  rewrite <- strict_eq_eq. destruct (strict_eq a b); split; congruence.
Qed.

Lemma has_content_nonEmpty v : has_content v = true <-> nonEmpty v.
Proof.
  unfold has_content, nonEmpty.
  rewrite !andb_true_iff, !negb_true_iff, !strict_eq_neq. tauto.
Qed.

Lemma included_nonEmpty cell :
  included cell = true <->
  nonEmpty (value cell) /\ nonEmpty (display_val (formattedValue cell)).
Proof.
  unfold included. rewrite andb_true_iff, !has_content_nonEmpty. tauto.
Qed.

Lemma visit_acc cell row col acc :
  visit cell row col acc = acc ++ visit cell row col [].
Proof.
  unfold visit. destruct (included cell); simpl;
    [reflexivity | symmetry; apply app_nil_r].
Qed.

Lemma inner_loop sheet row cols : forall acc,
  fold_left (fun cells col => visit (getCell sheet row col) row col cells)
            cols acc
  = acc ++ flat_map (fun col => visit (getCell sheet row col) row col []) cols.
Proof.
  induction cols as [|c cols IH]; intros acc; simpl.
  - symmetry. apply app_nil_r.
  - rewrite IH, visit_acc, <- app_assoc. reflexivity.
Qed.

Lemma outer_loop sheet rws : forall acc,
  fold_left
    (fun cells row =>
       fold_left
         (fun cells col => visit (getCell sheet row col) row col cells)
         (seq 0 (columnCount sheet)) cells)
    rws acc
  = acc ++ flat_map (rowCells sheet) rws.
Proof.
  induction rws as [|r rws IH]; intros acc; simpl.
  - symmetry. apply app_nil_r.
  - rewrite IH, inner_loop, <- app_assoc. reflexivity.
Qed.

Lemma cells_rows sheet :
  cells (extractCellData sheet)
  = flat_map (rowCells sheet) (seq 0 (rowCount sheet)).
Proof. unfold extractCellData. simpl. apply outer_loop. Qed.

Lemma in_visit d cell row col :
  In d (visit cell row col []) <->
  included cell = true /\ d = cellData cell row col.
Proof.
  unfold visit. destruct (included cell); simpl; split.
  - intros [<- | []]. split; reflexivity.
  - intros [_ ->]. left. reflexivity.
  - intros [].
  - intros [H _]. discriminate.
Qed.

Lemma in_rowCells d sheet row :
  In d (rowCells sheet row) <->
  exists col, col < columnCount sheet
              /\ included (getCell sheet row col) = true
              /\ d = cellData (getCell sheet row col) row col.
Proof.
  unfold rowCells. rewrite in_flat_map. split.
  - intros (col & Hc & Hd). apply in_seq in Hc. apply in_visit in Hd.
    exists col. split; [lia | exact Hd].
  - intros (col & Hc & Hd). exists col. split.
    + apply in_seq. lia.
    + apply in_visit. exact Hd.
Qed.

(** Membership in the extracted list. *)
Lemma in_cells d sheet :
  In d (cells (extractCellData sheet)) <->
  exists row col,
    row < rowCount sheet /\ col < columnCount sheet
    /\ included (getCell sheet row col) = true
    /\ d = cellData (getCell sheet row col) row col.
Proof.
  rewrite cells_rows, in_flat_map. split.
  - intros (row & Hr & Hd). apply in_seq in Hr.
    apply in_rowCells in Hd as (col & Hd).
    exists row, col. split; [lia | exact Hd].
  - intros (row & col & Hr & Hd). exists row. split.
    + apply in_seq. lia.
    + apply in_rowCells. exists col. exact Hd.
Qed.

Lemma rowMajor_irrefl p : ~ rowMajor p p.
Proof. unfold rowMajor. lia. Qed.

Lemma cells_sorted sheet :
  StronglySorted (fun a b => rowMajor (CellData.pos a) (CellData.pos b))
                 (cells (extractCellData sheet)).
Proof.
  rewrite cells_rows.
  apply StronglySorted_flat_map with (Q := lt).
  - apply StronglySorted_seq.
  - intros row _. unfold rowCells.
    apply StronglySorted_flat_map with (Q := lt).
    + apply StronglySorted_seq.
    + intros col _. unfold visit.
      destruct (included _); simpl; repeat constructor.
    + intros c1 c2 a b Hc Ha Hb.
      apply in_visit in Ha as [_ ->]. apply in_visit in Hb as [_ ->].
      right. simpl. lia.
  - intros r1 r2 a b Hr Ha Hb.
    apply in_rowCells in Ha as (c1 & _ & _ & ->).
    apply in_rowCells in Hb as (c2 & _ & _ & ->).
    left. simpl. lia.
Qed.

End CellExtractor.

Section CellClaims.
Local Open Scope string_scope.

(** The extractor on the sample sheet: the 7 without display text is
    left out. *)
Example sampleSheet_cells :
  map (fun d => (CellData.pos d, CellData.val d, CellData.type d, CellData.fmt d))
      (cells (extractCellData sampleSheet))
  = [ ((1, 1), JNum 5, "number", Some (DStr (lit "5")));
      ((1, 3), JStr (lit "x"), "string", None);
      ((1, 4), JNum 5, "number", Some (DStr (lit "5.00"))) ].
Proof. reflexivity. Qed.

(** C1. Cell visibility: for every worksheet grid and every cell inside
    its declared bounds, the extracted list holds a record at that cell's
    1-based position if and only if both the raw value and the formatted
    value of the cell are non-empty (not null, not undefined, not the empty
    string); every record of the list is the record of such a cell.  A cell
    with a raw value but an empty display is therefore dropped, and vice
    versa. *)
Theorem cell_visibility (sheet : Worksheet) :
  (forall row col,
      row < rowCount sheet -> col < columnCount sheet ->
      ((exists d, In d (cells (extractCellData sheet))
                  /\ CellData.pos d = (row + 1, col + 1))
       <-> nonEmpty (value (getCell sheet row col))
           /\ nonEmpty (display_val (formattedValue (getCell sheet row col)))))
  /\ (forall d,
        In d (cells (extractCellData sheet)) ->
        exists row col,
          row < rowCount sheet /\ col < columnCount sheet
          /\ d = cellData (getCell sheet row col) row col
          /\ nonEmpty (value (getCell sheet row col))
          /\ nonEmpty (display_val (formattedValue (getCell sheet row col)))).
Proof.
  split.
  - intros row col Hr Hc. rewrite <- included_nonEmpty. split.
    + intros (d & Hd & Hp).
      apply in_cells in Hd as (r & c & _ & _ & Hin & ->).
      simpl in Hp. injection Hp as Hr' Hc'.
      assert (r = row) by lia. assert (c = col) by lia. subst. exact Hin.
    + intros Hin. exists (cellData (getCell sheet row col) row col).
      split; [|reflexivity].
      apply in_cells. exists row, col. repeat split; assumption.
  - intros d Hd. apply in_cells in Hd as (r & c & Hr & Hc & Hin & ->).
    exists r, c. apply included_nonEmpty in Hin.
    repeat split; try assumption; apply Hin.
Qed.

Lemma cell_visibility_witness :
  (exists d, In d (cells (extractCellData sampleSheet))
             /\ CellData.pos d = (1, 1))
  /\ ~ (exists d, In d (cells (extractCellData sampleSheet))
                  /\ CellData.pos d = (1, 2)).
Proof.
  pose proof (proj1 (cell_visibility sampleSheet)) as H.
  assert (Hr : 0 < rowCount sampleSheet) by (simpl; lia).
  split.
  - apply (H 0 0 Hr); [simpl; lia|].
    split; repeat split; discriminate.
  - intros Hd. apply (H 0 1 Hr) in Hd; [|simpl; lia].
    destruct Hd as [_ (_ & _ & Hne)]. apply Hne. reflexivity.
Defined.

(** C6. Row-major ordering: of two records of the extracted list, the
    earlier one has the smaller row, or the same row and the smaller
    column; hence no position occurs twice; and each record sits at the
    zero-based coordinates of its cell plus one in each component. *)
Theorem row_major_ordering (sheet : Worksheet) :
  (forall i j A B,
      i < j ->
      nth_error (cells (extractCellData sheet)) i = Some A ->
      nth_error (cells (extractCellData sheet)) j = Some B ->
      rowMajor (CellData.pos A) (CellData.pos B))
  /\ NoDup (map CellData.pos (cells (extractCellData sheet)))
  /\ (forall d,
        In d (cells (extractCellData sheet)) ->
        exists row col,
          row < rowCount sheet /\ col < columnCount sheet
          /\ d = cellData (getCell sheet row col) row col
          /\ CellData.pos d = (row + 1, col + 1)).
Proof.
  pose proof (cells_sorted sheet) as Hs.
  split; [|split].
  - intros i j A B. apply (StronglySorted_nth_error Hs).
  - apply StronglySorted_NoDup_map
      with (R := fun a b => rowMajor (CellData.pos a) (CellData.pos b))
           (S := rowMajor).
    + exact rowMajor_irrefl.
    + intros a b H. exact H.
    + exact Hs.
  - intros d Hd. apply in_cells in Hd as (r & c & Hr & Hc & _ & ->).
    exists r, c. repeat split; assumption.
Qed.

Lemma row_major_ordering_witness :
  rowMajor (1, 1) (1, 3).
Proof.
  apply (proj1 (row_major_ordering sampleSheet) 0 1
               (cellData (plainCell (JNum 5) (DStr (lit "5"))) 0 0)
               (cellData (plainCell (JStr (lit "x")) (DStr (lit "x"))) 0 2)).
  - lia.
  - reflexivity.
  - reflexivity.
Defined.

Lemma includes_char s c : includes s [c] = contains c s.
Proof.
  induction s as [|x s IH]; simpl; [reflexivity|].
  destruct (N.eqb c x); simpl; [reflexivity | exact IH].
Qed.

Lemma in_range_single c x : in_range c (x, x) = N.eqb c x.
Proof.
  unfold in_range. simpl.
  destruct (N.eqb_spec c x) as [-> | Hne].
  - rewrite N.leb_refl. reflexivity.
  - apply andb_false_iff.
    destruct (N.leb_spec x c); [right | left; reflexivity].
    apply N.leb_gt. lia.
Qed.

Lemma currencySymbol_matches c :
  atom_matches currencySymbol c = isCurrencySymbol c.
Proof.
  unfold currencySymbol, isCurrencySymbol. cbn [atom_matches existsb].
  rewrite !in_range_single. reflexivity.
Qed.

(** A one-character pattern is found exactly when some character fits. *)
Lemma test_one a s : test (One a) s = existsb (atom_matches a) s.
Proof.
  unfold test. induction s as [|c s IH]; [reflexivity|].
  cbn [exec existsb]. unfold match_here. cbn [run].
  destruct (atom_matches a c); [reflexivity | exact IH].
Qed.

Lemma test_currency s :
  test (One currencySymbol) s = existsb isCurrencySymbol s.
Proof.
  rewrite test_one.
  induction s as [|c s IH]; cbn [existsb]; [reflexivity|].
  rewrite currencySymbol_matches, IH. reflexivity.
Qed.
(** C2. Type inference: 42 shown as "42%" is a percentage, 42 shown as
    "$42.00" a currency, [true] a boolean, "2024-01-15" a date, 42 shown as
    "42" a number and "hello" a string; and in general the first rule that
    applies decides: a boolean value first; for a number, a "%" in the
    display, then a currency symbol, then a date-like display, else number;
    a date-like string is a date; anything else is a string. *)
Theorem detectCellType_priority :
  (forall h, detectCellType
               {| value := JNum 42; formattedValue := DStr (lit "42%");
                  Client.hyperlink := h |} = "percentage")
  /\ (forall h, detectCellType
                  {| value := JNum 42; formattedValue := DStr (lit "$42.00");
                     Client.hyperlink := h |} = "currency")
  /\ (forall f h, detectCellType
                    {| value := JBool true; formattedValue := f;
                       Client.hyperlink := h |} = "boolean")
  /\ (forall f h, detectCellType
                    {| value := JStr (lit "2024-01-15"); formattedValue := f;
                       Client.hyperlink := h |} = "date")
  /\ (forall h, detectCellType
                  {| value := JNum 42; formattedValue := DStr (lit "42");
                     Client.hyperlink := h |} = "number")
  /\ (forall f h, detectCellType
                    {| value := JStr (lit "hello"); formattedValue := f;
                       Client.hyperlink := h |} = "string")
  /\ (forall cell b, value cell = JBool b -> detectCellType cell = "boolean")
  /\ (forall cell z,
        value cell = JNum z ->
        let shown := or_empty (formattedValue cell) in
        detectCellType cell =
        if contains 37 shown then "percentage"
        else if existsb isCurrencySymbol shown then "currency"
        else if test displayDatePattern shown then "date"
        else "number")
  /\ (forall cell s,
        value cell = JStr s ->
        detectCellType cell =
        if test datePattern s then "date" else "string")
  /\ (forall cell,
        typeof (value cell) <> TyBoolean ->
        typeof (value cell) <> TyNumber ->
        typeof (value cell) <> TyString ->
        detectCellType cell = "string").
Proof.
  repeat match goal with |- _ /\ _ => split end;
    try (intros; reflexivity).
  - intros cell b H. unfold detectCellType. rewrite H. reflexivity.
  - intros cell z H shown. unfold detectCellType. rewrite H.
    fold shown. change (lit "%") with [37%N].
    rewrite includes_char, test_currency. reflexivity.
  - intros cell s H. unfold detectCellType. rewrite H. reflexivity.
  - intros cell Hb Hn Hs. unfold detectCellType.
    destruct (value cell); simpl in *; congruence.
Qed.

Lemma detectCellType_priority_witness :
  detectCellType (plainCell (JNum 3) (DStr (lit "$3.00 (12/31/2024) 50%")))
  = "percentage"
  /\ detectCellType (plainCell (JNum 3) (DStr (lit "$3.00 on 12/31/2024")))
     = "currency"
  /\ detectCellType (plainCell (JNum 45000) (DStr (lit "12/31/2024")))
     = "date"
  /\ detectCellType (plainCell (JObj 0) (DStr (lit "#DIV/0!"))) = "string".
Proof.
  destruct detectCellType_priority
    as (_ & _ & _ & _ & _ & _ & _ & Hnum & _ & Hother).
  split; [|split; [|split]].
  - exact (Hnum (plainCell _ _) 3%Z eq_refl).
  - exact (Hnum (plainCell _ _) 3%Z eq_refl).
  - exact (Hnum (plainCell _ _) 45000%Z eq_refl).
  - apply Hother; discriminate.
Defined.

Lemma included_display cell :
  included cell = true ->
  exists s, formattedValue cell = DStr s /\ s <> [].
Proof.
  intros H. apply included_nonEmpty in H as [_ (Hn & Hu & He)].
  destruct (formattedValue cell) as [| |s]; simpl in *; try congruence.
  exists s. split; [reflexivity | congruence].
Qed.

(** When the record is pushed, the display text is truthy, so the [fmt]
    field only depends on the strict comparison. *)
Lemma fmt_included cell row col :
  included cell = true ->
  CellData.fmt (cellData cell row col) =
  if strict_eq (display_val (formattedValue cell)) (value cell)
  then None else Some (formattedValue cell).
Proof.
  intros H. destruct (included_display cell H) as (s & Hs & Hne).
  unfold cellData. cbn [CellData.fmt]. rewrite Hs. cbn [display_val truthy].
  destruct s as [|c s]; [congruence|]. cbn [andb].
  destruct (strict_eq _ _); reflexivity.
Qed.

(** C3.  The code at the cell holding the number 5 shown as "5": the
    display is the string form of the raw value, so the claim gives the
    record no [fmt]; the extractor gives it one.  The guard is meant to drop
    a display that repeats the raw value, and does so when the raw value is
    a string (the same display on the string "5" is dropped); it compares by
    [!==], which a string and a number always pass.  The claim fails on the
    code as it stands. *)
Theorem fmt_kept_for_equal_number :
  let cell := plainCell (JNum 5) (DStr (lit "5")) in
  getCell sampleSheet 0 0 = cell
  /\ included cell = true
  /\ or_empty (formattedValue cell) = stringForm (value cell)
  /\ option_map CellData.fmt (nth_error (cells (extractCellData sampleSheet)) 0)
     = Some (Some (DStr (lit "5")))
  /\ (forall row col,
         CellData.fmt (cellData (plainCell (JStr (lit "5")) (DStr (lit "5")))
                                row col) = None)
  /\ ~ (forall cell row col,
           included cell = true ->
           (CellData.fmt (cellData cell row col) <> None
            <-> or_empty (formattedValue cell) <> stringForm (value cell))).
Proof.
  cbv zeta.
  split; [reflexivity|]. split; [reflexivity|]. split; [reflexivity|].
  split; [reflexivity|]. split; [reflexivity|].
  intros claim.
  specialize (claim (plainCell (JNum 5) (DStr (lit "5"))) 0 0 eq_refl).
  destruct claim as [Hpresent _].
  apply Hpresent; [discriminate | reflexivity].
Qed.

End CellClaims.

(* ------------------------------------------------------------------------- *)
(** ** The identifier resolver *)

Section Resolver.


Lemma strip_prefix_inv m : forall s rest,
  strip_prefix m s = Some rest -> s = m ++ rest.
Proof.
  induction m as [|c m IH]; intros s rest H; simpl in *.
  - congruence.
  - destruct s as [|d s]; [discriminate|].
    destruct (N.eqb_spec c d) as [-> | _]; [|discriminate].
    f_equal. apply IH, H.
Qed.

(** A literal run of characters matches exactly its own text. *)
Lemma run_chars R m : forall s caps (k : jsstring -> list jsstring -> option R),
  run (chars m) s caps k =
  match strip_prefix m s with
  | Some rest => k rest caps
  | None => None
  end.
Proof.
  induction m as [|c m IH]; intros s caps k; simpl; [reflexivity|].
  destruct s as [|d s]; [reflexivity|].
  destruct (N.eqb c d); [apply IH | reflexivity].
Qed.

Lemma idclass_matches c : atom_matches idclass c = isIdChar c.
Proof.
  unfold idclass, isIdChar. cbn [atom_matches existsb].
  rewrite !in_range_single, orb_false_r. unfold in_range. simpl.
  rewrite !orb_assoc. reflexivity.
Qed.

(** An unbounded greedy repetition in front of a continuation that
    cannot fail takes the whole run. *)
Lemma rep_idclass_greedy R (k : jsstring -> option R) :
  (forall s, k s <> None) ->
  forall s lo,
    rep idclass lo None s k =
    if Nat.leb lo (List.length (idRun s))
    then k (skipn (List.length (idRun s)) s)
    else None.
Proof.
  intros Hk. induction s as [|c s IH]; intros lo.
  - simpl. destruct lo; reflexivity.
  - cbn [rep idRun may_take taken andb]. rewrite idclass_matches.
    destruct (isIdChar c).
    + rewrite IH. cbn [List.length skipn].
      destruct lo as [|lo]; cbn [Nat.pred Nat.leb].
      * destruct (k (skipn (List.length (idRun s)) s)) eqn:E;
          [reflexivity | exfalso; exact (Hk _ E)].
      * destruct (Nat.leb lo (List.length (idRun s))); [|reflexivity].
        destruct (k (skipn (List.length (idRun s)) s)) eqn:E;
          [reflexivity | exfalso; exact (Hk _ E)].
    + simpl. destruct lo; reflexivity.
Qed.

Lemma firstn_idRun s : firstn (List.length (idRun s)) s = idRun s.
Proof.
  induction s as [|c s IH]; simpl; [reflexivity|].
  destruct (isIdChar c); simpl; [f_equal; exact IH | reflexivity].
Qed.

Lemma length_skipn_idRun s :
  List.length s - List.length (skipn (List.length (idRun s)) s)
  = List.length (idRun s).
Proof.
  rewrite length_skipn.
  assert (List.length (idRun s) <= List.length s).
  { rewrite <- (firstn_idRun s), length_firstn. lia. }
  lia.
Qed.

(** One pattern, anchored: the marker, then the identifier run, which is
    group 1. *)
Lemma match_here_pattern marker s :
  match strip_prefix marker s with
  | Some rest =>
      match idRun rest with
      | [] => match_here (pattern marker) s = None
      | _ :: _ => exists whole,
          match_here (pattern marker) s = Some [whole; idRun rest]
      end
  | None => match_here (pattern marker) s = None
  end.
Proof.
  unfold match_here, pattern. cbn [run]. rewrite run_chars.
  destruct (strip_prefix marker s) as [rest|]; [|reflexivity].
  unfold plus. cbn [run].
  rewrite rep_idclass_greedy by discriminate.
  rewrite length_skipn_idRun, firstn_idRun.
  destruct (idRun rest) as [|c x]; [reflexivity|].
  cbn [List.length Nat.leb app]. eexists. reflexivity.
Qed.

(** One pattern, searched: group 1 of the leftmost match. *)
Lemma exec_pattern marker url :
  match findId marker url with
  | Some x => x <> [] /\ exists whole,
                exec (pattern marker) url = Some [whole; x]
  | None => exec (pattern marker) url = None
  end.
Proof.
  induction url as [|c url IH].
  - cbn [findId exec]. pose proof (match_here_pattern marker []) as H.
    destruct (strip_prefix marker []) as [rest|].
    + destruct (idRun rest) as [|d x].
      * rewrite H. reflexivity.
      * destruct H as (whole & ->). split; [discriminate|].
        exists whole. reflexivity.
    + rewrite H. reflexivity.
  - cbn [findId exec]. pose proof (match_here_pattern marker (c :: url)) as H.
    destruct (strip_prefix marker (c :: url)) as [rest|].
    + destruct (idRun rest) as [|d x].
      * rewrite H. exact IH.
      * destruct H as (whole & ->). split; [discriminate|].
        exists whole. reflexivity.
    + rewrite H. exact IH.
Qed.

Lemma first_match_firstId ms url :
  first_match (map pattern ms) url = firstId ms url.
Proof.
  induction ms as [|m ms IH]; [reflexivity|].
  cbn [map first_match firstId].
  pose proof (exec_pattern m url) as H.
  destruct (findId m url) as [x|].
  - destruct H as (Hne & whole & ->). cbn [nth_error].
    destruct x; [congruence | reflexivity].
  - rewrite H. exact IH.
Qed.


Lemma no_candidate_here marker url :
  candidateHere marker url = false ->
  match strip_prefix marker url with
  | Some rest => idRun rest
  | None => []
  end = [].
Proof.
  unfold candidateHere. destruct (strip_prefix marker url) as [[|c rest]|];
    try reflexivity.
  simpl. intros ->. reflexivity.
Qed.

Lemma findId_skip marker c url :
  candidateHere marker (c :: url) = false ->
  findId marker (c :: url) = findId marker url.
Proof.
  intros H. cbn [findId]. rewrite (no_candidate_here _ _ H). reflexivity.
Qed.


Lemma findId_none marker url :
  noCandidate marker url = true -> findId marker url = None.
Proof.
  unfold noCandidate. induction url as [|c url IH]; intros H.
  - cbn [List.length noCandidateBefore] in H.
    apply andb_true_iff in H as [Hhere _]. apply negb_true_iff in Hhere.
    cbn [findId]. rewrite (no_candidate_here _ _ Hhere). reflexivity.
  - cbn [List.length] in H. remember (S (List.length url)) as n.
    cbn [noCandidateBefore] in H. subst n.
    apply andb_true_iff in H as [Hhere Hrest]. apply negb_true_iff in Hhere.
    rewrite (findId_skip _ _ _ Hhere). apply IH, Hrest.
Qed.


Lemma extractSheetIdFromUrl_found url x this tr :
  firstId markers url = Some x ->
  extractSheetIdFromUrl url this tr = (Ret x, this, tr).
Proof.
  intros H. unfold extractSheetIdFromUrl, try_catch, patterns.
  rewrite first_match_firstId, H. reflexivity.
Qed.

Lemma extractSheetIdFromUrl_missing url this tr :
  firstId markers url = None ->
  extractSheetIdFromUrl url this tr =
  (Throw InvalidUrlFormat, this,
   tr ++ errorLine this "Error extracting sheet ID from URL:" CouldNotExtract).
Proof.
  intros H. unfold extractSheetIdFromUrl, try_catch, patterns.
  rewrite first_match_firstId, H. cbn [throw].
  unfold bind, error_, log, get_this, bind, errorLine, logsErrors.
  destruct (existsb _ _); cbn [emit ret throw]; [reflexivity|].
  rewrite app_nil_r. reflexivity.
Qed.



Lemma no_pattern_matches url : forall ms,
  forallb (fun p => negb (test p url)) (map pattern ms) = true ->
  firstId ms url = None.
Proof.
  induction ms as [|m ms IH]; intros H; [reflexivity|].
  cbn [map forallb] in H. apply andb_true_iff in H as [Hm Hms].
  cbn [firstId]. pose proof (exec_pattern m url) as He.
  destruct (findId m url) as [x|]; [|exact (IH Hms)].
  destruct He as (_ & whole & He). unfold test in Hm. rewrite He in Hm.
  discriminate.
Qed.

(** C5, as stated, fails: "not a url" matches no pattern, and what is
    raised is not the no-pattern-matched error. *)
Lemma resolution_failure_counterexample :
  ~ (forall url this tr,
        forallb (fun p => negb (test p url)) patterns = true ->
        fst (fst (extractSheetIdFromUrl url this tr)) = Throw CouldNotExtract).
Proof.
  intros claim.
  specialize (claim (lit "not a url") sampleService [] eq_refl).
  vm_compute in claim. discriminate.
Qed.

(** C5, amended. For every input string that matches none of the three
    patterns, [extractSheetIdFromUrl] builds the no-pattern-matched error,
    hands it to its own catch-all, which prints it on the console (when the
    log level prints errors) and raises the wrapping invalid-format error in
    its place; the two errors are distinct, and the instance is left as it
    was. *)
Theorem resolution_failure_wrapped
        (url : jsstring) (this : GoogleSheetsService) (tr : list event) :
  forallb (fun p => negb (test p url)) patterns = true ->
  extractSheetIdFromUrl url this tr
  = (Throw InvalidUrlFormat, this,
     tr ++ errorLine this "Error extracting sheet ID from URL:" CouldNotExtract)
  /\ InvalidUrlFormat <> CouldNotExtract.
Proof.
  intros H. split; [|discriminate].
  apply extractSheetIdFromUrl_missing, no_pattern_matches, H.
Qed.

Lemma resolution_failure_wrapped_witness :
  extractSheetIdFromUrl (lit "not a url") sampleService []
  = (Throw InvalidUrlFormat, sampleService,
     [EvConsole "error" (Text "Error extracting sheet ID from URL:")
                [CouldNotExtract]]).
Proof.
  exact (proj1 (@resolution_failure_wrapped (lit "not a url") sampleService []
                                            eq_refl)).
Defined.
End Resolver.

(* ------------------------------------------------------------------------- *)
(** ** Running method bodies *)

Section Running.
Context {A B : Type}.

Lemma bind_ret (m : M A) (k : A -> M B) this tr a this' tr' :
  m this tr = (Ret a, this', tr') ->
  bind m k this tr = k a this' tr'.
Proof. intros H. unfold bind. rewrite H. reflexivity. Qed.

Lemma bind_throw (m : M A) (k : A -> M B) this tr e this' tr' :
  m this tr = (Throw e, this', tr') ->
  bind m k this tr = (Throw e, this', tr').
Proof. intros H. unfold bind. rewrite H. reflexivity. Qed.

Lemma try_catch_ret (m : M A) h this tr a this' tr' :
  m this tr = (Ret a, this', tr') ->
  try_catch m h this tr = (Ret a, this', tr').
Proof. intros H. unfold try_catch. rewrite H. reflexivity. Qed.

Lemma try_catch_throw (m : M A) h this tr e this' tr' :
  m this tr = (Throw e, this', tr') ->
  try_catch m h this tr = h e this' tr'.
Proof. intros H. unfold try_catch. rewrite H. reflexivity. Qed.
End Running.

Lemma info_run msg this tr :
  info msg this tr = (Ret tt, this, tr ++ infoLine this msg).
Proof.
  unfold info, log, bind, get_this, infoLine, logsInfo.
  destruct (existsb _ _); cbn [emit ret]; [reflexivity|].
  rewrite app_nil_r. reflexivity.
Qed.

Lemma error_run msg e this tr :
  error_ (Text msg) e this tr = (Ret tt, this, tr ++ errorLine this msg e).
Proof.
  unfold error_, log, bind, get_this, errorLine, logsErrors.
  destruct (existsb _ _); cbn [emit ret]; [reflexivity|].
  rewrite app_nil_r. reflexivity.
Qed.

(** The handler shared by the catch-alls: print, then raise the generic
    error. *)
Lemma handler_run {A} msg e generic this tr :
  bind (error_ (Text msg) e) (fun _ => @throw A generic) this tr
  = (Throw generic, this, tr ++ errorLine this msg e).
Proof. rewrite bind_ret with (1 := error_run msg e this tr). reflexivity. Qed.

(** [initialize] installs the handle that the guards of the retrieval
    methods test. *)
Lemma initialize_run this tr :
  initialize this tr
  = (Ret tt,
     {| config := config this;
        logger := logger this;
        auth := Some {| email := serviceAccountEmail (config this);
                        key := privateKey (config this);
                        scopes := SCOPES |} |},
     tr ++ (if logsInfo this
            then [EvConsole "info"
                    (Text "Google authentication configured with JWT and scopes") []]
            else [])).
Proof.
  unfold initialize, try_catch, bind, get_this, set_auth, info, log, bind,
    get_this, logsInfo.
  cbn [logger logLevel].
  destruct (existsb _ _); cbn [emit ret]; [reflexivity|].
  rewrite app_nil_r. reflexivity.
Qed.

(* ------------------------------------------------------------------------- *)
(** ** Which events a method body can add *)

Section Adds.
Variable allowed : event -> bool.
Hypothesis console_allowed :
  forall level msg args, allowed (EvConsole level msg args) = true.

Lemma adds_ret {A} (a : A) : adds allowed (ret a).
Proof.
  intros this tr. exists (Ret a), []. rewrite app_nil_r. split; reflexivity.
Qed.

Lemma adds_throw {A} e : adds allowed (@throw A e).
Proof.
  intros this tr. exists (Throw e), []. rewrite app_nil_r. split; reflexivity.
Qed.

Lemma adds_get_this : adds allowed get_this.
Proof.
  intros this tr. exists (Ret this), []. rewrite app_nil_r. split; reflexivity.
Qed.

Lemma adds_emit e : allowed e = true -> adds allowed (emit e).
Proof.
  intros He this tr. exists (Ret tt), [e]. split; [reflexivity|].
  simpl. rewrite He. reflexivity.
Qed.

Lemma adds_bind {A B} (m : M A) (k : A -> M B) :
  adds allowed m -> (forall a, adds allowed (k a)) -> adds allowed (bind m k).
Proof.
  intros Hm Hk this tr. destruct (Hm this tr) as (res & new & E & Hnew).
  destruct res as [a|e].
  - destruct (Hk a this (tr ++ new)) as (res' & new' & E' & Hnew').
    exists res', (new ++ new'). rewrite bind_ret with (1 := E), E', app_assoc.
    split; [reflexivity|]. rewrite forallb_app, Hnew, Hnew'. reflexivity.
  - exists (Throw e), new. rewrite bind_throw with (1 := E). split; [reflexivity|].
    exact Hnew.
Qed.

Lemma adds_try_catch {A} (m : M A) h :
  adds allowed m -> (forall e, adds allowed (h e)) ->
  adds allowed (try_catch m h).
Proof.
  intros Hm Hh this tr. destruct (Hm this tr) as (res & new & E & Hnew).
  destruct res as [a|e].
  - exists (Ret a), new. rewrite try_catch_ret with (1 := E). split; [reflexivity|].
    exact Hnew.
  - destruct (Hh e this (tr ++ new)) as (res' & new' & E' & Hnew').
    exists res', (new ++ new'). rewrite try_catch_throw with (1 := E), E', app_assoc.
    split; [reflexivity|]. rewrite forallb_app, Hnew, Hnew'. reflexivity.
Qed.

Lemma adds_log level enabled msg args : adds allowed (log level enabled msg args).
Proof.
  unfold log. apply adds_bind; [apply adds_get_this|]. intros this.
  destruct (existsb _ _); [apply adds_emit, console_allowed | apply adds_ret].
Qed.

Lemma adds_for_each {X B} (f : X -> B -> M B) l :
  (forall x acc, adds allowed (f x acc)) ->
  forall acc, adds allowed (for_each f l acc).
Proof.
  intros Hf. induction l as [|x l IH]; intros acc; simpl.
  - apply adds_ret.
  - apply adds_bind; [apply Hf | exact IH].
Qed.

Lemma adds_extractSheetIdFromUrl url :
  adds allowed (extractSheetIdFromUrl url).
Proof.
  unfold extractSheetIdFromUrl. apply adds_try_catch.
  - destruct (first_match patterns url); [apply adds_ret | apply adds_throw].
  - intros e. apply adds_bind; [apply adds_log|]. intros _. apply adds_throw.
Qed.

Lemma adds_loadInfo remote sheetId a :
  (forall id, allowed (EvLoadInfo id) = true) ->
  adds allowed (loadInfo remote sheetId a).
Proof.
  intros Hinfo. unfold loadInfo. apply adds_bind; [apply adds_emit, Hinfo|].
  intros _. destruct (remote sheetId a); [apply adds_throw | apply adds_ret].
Qed.

(** The summary only prints and calls [loadInfo]. *)
Lemma adds_getSpreadsheetSummary remote url :
  (forall id, allowed (EvLoadInfo id) = true) ->
  adds allowed (getSpreadsheetSummary remote url).
Proof.
  intros Hinfo. unfold getSpreadsheetSummary. apply adds_try_catch.
  - apply adds_bind; [apply adds_get_this|]. intros this.
    destruct (auth this) as [a|]; [|apply adds_throw].
    apply adds_bind; [apply adds_log|]. intros _.
    apply adds_bind; [apply adds_extractSheetIdFromUrl|]. intros sheetId.
    apply adds_bind; [apply adds_log|]. intros _.
    apply adds_bind; [apply adds_loadInfo, Hinfo|]. intros doc.
    apply adds_bind; [apply adds_log|]. intros _.
    apply adds_bind.
    + apply adds_for_each. intros i acc.
      destruct (sheetsByIndex doc i); [apply adds_ret | apply adds_throw].
    + intros names. apply adds_bind; [apply adds_log|]. intros _.
      apply adds_ret.
  - intros e. apply adds_bind; [apply adds_log|]. intros _. apply adds_throw.
Qed.
End Adds.

Section RetrievalClaims.
Variable remote : Remote.

(** C8. Summary cheapness: on every execution path, for every URL and
    every state of the remote service, [getSpreadsheetSummary] adds no
    request for a cell grid to the trace (what it adds are console lines
    and at most requests for document metadata), and it leaves the instance
    as it was. *)
Theorem summary_never_loads_cells
        (url : jsstring) (this : GoogleSheetsService) (tr : list event) :
  exists res new,
    getSpreadsheetSummary remote url this tr = (res, this, tr ++ new)
    /\ forallb (fun e => negb (isLoadCells e)) new = true.
Proof.
  apply (@adds_getSpreadsheetSummary (fun e => negb (isLoadCells e))).
  - reflexivity.
  - reflexivity.
Qed.

Lemma loadInfo_run sheetId a doc this tr :
  remote sheetId a = inr doc ->
  loadInfo remote sheetId a this tr = (Ret doc, this, tr ++ [EvLoadInfo sheetId]).
Proof.
  intros H. unfold loadInfo, bind, emit. rewrite H. reflexivity.
Qed.

Lemma resolved_run url sheetId this tr :
  first_match patterns url = Some sheetId ->
  extractSheetIdFromUrl url this tr = (Ret sheetId, this, tr).
Proof.
  intros H. unfold extractSheetIdFromUrl, try_catch. rewrite H. reflexivity.
Qed.

(** Runs the body of either method up to the loaded document. *)
Ltac run_until_loaded Hurl Hdoc :=
  rewrite bind_ret with (1 := info_run _ _ _);
  rewrite bind_ret with (1 := @resolved_run _ _ _ _ Hurl);
  rewrite bind_ret with (1 := info_run _ _ _);
  rewrite bind_ret with (1 := @loadInfo_run _ _ _ _ _ Hdoc);
  rewrite bind_ret with (1 := info_run _ _ _).

Lemma sheetsByTitle_missing doc sheetName :
  (forall s, In s (sheets doc) -> title s <> sheetName) ->
  sheetsByTitle doc sheetName =
  if existsb (str_eqb sheetName) objectPrototypeKeys
  then Inherited else Absent.
Proof.
  intros H. unfold sheetsByTitle.
  destruct (find _ _) as [s|] eqn:E; [|reflexivity].
  apply find_some in E as [Hin Heq]. apply in_rev in Hin.
  apply str_eqb_eq in Heq. destruct (H s Hin Heq).
Qed.

(** C9. Uninitialised service: while [auth] is [null], both retrieval
    methods fail with their generic retrieval error, for every input; all
    they do is print the cause on the console (when the log level prints
    errors): the URL is not resolved, no request is made to the spreadsheet
    service, and the instance is left as it was. *)
Theorem uninitialized_guard
        (url sheetName : jsstring) (this : GoogleSheetsService)
        (tr : list event) :
  auth this = None ->
  getSpreadsheetSummary remote url this tr
  = (Throw SummaryFailed, this,
     tr ++ errorLine this "Error retrieving spreadsheet summary:" NotInitialized)
  /\ getSheetData remote url sheetName this tr
     = (Throw SheetDataFailed, this,
        tr ++ errorLine this "Error retrieving sheet data:" NotInitialized)
  /\ (forall msg,
        forallb (fun e => negb (isRequest e))
                (errorLine this msg NotInitialized) = true).
Proof.
  intros H. split; [|split].
  - unfold getSpreadsheetSummary.
    rewrite try_catch_throw with (e := NotInitialized) (this' := this) (tr' := tr).
    + apply handler_run.
    + unfold bind, get_this. rewrite H. reflexivity.
  - unfold getSheetData.
    rewrite try_catch_throw with (e := NotInitialized) (this' := this) (tr' := tr).
    + apply handler_run.
    + unfold bind, get_this. rewrite H. reflexivity.
  - intros msg. unfold errorLine. destruct (logsErrors this); reflexivity.
Qed.

(** C7, amended. For a URL that resolves, a document that loads, and a
    worksheet name that is the title of none of its worksheets
    (compared exactly, case included), [getSheetData] fails with its generic
    failed-to-retrieve-sheet-data error; the cause (the sheet-not-found
    error, or the TypeError met when the name is a member of
    Object.prototype) is only printed on the console.  No request for a cell
    grid is made, and the instance is left as it was. *)
Theorem worksheet_not_found
        (url sheetName : jsstring) (this : GoogleSheetsService)
        (tr : list event) (a : JWT) (sheetId : jsstring) (doc : Spreadsheet) :
  auth this = Some a ->
  first_match patterns url = Some sheetId ->
  remote sheetId a = inr doc ->
  (forall s, In s (sheets doc) -> title s <> sheetName) ->
  let cause :=
    if existsb (str_eqb sheetName) objectPrototypeKeys
    then NotAFunction else SheetNotFound in
  let new :=
    infoLine this (Text "Retrieving specific sheet data...")
    ++ infoLine this (Text "Extracted sheet ID from URL")
    ++ [EvLoadInfo sheetId]
    ++ infoLine this (Template "Spreadsheet loaded with "
                               (sheetCount doc) " sheets")
    ++ errorLine this "Error retrieving sheet data:" cause in
  getSheetData remote url sheetName this tr
  = (Throw SheetDataFailed, this, tr ++ new)
  /\ forallb (fun e => negb (isLoadCells e)) new = true
  /\ SheetDataFailed <> SheetNotFound.
Proof.
  intros Hauth Hurl Hdoc Hname cause new. split; [|split; [|discriminate]].
  - unfold getSheetData.
    rewrite try_catch_throw
      with (e := cause) (this' := this)
           (tr' := tr ++ infoLine this (Text "Retrieving specific sheet data...")
                      ++ infoLine this (Text "Extracted sheet ID from URL")
                      ++ [EvLoadInfo sheetId]
                      ++ infoLine this (Template "Spreadsheet loaded with "
                                                 (sheetCount doc) " sheets")).
    + rewrite handler_run. unfold new. rewrite <- !app_assoc. reflexivity.
    + unfold bind at 1. unfold get_this. rewrite Hauth.
      run_until_loaded Hurl Hdoc.
      rewrite (@sheetsByTitle_missing _ _ Hname). unfold cause.
      rewrite <- !app_assoc.
      destruct (existsb _ _); reflexivity.
  - unfold new, infoLine, errorLine.
    destruct (logsInfo this), (logsErrors this); reflexivity.
Qed.

(** The loop of the summary lists every worksheet, in index order. *)
Lemma describe_loop doc this tr : forall l before acc,
  sheets doc = before ++ l ->
  for_each
    (fun i acc =>
       match sheetsByIndex doc i with
       | Some sheet =>
           ret (acc ++ [ {| name := title sheet;
                            sheetIndex := index sheet;
                            nameRowCount := rowCount sheet;
                            nameColumnCount := columnCount sheet |} ])
       | None => throw UndefinedSheet
       end)
    (seq (List.length before) (List.length l)) acc this tr
  = (Ret (acc ++ map describe l), this, tr).
Proof.
  induction l as [|x l IH]; intros before acc E.
  - simpl. rewrite app_nil_r. reflexivity.
  - cbn [List.length seq for_each map].
    assert (Hx : sheetsByIndex doc (List.length before) = Some x).
    { unfold sheetsByIndex. rewrite E, nth_error_app2 by lia.
      rewrite Nat.sub_diag. reflexivity. }
    unfold bind. rewrite Hx. cbn [ret].
    specialize (IH (before ++ [x]) (acc ++ [describe x])).
    rewrite length_app, Nat.add_1_r in IH.
    fold (describe x).
    rewrite IH by (rewrite <- app_assoc; exact E).
    rewrite <- app_assoc. reflexivity.
Qed.

(** The summary of a document that loads. *)
Lemma getSpreadsheetSummary_success url this tr a sheetId doc :
  auth this = Some a ->
  first_match patterns url = Some sheetId ->
  remote sheetId a = inr doc ->
  getSpreadsheetSummary remote url this tr
  = (Ret {| summaryId := sheetId;
            summaryTitle := docTitle doc;
            summaryUrl := spreadsheetUrl doc;
            summarySheetCount := sheetCount doc;
            sheetNames := map describe (sheets doc);
            summaryMetadata :=
              {| created := createdTime doc;
                 modified := modifiedTime doc;
                 lastUser := lastModifyingUser doc |} |},
     this,
     tr ++ infoLine this (Text "Retrieving spreadsheet summary...")
        ++ infoLine this (Text "Extracted sheet ID from URL")
        ++ [EvLoadInfo sheetId]
        ++ infoLine this (Template "Spreadsheet loaded with "
                                   (sheetCount doc) " sheets")
        ++ infoLine this (Text "Successfully retrieved spreadsheet summary")).
Proof.
  intros Hauth Hurl Hdoc. unfold getSpreadsheetSummary.
  apply try_catch_ret.
  unfold bind at 1. unfold get_this. rewrite Hauth.
  run_until_loaded Hurl Hdoc.
  rewrite bind_ret
    with (1 := describe_loop doc _ _ (sheets doc) [] [] eq_refl).
  rewrite bind_ret with (1 := info_run _ _ _).
  rewrite <- !app_assoc. reflexivity.
Qed.

(** The data of a worksheet that exists and whose cells load: this is
    the path on which the cell grid is requested. *)
Lemma getSheetData_success url sheetName this tr a sheetId doc sheet :
  auth this = Some a ->
  first_match patterns url = Some sheetId ->
  remote sheetId a = inr doc ->
  sheetsByTitle doc sheetName = Own sheet ->
  cellsFailure sheet = None ->
  exists data,
    getSheetData remote url sheetName this tr
    = (Ret data, this,
       tr ++ infoLine this (Text "Retrieving specific sheet data...")
          ++ infoLine this (Text "Extracted sheet ID from URL")
          ++ [EvLoadInfo sheetId]
          ++ infoLine this (Template "Spreadsheet loaded with "
                                     (sheetCount doc) " sheets")
          ++ [EvLoadCells (title sheet)]
          ++ infoLine this (Text "Successfully retrieved specific sheet data"))
    /\ dataCells data = cells (extractCellData sheet)
    /\ spreadsheetId data = sheetId.
Proof.
  intros Hauth Hurl Hdoc Hsheet Hcells. eexists. split.
  - unfold getSheetData. apply try_catch_ret.
    unfold bind at 1. unfold get_this. rewrite Hauth.
    run_until_loaded Hurl Hdoc. rewrite Hsheet.
    unfold loadCells. rewrite Hcells.
    unfold bind, emit, ret. rewrite info_run.
    rewrite <- !app_assoc. reflexivity.
  - split; reflexivity.
Qed.
End RetrievalClaims.

Lemma uninitialized_guard_witness :
  getSpreadsheetSummary sampleRemote sampleUrl freshService []
  = (Throw SummaryFailed, freshService,
     [EvConsole "error" (Text "Error retrieving spreadsheet summary:")
                [NotInitialized]])
  /\ getSheetData sampleRemote sampleUrl (lit "Sheet1") freshService []
     = (Throw SheetDataFailed, freshService,
        [EvConsole "error" (Text "Error retrieving sheet data:")
                   [NotInitialized]]).
Proof.
  destruct (@uninitialized_guard sampleRemote sampleUrl (lit "Sheet1")
                                 freshService [] eq_refl) as (Hs & Hd & _).
  split; [exact Hs | exact Hd].
Defined.

Lemma sampleDoc_has_no_such_sheet :
  forall s, In s (sheets sampleDoc) -> title s <> lit "NoSuchSheet".
Proof. intros s [<- | []]. discriminate. Qed.

Lemma sampleUrl_resolves :
  first_match patterns sampleUrl
  = Some (lit "1BxiMVs0XRA5nFMdKvBdBZjgmUUqptlbs74OgvE2upms").
Proof. vm_compute. reflexivity. Qed.

(** C7, as stated, fails: the sample document has no worksheet
    "NoSuchSheet", and what the caller receives is not the sheet-not-found
    error. *)
Lemma worksheet_not_found_counterexample :
  ~ (forall remote url sheetName this tr a sheetId doc,
        auth this = Some a ->
        first_match patterns url = Some sheetId ->
        remote sheetId a = inr doc ->
        (forall s, In s (sheets doc) -> title s <> sheetName) ->
        fst (fst (getSheetData remote url sheetName this tr))
        = Throw SheetNotFound).
Proof.
  intros claim.
  specialize (claim sampleRemote sampleUrl (lit "NoSuchSheet") sampleService []
                    sampleJWT _ sampleDoc eq_refl sampleUrl_resolves eq_refl
                    sampleDoc_has_no_such_sheet).
  vm_compute in claim. discriminate.
Qed.

Lemma worksheet_not_found_witness :
  getSheetData sampleRemote sampleUrl (lit "NoSuchSheet") sampleService []
  = (Throw SheetDataFailed, sampleService,
     [EvConsole "info" (Text "Retrieving specific sheet data...") [];
      EvConsole "info" (Text "Extracted sheet ID from URL") [];
      EvLoadInfo (lit "1BxiMVs0XRA5nFMdKvBdBZjgmUUqptlbs74OgvE2upms");
      EvConsole "info" (Template "Spreadsheet loaded with " 1 " sheets") [];
      EvConsole "error" (Text "Error retrieving sheet data:") [SheetNotFound]]).
Proof.
  exact (proj1 (@worksheet_not_found
                  sampleRemote sampleUrl (lit "NoSuchSheet") sampleService []
                  sampleJWT _ sampleDoc eq_refl sampleUrl_resolves eq_refl
                  sampleDoc_has_no_such_sheet)).
Defined.

(** The sample worksheet, fetched by name: this path does request the
    cell grid, once, after the document metadata. *)
Example sampleSheet_fetched :
  exists data,
    getSheetData sampleRemote sampleUrl (lit "Sheet1") sampleService []
    = (Ret data, sampleService,
       [EvConsole "info" (Text "Retrieving specific sheet data...") [];
        EvConsole "info" (Text "Extracted sheet ID from URL") [];
        EvLoadInfo (lit "1BxiMVs0XRA5nFMdKvBdBZjgmUUqptlbs74OgvE2upms");
        EvConsole "info" (Template "Spreadsheet loaded with " 1 " sheets") [];
        EvLoadCells (lit "Sheet1");
        EvConsole "info" (Text "Successfully retrieved specific sheet data") []])
    /\ map CellData.pos (dataCells data) = [(1, 1); (1, 3); (1, 4)].
Proof. eexists. split; vm_compute; reflexivity. Qed.

(* ------------------------------------------------------------------------- *)
(** ** The identifier resolver, read backwards *)

Section ResolverConverse.

Lemma idRun_split s :
  exists suffix,
    s = idRun s ++ suffix
    /\ forallb isIdChar (idRun s) = true
    /\ delimited suffix = true.
Proof.
  induction s as [|c s (suffix & Hs & Hall & Hd)].
  - exists []. repeat split.
  - cbn [idRun]. destruct (isIdChar c) eqn:Hc.
    + exists suffix. cbn [app forallb]. rewrite Hc, Hall. repeat split.
      * f_equal. exact Hs.
      * exact Hd.
    + exists (c :: s). cbn [app forallb delimited]. rewrite Hc. repeat split.
Qed.

Lemma candidateHere_idRun marker url :
  candidateHere marker url = false <->
  match strip_prefix marker url with
  | Some rest => idRun rest
  | None => []
  end = [].
Proof.
  split; [apply no_candidate_here|].
  unfold candidateHere.
  destruct (strip_prefix marker url) as [[|c rest]|]; try reflexivity.
  cbn [idRun]. destruct (isIdChar c); [discriminate | reflexivity].
Qed.

(** What the search of one marker returns is a delimited identifier that
    stands behind the leftmost place where the marker is followed by an
    identifier character. *)
Lemma findId_sound marker url x :
  findId marker url = Some x ->
  exists prefix suffix,
    url = prefix ++ marker ++ x ++ suffix
    /\ isId x = true
    /\ delimited suffix = true
    /\ noCandidateBefore marker url (List.length prefix) = true.
Proof.
  induction url as [|c url IH]; cbn [findId].
  - destruct (strip_prefix marker []) as [rest|] eqn:E; [|discriminate].
    destruct (idRun rest) as [|d r] eqn:Er; [discriminate|].
    intros [= <-]. apply strip_prefix_inv in E.
    destruct (idRun_split rest) as (suffix & Hs & Hall & Hd).
    rewrite Er in Hs, Hall. exists [], suffix.
    cbn [app List.length noCandidateBefore].
    repeat split; try assumption. rewrite E, Hs. reflexivity.
  - destruct (match strip_prefix marker (c :: url) with
              | Some rest => idRun rest
              | None => []
              end) as [|d r] eqn:Eh.
    + intros H. destruct (IH H) as (prefix & suffix & Hu & Hx & Hd & Hno).
      exists (c :: prefix), suffix. cbn [app List.length noCandidateBefore].
      repeat split; try assumption.
      * f_equal. exact Hu.
      * apply andb_true_iff. split; [|exact Hno].
        apply negb_true_iff, candidateHere_idRun. exact Eh.
    + intros [= <-].
      destruct (strip_prefix marker (c :: url)) as [rest|] eqn:E; [|discriminate].
      apply strip_prefix_inv in E.
      destruct (idRun_split rest) as (suffix & Hs & Hall & Hd).
      rewrite Eh in Hs, Hall. exists [], suffix.
      cbn [app List.length noCandidateBefore].
      repeat split; try assumption. rewrite E, Hs. reflexivity.
Qed.

Lemma findId_none_inv marker url :
  findId marker url = None -> noCandidate marker url = true.
Proof.
  unfold noCandidate. induction url as [|c url IH]; cbn [findId]; intros H.
  - cbn [List.length noCandidateBefore]. rewrite andb_true_r.
    apply negb_true_iff, candidateHere_idRun.
    destruct (match strip_prefix marker [] with
              | Some rest => idRun rest
              | None => []
              end); [reflexivity | discriminate].
  - destruct (match strip_prefix marker (c :: url) with
              | Some rest => idRun rest
              | None => []
              end) eqn:Eh; [|discriminate].
    cbn [List.length]. remember (S (List.length url)) as n.
    cbn [noCandidateBefore]. subst n. apply andb_true_iff. split.
    + apply negb_true_iff, candidateHere_idRun. exact Eh.
    + exact (IH H).
Qed.

Lemma firstId_sound url x : forall ms,
  firstId ms url = Some x ->
  exists k marker,
    nth_error ms k = Some marker
    /\ forallb (fun m => noCandidate m url) (firstn k ms) = true
    /\ findId marker url = Some x.
Proof.
  induction ms as [|m ms IH]; cbn [firstId]; [discriminate|].
  destruct (findId m url) as [y|] eqn:E.
  - intros [= <-]. exists 0, m. repeat split. exact E.
  - intros H. destruct (IH H) as (k & marker & Hk & Hno & Hhit).
    exists (S k), marker. cbn [nth_error firstn forallb].
    rewrite (findId_none_inv _ _ E). repeat split; assumption.
Qed.

Lemma firstId_none_iff url : forall ms,
  firstId ms url = None <-> forallb (fun m => noCandidate m url) ms = true.
Proof.
  induction ms as [|m ms IH]; cbn [firstId forallb]; [tauto|].
  destruct (findId m url) as [y|] eqn:E.
  - split; [discriminate|]. intros H. apply andb_true_iff in H as [Hm _].
    rewrite (findId_none _ _ Hm) in E. discriminate.
  - rewrite (findId_none_inv _ _ E). exact IH.
Qed.

(** X1. Whatever [extractSheetIdFromUrl] returns is an identifier of the
    URL: a non-empty run of letters, digits, "-" and "_" that stands in the
    URL directly behind one of the three markers and is not continued by the
    next character; no marker of higher priority is followed by an identifier
    character anywhere, and the same marker by none further to the left.
    Returning changes neither the instance nor the trace. *)
Theorem resolve_sound
        (url x : jsstring) (this this' : GoogleSheetsService)
        (tr tr' : list event) :
  extractSheetIdFromUrl url this tr = (Ret x, this', tr') ->
  this' = this /\ tr' = tr
  /\ exists k marker prefix suffix,
       nth_error markers k = Some marker
       /\ url = prefix ++ marker ++ x ++ suffix
       /\ isId x = true
       /\ delimited suffix = true
       /\ forallb (fun m => noCandidate m url) (firstn k markers) = true
       /\ noCandidateBefore marker url (List.length prefix) = true.
Proof.
  intros H. destruct (firstId markers url) as [y|] eqn:E.
  - rewrite (extractSheetIdFromUrl_found _ _ _ E) in H.
    injection H as <- <- <-. repeat split.
    destruct (firstId_sound _ _ E) as (k & marker & Hk & Hno & Hhit).
    destruct (findId_sound _ _ Hhit) as (prefix & suffix & Hu & Hx & Hd & Hleft).
    exists k, marker, prefix, suffix. repeat split; assumption.
  - rewrite (extractSheetIdFromUrl_missing _ _ _ E) in H. discriminate.
Qed.

Lemma resolve_sound_witness :
  exists k marker prefix suffix,
    nth_error markers k = Some marker
    /\ lit "https://host/d/abc?id=zzz"
       = prefix ++ marker ++ lit "abc" ++ suffix
    /\ delimited suffix = true.
Proof.
  destruct (@resolve_sound (lit "https://host/d/abc?id=zzz") (lit "abc")
                           sampleService sampleService [] [] eq_refl)
    as (_ & _ & k & marker & prefix & suffix & Hk & Hu & _ & Hd & _).
  exists k, marker, prefix, suffix. repeat split; assumption.
Defined.

(** X2. [extractSheetIdFromUrl] is decided by the markers alone: it
    returns the identifier behind the first marker, in priority order, that
    is followed by an identifier character somewhere in the URL, and it
    raises the invalid-format error (after printing the cause) exactly when
    none of the three markers is followed by an identifier character
    anywhere.  It never raises anything else, never changes the instance and
    never adds anything to the trace but that one console line. *)
Theorem resolve_decided
        (url : jsstring) (this : GoogleSheetsService) (tr : list event) :
  extractSheetIdFromUrl url this tr
  = match firstId markers url with
    | Some x => (Ret x, this, tr)
    | None =>
        (Throw InvalidUrlFormat, this,
         tr ++ errorLine this "Error extracting sheet ID from URL:"
                         CouldNotExtract)
    end
  /\ (firstId markers url = None
      <-> forallb (fun m => noCandidate m url) markers = true).
Proof.
  split; [|apply firstId_none_iff].
  destruct (firstId markers url) eqn:E.
  - apply extractSheetIdFromUrl_found, E.
  - apply extractSheetIdFromUrl_missing, E.
Qed.

End ResolverConverse.

(* ------------------------------------------------------------------------- *)
(** ** The retrieval methods, path by path *)

Lemma requests_app a b : requests (a ++ b) = requests a ++ requests b.
Proof. apply filter_app. Qed.

Lemma requests_infoLine this msg : requests (infoLine this msg) = [].
Proof. unfold infoLine. destruct (logsInfo this); reflexivity. Qed.

Lemma requests_errorLine this msg e : requests (errorLine this msg e) = [].
Proof. unfold errorLine. destruct (logsErrors this); reflexivity. Qed.

Ltac requests_simpl :=
  repeat (rewrite ?requests_app, ?requests_infoLine, ?requests_errorLine;
          cbn [requests filter isRequest app]).

Lemma sheetsByTitle_own doc sheetName sheet :
  sheetsByTitle doc sheetName = Own sheet ->
  In sheet (sheets doc) /\ title sheet = sheetName.
Proof.
  unfold sheetsByTitle. destruct (find _ _) as [s|] eqn:E.
  - intros [= <-]. apply find_some in E as [Hin Heq].
    split; [apply in_rev, Hin | apply str_eqb_eq, Heq].
  - destruct (existsb _ _); discriminate.
Qed.

(** Runs the body of either method up to the loaded document. *)
Ltac run_loaded remote Hurl Hdoc :=
  rewrite bind_ret with (1 := info_run _ _ _);
  rewrite bind_ret with (1 := @resolved_run _ _ _ _ Hurl);
  rewrite bind_ret with (1 := info_run _ _ _);
  rewrite bind_ret with (1 := @loadInfo_run remote _ _ _ _ _ Hdoc);
  rewrite bind_ret with (1 := info_run _ _ _).

Section RetrievalPaths.
Variable remote : Remote.

Lemma resolve_failed_run url this tr :
  first_match patterns url = None ->
  extractSheetIdFromUrl url this tr
  = (Throw InvalidUrlFormat, this,
     tr ++ errorLine this "Error extracting sheet ID from URL:" CouldNotExtract).
Proof.
  intros H. unfold extractSheetIdFromUrl.
  rewrite try_catch_throw with (e := CouldNotExtract) (this' := this) (tr' := tr).
  - apply handler_run.
  - rewrite H. reflexivity.
Qed.

Lemma loadInfo_failed_run sheetId a e this tr :
  remote sheetId a = inl e ->
  loadInfo remote sheetId a this tr = (Throw e, this, tr ++ [EvLoadInfo sheetId]).
Proof.
  intros H. unfold loadInfo, bind, emit. rewrite H. reflexivity.
Qed.

(** Every path of [getSpreadsheetSummary], with the trace it leaves. *)
Lemma getSpreadsheetSummary_paths url this tr :
  getSpreadsheetSummary remote url this tr
  = match auth this with
    | None =>
        (Throw SummaryFailed, this,
         tr ++ errorLine this "Error retrieving spreadsheet summary:" NotInitialized)
    | Some a =>
        match first_match patterns url with
        | None =>
            (Throw SummaryFailed, this,
             tr ++ infoLine this (Text "Retrieving spreadsheet summary...")
                ++ errorLine this "Error extracting sheet ID from URL:" CouldNotExtract
                ++ errorLine this "Error retrieving spreadsheet summary:" InvalidUrlFormat)
        | Some sheetId =>
            match remote sheetId a with
            | inl e =>
                (Throw SummaryFailed, this,
                 tr ++ infoLine this (Text "Retrieving spreadsheet summary...")
                    ++ infoLine this (Text "Extracted sheet ID from URL")
                    ++ [EvLoadInfo sheetId]
                    ++ errorLine this "Error retrieving spreadsheet summary:" e)
            | inr doc =>
                (Ret {| summaryId := sheetId;
                        summaryTitle := docTitle doc;
                        summaryUrl := spreadsheetUrl doc;
                        summarySheetCount := sheetCount doc;
                        sheetNames := map describe (sheets doc);
                        summaryMetadata :=
                          {| created := createdTime doc;
                             modified := modifiedTime doc;
                             lastUser := lastModifyingUser doc |} |},
                 this,
                 tr ++ infoLine this (Text "Retrieving spreadsheet summary...")
                    ++ infoLine this (Text "Extracted sheet ID from URL")
                    ++ [EvLoadInfo sheetId]
                    ++ infoLine this (Template "Spreadsheet loaded with "
                                               (sheetCount doc) " sheets")
                    ++ infoLine this (Text "Successfully retrieved spreadsheet summary"))
            end
        end
    end.
Proof.
  destruct (auth this) as [a|] eqn:Hauth.
  2:{ unfold getSpreadsheetSummary.
      rewrite try_catch_throw with (e := NotInitialized) (this' := this) (tr' := tr).
      - apply handler_run.
      - unfold bind, get_this. rewrite Hauth. reflexivity. }
  destruct (first_match patterns url) as [sheetId|] eqn:Hurl.
  2:{ unfold getSpreadsheetSummary.
      rewrite try_catch_throw
        with (e := InvalidUrlFormat) (this' := this)
             (tr' := tr ++ infoLine this (Text "Retrieving spreadsheet summary...")
                        ++ errorLine this "Error extracting sheet ID from URL:"
                                     CouldNotExtract).
      - rewrite handler_run, <- !app_assoc. reflexivity.
      - unfold bind at 1. unfold get_this. rewrite Hauth.
        rewrite bind_ret with (1 := info_run _ _ _).
        rewrite bind_throw with (1 := @resolve_failed_run _ _ _ Hurl).
        rewrite <- !app_assoc. reflexivity. }
  destruct (remote sheetId a) as [e|doc] eqn:Hdoc.
  - unfold getSpreadsheetSummary.
    rewrite try_catch_throw
      with (e := e) (this' := this)
           (tr' := tr ++ infoLine this (Text "Retrieving spreadsheet summary...")
                      ++ infoLine this (Text "Extracted sheet ID from URL")
                      ++ [EvLoadInfo sheetId]).
    + rewrite handler_run, <- !app_assoc. reflexivity.
    + unfold bind at 1. unfold get_this. rewrite Hauth.
      rewrite bind_ret with (1 := info_run _ _ _).
      rewrite bind_ret with (1 := @resolved_run _ _ _ _ Hurl).
      rewrite bind_ret with (1 := info_run _ _ _).
      rewrite bind_throw with (1 := @loadInfo_failed_run _ _ _ _ _ Hdoc).
      rewrite <- !app_assoc. reflexivity.
  - apply (getSpreadsheetSummary_success remote url this tr Hauth Hurl Hdoc).
Qed.


Lemma loadCells_failed_run sheet this tr e :
  cellsFailure sheet = Some e ->
  loadCells sheet this tr = (Throw e, this, tr ++ [EvLoadCells (title sheet)]).
Proof. intros H. unfold loadCells, bind, emit. rewrite H. reflexivity. Qed.

Lemma loadCells_ok_run sheet this tr :
  cellsFailure sheet = None ->
  loadCells sheet this tr = (Ret tt, this, tr ++ [EvLoadCells (title sheet)]).
Proof. intros H. unfold loadCells, bind, emit. rewrite H. reflexivity. Qed.

(** Every path of [getSheetData], with the trace it leaves. *)
Lemma getSheetData_paths url sheetName this tr :
  getSheetData remote url sheetName this tr
  = match auth this with
    | None =>
        (Throw SheetDataFailed, this,
         tr ++ errorLine this "Error retrieving sheet data:" NotInitialized)
    | Some a =>
        match first_match patterns url with
        | None =>
            (Throw SheetDataFailed, this,
             tr ++ infoLine this (Text "Retrieving specific sheet data...")
                ++ errorLine this "Error extracting sheet ID from URL:" CouldNotExtract
                ++ errorLine this "Error retrieving sheet data:" InvalidUrlFormat)
        | Some sheetId =>
            match remote sheetId a with
            | inl e =>
                (Throw SheetDataFailed, this,
                 tr ++ infoLine this (Text "Retrieving specific sheet data...")
                    ++ infoLine this (Text "Extracted sheet ID from URL")
                    ++ [EvLoadInfo sheetId]
                    ++ errorLine this "Error retrieving sheet data:" e)
            | inr doc =>
                match sheetsByTitle doc sheetName with
                | Absent =>
                    (Throw SheetDataFailed, this,
                     tr ++ loadedPrefix this sheetId doc
                        ++ errorLine this "Error retrieving sheet data:" SheetNotFound)
                | Inherited =>
                    (Throw SheetDataFailed, this,
                     tr ++ loadedPrefix this sheetId doc
                        ++ errorLine this "Error retrieving sheet data:" NotAFunction)
                | Own sheet =>
                    match cellsFailure sheet with
                    | Some e =>
                        (Throw SheetDataFailed, this,
                         tr ++ loadedPrefix this sheetId doc
                            ++ [EvLoadCells (title sheet)]
                            ++ errorLine this "Error retrieving sheet data:" e)
                    | None =>
                        (Ret {| spreadsheetId := sheetId;
                                spreadsheetTitle := docTitle doc;
                                dataUrl := spreadsheetUrl doc;
                                dataTitle := title sheet;
                                dataDimensions :=
                                  {| rows := rowCount sheet;
                                     columns := columnCount sheet |};
                                dataTimes :=
                                  {| created := createdTime doc;
                                     modified := modifiedTime doc;
                                     lastUser := lastModifyingUser doc |};
                                dataSheetIndex := index sheet;
                                dataGridProperties := gridProperties sheet;
                                dataCells := cells (extractCellData sheet) |},
                         this,
                         tr ++ loadedPrefix this sheetId doc
                            ++ [EvLoadCells (title sheet)]
                            ++ infoLine this
                                 (Text "Successfully retrieved specific sheet data"))
                    end
                end
            end
        end
    end.
Proof.
  destruct (auth this) as [a|] eqn:Hauth.
  2:{ unfold getSheetData.
      rewrite try_catch_throw with (e := NotInitialized) (this' := this) (tr' := tr).
      - apply handler_run.
      - unfold bind, get_this. rewrite Hauth. reflexivity. }
  destruct (first_match patterns url) as [sheetId|] eqn:Hurl.
  2:{ unfold getSheetData.
      rewrite try_catch_throw
        with (e := InvalidUrlFormat) (this' := this)
             (tr' := tr ++ infoLine this (Text "Retrieving specific sheet data...")
                        ++ errorLine this "Error extracting sheet ID from URL:"
                                     CouldNotExtract).
      - rewrite handler_run, <- !app_assoc. reflexivity.
      - unfold bind at 1. unfold get_this. rewrite Hauth.
        rewrite bind_ret with (1 := info_run _ _ _).
        rewrite bind_throw with (1 := @resolve_failed_run _ _ _ Hurl).
        rewrite <- !app_assoc. reflexivity. }
  destruct (remote sheetId a) as [e|doc] eqn:Hdoc.
  { unfold getSheetData.
    rewrite try_catch_throw
      with (e := e) (this' := this)
           (tr' := tr ++ infoLine this (Text "Retrieving specific sheet data...")
                      ++ infoLine this (Text "Extracted sheet ID from URL")
                      ++ [EvLoadInfo sheetId]).
    - rewrite handler_run, <- !app_assoc. reflexivity.
    - unfold bind at 1. unfold get_this. rewrite Hauth.
      rewrite bind_ret with (1 := info_run _ _ _).
      rewrite bind_ret with (1 := @resolved_run _ _ _ _ Hurl).
      rewrite bind_ret with (1 := info_run _ _ _).
      rewrite bind_throw with (1 := @loadInfo_failed_run _ _ _ _ _ Hdoc).
      rewrite <- !app_assoc. reflexivity. }
  destruct (sheetsByTitle doc sheetName) as [sheet| |] eqn:Hsheet.
  - destruct (cellsFailure sheet) as [e|] eqn:Hcells.
    + unfold getSheetData.
      rewrite try_catch_throw
        with (e := e) (this' := this)
             (tr' := tr ++ loadedPrefix this sheetId doc ++ [EvLoadCells (title sheet)]).
      * rewrite handler_run, <- !app_assoc. reflexivity.
      * unfold bind at 1. unfold get_this. rewrite Hauth.
        run_loaded remote Hurl Hdoc. rewrite Hsheet.
        rewrite bind_throw with (1 := loadCells_failed_run _ _ _ Hcells).
        unfold loadedPrefix. rewrite <- !app_assoc. reflexivity.
    + unfold getSheetData. apply try_catch_ret.
      unfold bind at 1. unfold get_this. rewrite Hauth.
      run_loaded remote Hurl Hdoc. rewrite Hsheet.
      rewrite bind_ret with (1 := loadCells_ok_run _ _ _ Hcells).
      rewrite bind_ret with (1 := info_run _ _ _).
      unfold loadedPrefix. rewrite <- !app_assoc. reflexivity.
  - unfold getSheetData.
    rewrite try_catch_throw
      with (e := NotAFunction) (this' := this)
           (tr' := tr ++ loadedPrefix this sheetId doc).
    + rewrite handler_run, <- app_assoc. reflexivity.
    + unfold bind at 1. unfold get_this. rewrite Hauth.
      run_loaded remote Hurl Hdoc. rewrite Hsheet.
      unfold loadedPrefix. rewrite <- !app_assoc. reflexivity.
  - unfold getSheetData.
    rewrite try_catch_throw
      with (e := SheetNotFound) (this' := this)
           (tr' := tr ++ loadedPrefix this sheetId doc).
    + rewrite handler_run, <- app_assoc. reflexivity.
    + unfold bind at 1. unfold get_this. rewrite Hauth.
      run_loaded remote Hurl Hdoc. rewrite Hsheet.
      unfold loadedPrefix. rewrite <- !app_assoc. reflexivity.
Qed.

End RetrievalPaths.

Lemma requests_loadedPrefix this sheetId doc :
  requests (loadedPrefix this sheetId doc) = [EvLoadInfo sheetId].
Proof. unfold loadedPrefix. requests_simpl. reflexivity. Qed.

Lemma NoDup_map_inj {A B} (f : A -> B) l a b :
  NoDup (map f l) -> In a l -> In b l -> f a = f b -> a = b.
Proof.
  induction l as [|x l IH]; intros Hnd Ha Hb Hf; [destruct Ha|].
  cbn [map] in Hnd. inversion Hnd as [|? ? Hx Hl]; subst.
  destruct Ha as [<- | Ha], Hb as [<- | Hb].
  - reflexivity.
  - exfalso. apply Hx. rewrite Hf. apply in_map, Hb.
  - exfalso. apply Hx. rewrite <- Hf. apply in_map, Ha.
  - apply IH; assumption.
Qed.

(** With distinct titles, looking a worksheet up by its title finds it. *)
Lemma sheetsByTitle_found doc sheet :
  NoDup (map title (sheets doc)) ->
  In sheet (sheets doc) ->
  sheetsByTitle doc (title sheet) = Own sheet.
Proof.
  intros Hnd Hin. unfold sheetsByTitle.
  destruct (find _ _) as [s|] eqn:E.
  - apply find_some in E as [Hs Heq]. apply in_rev in Hs.
    apply str_eqb_eq in Heq. f_equal.
    exact (NoDup_map_inj title _ _ _ Hnd Hs Hin Heq).
  - apply in_rev in Hin. pose proof (find_none _ _ E sheet Hin) as Hf.
    cbv beta in Hf. rewrite (proj2 (str_eqb_eq _ _) eq_refl) in Hf.
    discriminate.
Qed.

Section RetrievalExtras.
Variable remote : Remote.

(** X3. When the service is initialised, the URL resolves and the
    document loads, [getSpreadsheetSummary] returns a summary that carries
    the resolved identifier and lists every worksheet of the document, in
    index order, each with its title, index and declared dimensions; the
    sheet count it reports is the length of that list; and the only request
    it has made is the one [loadInfo]. *)
Theorem summary_lists_every_sheet
        (url : jsstring) (this : GoogleSheetsService) (tr : list event)
        (a : JWT) (sheetId : jsstring) (doc : Spreadsheet) :
  auth this = Some a ->
  first_match patterns url = Some sheetId ->
  remote sheetId a = inr doc ->
  exists summary new,
    getSpreadsheetSummary remote url this tr = (Ret summary, this, tr ++ new)
    /\ summaryId summary = sheetId
    /\ sheetNames summary = map describe (sheets doc)
    /\ summarySheetCount summary = List.length (sheetNames summary)
    /\ requests new = [EvLoadInfo sheetId].
Proof.
  intros Hauth Hurl Hdoc. rewrite getSpreadsheetSummary_paths, Hauth, Hurl, Hdoc.
  eexists. eexists. split; [reflexivity|].
  cbn [summaryId sheetNames summarySheetCount].
  repeat split.
  - unfold sheetCount. rewrite length_map. reflexivity.
  - requests_simpl. reflexivity.
Qed.

(** X4. On every path [getSpreadsheetSummary] either returns a summary or
    raises its one generic error, never the error of the step that failed;
    it leaves the instance as it was; it makes no request at all or exactly
    one [loadInfo], for the identifier the URL resolves to; and it returns a
    summary only after that request. *)
Theorem summary_outcomes
        (url : jsstring) (this : GoogleSheetsService) (tr : list event) :
  exists res new,
    getSpreadsheetSummary remote url this tr = (res, this, tr ++ new)
    /\ (res = Throw SummaryFailed \/ exists summary, res = Ret summary)
    /\ (requests new = []
        \/ exists sheetId, first_match patterns url = Some sheetId
                           /\ requests new = [EvLoadInfo sheetId])
    /\ (forall summary, res = Ret summary ->
                        requests new = [EvLoadInfo (summaryId summary)]).
Proof.
  rewrite getSpreadsheetSummary_paths.
  destruct (auth this) as [a|].
  2:{ eexists. eexists. split; [reflexivity|]. requests_simpl.
      repeat split; [left; reflexivity .. | discriminate]. }
  destruct (first_match patterns url) as [sheetId|].
  2:{ eexists. eexists. split; [reflexivity|]. requests_simpl.
      repeat split; [left; reflexivity .. | discriminate]. }
  destruct (remote sheetId a) as [e|doc].
  - eexists. eexists. split; [reflexivity|]. requests_simpl.
    split; [left; reflexivity|].
    split; [right; exists sheetId; split; reflexivity | discriminate].
  - eexists. eexists. split; [reflexivity|]. requests_simpl.
    split; [right; eexists; reflexivity|].
    split; [right; exists sheetId; split; reflexivity|].
    intros summary [= <-]. reflexivity.
Qed.

(** X5. When the service is initialised, the URL resolves, the document
    loads, its titles are distinct, and the named worksheet is one of them
    whose cells load, [getSheetData] returns the data of that worksheet: its
    title, its declared dimensions and the records [extractCellData] finds on
    it.  It has requested the document metadata first and then the cell grid
    of that one worksheet, and nothing else. *)
Theorem sheet_data_of_named_sheet
        (url : jsstring) (this : GoogleSheetsService) (tr : list event)
        (a : JWT) (sheetId : jsstring) (doc : Spreadsheet) (sheet : Worksheet) :
  auth this = Some a ->
  first_match patterns url = Some sheetId ->
  remote sheetId a = inr doc ->
  NoDup (map title (sheets doc)) ->
  In sheet (sheets doc) ->
  cellsFailure sheet = None ->
  exists data new,
    getSheetData remote url (title sheet) this tr = (Ret data, this, tr ++ new)
    /\ spreadsheetId data = sheetId
    /\ dataTitle data = title sheet
    /\ dataDimensions data
       = {| rows := rowCount sheet; columns := columnCount sheet |}
    /\ dataCells data = cells (extractCellData sheet)
    /\ requests new = [EvLoadInfo sheetId; EvLoadCells (title sheet)].
Proof.
  intros Hauth Hurl Hdoc Hnd Hin Hcells.
  rewrite getSheetData_paths, Hauth, Hurl, Hdoc.
  rewrite (sheetsByTitle_found _ _ Hnd Hin), Hcells.
  eexists. eexists. split; [reflexivity|].
  repeat split. requests_simpl. rewrite requests_loadedPrefix. reflexivity.
Qed.

(** X6. On every path [getSheetData] either returns sheet data or raises
    its one generic error; it leaves the instance as it was; the requests it
    makes are none, or one [loadInfo], or one [loadInfo] followed by one
    [loadCells] for the worksheet that was named: never a second cell grid,
    never the grid of another worksheet, never a grid before the metadata.
    It returns data only after both requests. *)
Theorem sheet_data_outcomes
        (url sheetName : jsstring) (this : GoogleSheetsService)
        (tr : list event) :
  exists res new,
    getSheetData remote url sheetName this tr = (res, this, tr ++ new)
    /\ (res = Throw SheetDataFailed \/ exists data, res = Ret data)
    /\ (requests new = []
        \/ exists sheetId,
             first_match patterns url = Some sheetId
             /\ (requests new = [EvLoadInfo sheetId]
                 \/ requests new = [EvLoadInfo sheetId; EvLoadCells sheetName]))
    /\ (forall data, res = Ret data ->
                     requests new = [EvLoadInfo (spreadsheetId data);
                                     EvLoadCells sheetName]).
Proof.
  rewrite getSheetData_paths.
  destruct (auth this) as [a|].
  2:{ eexists. eexists. split; [reflexivity|]. requests_simpl.
      repeat split; [left; reflexivity .. | discriminate]. }
  destruct (first_match patterns url) as [sheetId|].
  2:{ eexists. eexists. split; [reflexivity|]. requests_simpl.
      repeat split; [left; reflexivity .. | discriminate]. }
  destruct (remote sheetId a) as [e|doc].
  { eexists. eexists. split; [reflexivity|]. requests_simpl.
    split; [left; reflexivity|].
    split; [right; exists sheetId; split; [|left]; reflexivity | discriminate]. }
  destruct (sheetsByTitle doc sheetName) as [sheet| |] eqn:Hsheet.
  - apply sheetsByTitle_own in Hsheet as [_ Htitle].
    destruct (cellsFailure sheet) as [e|].
    + eexists. eexists. split; [reflexivity|].
      requests_simpl. rewrite requests_loadedPrefix, Htitle.
      split; [left; reflexivity|].
      split; [right; exists sheetId; split; [|right]; reflexivity | discriminate].
    + eexists. eexists. split; [reflexivity|].
      requests_simpl. rewrite requests_loadedPrefix, Htitle.
      split; [right; eexists; reflexivity|].
      split; [right; exists sheetId; split; [|right]; reflexivity|].
      intros data [= <-]. reflexivity.
  - eexists. eexists. split; [reflexivity|].
    requests_simpl. rewrite requests_loadedPrefix.
    split; [left; reflexivity|].
    split; [right; exists sheetId; split; [|left]; reflexivity | discriminate].
  - eexists. eexists. split; [reflexivity|].
    requests_simpl. rewrite requests_loadedPrefix.
    split; [left; reflexivity|].
    split; [right; exists sheetId; split; [|left]; reflexivity | discriminate].
Qed.

(** X7. When the cells of the named worksheet fail to load, [getSheetData]
    raises its generic error after having requested that grid; the error of
    the spreadsheet service is printed on the console (when errors are
    printed) and is not what the caller receives; no data is extracted. *)
Theorem sheet_data_cells_failure
        (url : jsstring) (this : GoogleSheetsService) (tr : list event)
        (a : JWT) (sheetId : jsstring) (doc : Spreadsheet) (sheet : Worksheet)
        (e : error) :
  auth this = Some a ->
  first_match patterns url = Some sheetId ->
  remote sheetId a = inr doc ->
  NoDup (map title (sheets doc)) ->
  In sheet (sheets doc) ->
  cellsFailure sheet = Some e ->
  getSheetData remote url (title sheet) this tr
  = (Throw SheetDataFailed, this,
     tr ++ loadedPrefix this sheetId doc
        ++ [EvLoadCells (title sheet)]
        ++ errorLine this "Error retrieving sheet data:" e).
Proof.
  intros Hauth Hurl Hdoc Hnd Hin Hcells.
  rewrite getSheetData_paths, Hauth, Hurl, Hdoc.
  rewrite (sheetsByTitle_found _ _ Hnd Hin), Hcells. reflexivity.
Qed.

(** X8. [initialize] makes the retrieval methods usable: whatever the
    instance was, after [initialize] it holds the handle built from its
    configuration (service-account e-mail, private key, the two scopes), its
    configuration and logger are untouched, running [initialize] again
    changes nothing, and a summary requested next, for a URL that resolves to
    a document that loads for that handle, is returned. *)
Theorem initialize_enables_retrieval
        (url : jsstring) (this : GoogleSheetsService) (tr : list event)
        (sheetId : jsstring) (doc : Spreadsheet) :
  first_match patterns url = Some sheetId ->
  remote sheetId (jwtOf this) = inr doc ->
  (exists new, initialize this tr = (Ret tt, initialized this, tr ++ new)
               /\ requests new = [])
  /\ initialized (initialized this) = initialized this
  /\ exists summary new,
       bind initialize (fun _ => getSpreadsheetSummary remote url) this tr
       = (Ret summary, initialized this, tr ++ new)
       /\ sheetNames summary = map describe (sheets doc)
       /\ requests new = [EvLoadInfo sheetId].
Proof.
  intros Hurl Hdoc.
  assert (Hinit : initialize this tr
                  = (Ret tt, initialized this,
                     tr ++ infoLine this
                             (Text "Google authentication configured with JWT and scopes"))).
  { rewrite initialize_run. unfold infoLine. reflexivity. }
  split; [|split].
  - eexists. split; [exact Hinit | apply requests_infoLine].
  - reflexivity.
  - rewrite bind_ret with (1 := Hinit).
    rewrite getSpreadsheetSummary_paths. cbn [initialized auth]. rewrite Hurl, Hdoc.
    eexists. eexists. split; [rewrite <- app_assoc; reflexivity|].
    split; [reflexivity|]. requests_simpl. reflexivity.
Qed.

End RetrievalExtras.

Lemma sampleDoc_titles : NoDup (map title (sheets twoSheetDoc)).
Proof.
  repeat constructor; simpl; intuition discriminate.
Qed.

Lemma summary_lists_every_sheet_witness :
  exists summary new,
    getSpreadsheetSummary twoSheetRemote sampleUrl sampleService []
    = (Ret summary, sampleService, [] ++ new)
    /\ map name (sheetNames summary) = [lit "Sheet1"; lit "Locked"].
Proof.
  destruct (@summary_lists_every_sheet twoSheetRemote sampleUrl sampleService []
              sampleJWT _ twoSheetDoc eq_refl sampleUrl_resolves eq_refl)
    as (summary & new & E & _ & Hnames & _).
  exists summary, new. split; [exact E|]. rewrite Hnames. reflexivity.
Defined.

Lemma sheet_data_of_named_sheet_witness :
  exists data new,
    getSheetData twoSheetRemote sampleUrl (lit "Sheet1") sampleService []
    = (Ret data, sampleService, [] ++ new)
    /\ map CellData.pos (dataCells data) = [(1, 1); (1, 3); (1, 4)].
Proof.
  destruct (@sheet_data_of_named_sheet twoSheetRemote sampleUrl sampleService []
              sampleJWT _ twoSheetDoc sampleSheet eq_refl sampleUrl_resolves
              eq_refl sampleDoc_titles (or_introl eq_refl) eq_refl)
    as (data & new & E & _ & _ & _ & Hcells & _).
  exists data, new. split; [exact E|]. rewrite Hcells. reflexivity.
Defined.

Lemma sheet_data_cells_failure_witness :
  fst (fst (getSheetData twoSheetRemote sampleUrl (lit "Locked") sampleService []))
  = Throw SheetDataFailed.
Proof.
  exact (f_equal (fun r => fst (fst r))
           (@sheet_data_cells_failure twoSheetRemote sampleUrl sampleService []
              sampleJWT _ twoSheetDoc lockedSheet quotaExceeded eq_refl
              sampleUrl_resolves eq_refl sampleDoc_titles
              (or_intror (or_introl eq_refl)) eq_refl)).
Defined.

Lemma initialize_enables_retrieval_witness :
  exists summary new,
    bind initialize (fun _ => getSpreadsheetSummary sampleRemote sampleUrl)
         freshService []
    = (Ret summary, sampleService, [] ++ new)
    /\ map name (sheetNames summary) = [lit "Sheet1"].
Proof.
  destruct (@initialize_enables_retrieval sampleRemote sampleUrl freshService []
              _ sampleDoc sampleUrl_resolves eq_refl)
    as (_ & _ & summary & new & E & Hnames & _).
  exists summary, new. split; [exact E|]. rewrite Hnames. reflexivity.
Defined.

(* ------------------------------------------------------------------------- *)
(** ** More on the cell extractor *)

Section CellExtras.
Local Open Scope string_scope.

Lemma length_visit cell row col : List.length (visit cell row col []) <= 1.
Proof. unfold visit. destruct (included cell); simpl; lia. Qed.

Lemma length_flat_map_le {A B} (f : A -> list B) n l :
  (forall x, List.length (f x) <= n) ->
  List.length (flat_map f l) <= List.length l * n.
Proof.
  intros Hf. induction l as [|x l IH]; simpl; [lia|].
  rewrite length_app. specialize (Hf x). lia.
Qed.

Lemma length_rowCells sheet row :
  List.length (rowCells sheet row) <= columnCount sheet.
Proof.
  unfold rowCells.
  pose proof (@length_flat_map_le _ _
                (fun col => visit (getCell sheet row col) row col []) 1
                (seq 0 (columnCount sheet))
                (fun col => length_visit _ row col)) as H.
  rewrite length_seq in H. lia.
Qed.

(** X9. Extraction stays inside the declared grid: every record sits at a
    1-based position between (1, 1) and (rowCount, columnCount), there are
    at most rowCount * columnCount records, a grid with no rows or no columns
    yields none, and the metadata repeat the worksheet's title and declared
    dimensions. *)
Theorem extraction_within_bounds (sheet : Worksheet) :
  (forall d, In d (cells (extractCellData sheet)) ->
             1 <= fst (CellData.pos d) <= rowCount sheet
             /\ 1 <= snd (CellData.pos d) <= columnCount sheet)
  /\ List.length (cells (extractCellData sheet))
     <= rowCount sheet * columnCount sheet
  /\ (rowCount sheet = 0 \/ columnCount sheet = 0 ->
      cells (extractCellData sheet) = [])
  /\ metadata (extractCellData sheet)
     = {| metaTitle := title sheet;
          dimensions := {| rows := rowCount sheet;
                           columns := columnCount sheet |} |}.
Proof.
  assert (Hlen : List.length (cells (extractCellData sheet))
                 <= rowCount sheet * columnCount sheet).
  { rewrite cells_rows.
    pose proof (@length_flat_map_le _ _ (rowCells sheet) (columnCount sheet)
                  (seq 0 (rowCount sheet)) (length_rowCells sheet)) as H.
    rewrite length_seq in H. exact H. }
  split; [|split; [exact Hlen | split; [|reflexivity]]].
  - intros d Hd. apply in_cells in Hd as (r & c & Hr & Hc & _ & ->).
    simpl. lia.
  - intros Hz. destruct (cells (extractCellData sheet)); [reflexivity|].
    simpl in Hlen. destruct Hz as [Hz | Hz]; rewrite Hz in Hlen; lia.
Qed.

(** X10. What a record holds: its raw value is the cell's and is never
    null, undefined or the empty string; a [fmt] field, when present, is the
    cell's non-empty display string and differs from the raw value; a
    [hyperlink] field, when present, is the cell's truthy hyperlink, and a
    cell whose hyperlink cannot be read yields a record without one; the
    type is the one [detectCellType] infers for the cell. *)
Theorem record_contents (sheet : Worksheet) (d : CellData.t) :
  In d (cells (extractCellData sheet)) ->
  exists row col,
    row < rowCount sheet /\ col < columnCount sheet
    /\ CellData.pos d = (row + 1, col + 1)
    /\ CellData.val d = value (getCell sheet row col)
    /\ nonEmpty (CellData.val d)
    /\ CellData.type d = detectCellType (getCell sheet row col)
    /\ (forall f, CellData.fmt d = Some f ->
                  f = formattedValue (getCell sheet row col)
                  /\ (exists s, f = DStr s /\ s <> [])
                  /\ display_val f <> CellData.val d)
    /\ (forall h, CellData.hyperlink d = Some h ->
                  Client.hyperlink (getCell sheet row col) = Some h
                  /\ truthy h = true)
    /\ (Client.hyperlink (getCell sheet row col) = None ->
        CellData.hyperlink d = None).
Proof.
  intros Hd. apply in_cells in Hd as (r & c & Hr & Hc & Hin & ->).
  exists r, c. set (cell := getCell sheet r c) in *.
  pose proof (proj1 (included_nonEmpty cell) Hin) as [Hval _].
  split; [exact Hr|]. split; [exact Hc|].
  split; [reflexivity|]. split; [reflexivity|].
  split; [exact Hval|]. split; [reflexivity|].
  split; [|split].
  - intros f Hf. rewrite (fmt_included cell r c Hin) in Hf.
    destruct (strict_eq (display_val (formattedValue cell)) (value cell)) eqn:E;
      [discriminate|].
    injection Hf as <-. split; [reflexivity|]. split.
    + destruct (included_display cell Hin) as (s & Hs & Hne).
      exists s. split; assumption.
    + apply strict_eq_neq, E.
  - intros h Hh. cbn [cellData CellData.hyperlink] in Hh.
    destruct (Client.hyperlink cell) as [h'|]; [|discriminate].
    destruct (truthy h') eqn:E; [|discriminate].
    injection Hh as <-. split; [reflexivity | exact E].
  - intros Hnone. cbn [cellData CellData.hyperlink]. rewrite Hnone. reflexivity.
Qed.

Lemma record_contents_witness :
  exists row col,
    CellData.pos (cellData (plainCell (JNum 5) (DStr (lit "5.00"))) 0 3)
    = (row + 1, col + 1)
    /\ row < 1 /\ col < 4.
Proof.
  destruct (@record_contents sampleSheet
              (cellData (plainCell (JNum 5) (DStr (lit "5.00"))) 0 3)
              (or_intror (or_intror (or_introl eq_refl))))
    as (row & col & Hr & Hc & Hp & _).
  exists row, col. repeat split; assumption.
Defined.


Lemma nth_error_flat_map_uniform {A B} (f : A -> list B) n : forall l,
  (forall x, In x l -> List.length (f x) = n) ->
  forall i j, j < n ->
    nth_error (flat_map f l) (i * n + j)
    = match nth_error l i with
      | Some x => nth_error (f x) j
      | None => None
      end.
Proof.
  induction l as [|x l IH]; intros Hlen i j Hj.
  - cbn [flat_map]. rewrite !nth_error_nil. reflexivity.
  - cbn [flat_map]. destruct i as [|i].
    + cbn [Nat.mul Nat.add nth_error]. apply nth_error_app1.
      rewrite (Hlen x (or_introl eq_refl)). exact Hj.
    + cbn [nth_error]. rewrite nth_error_app2
        by (rewrite (Hlen x (or_introl eq_refl)); simpl; lia).
      rewrite (Hlen x (or_introl eq_refl)).
      replace (S i * n + j - n) with (i * n + j) by (simpl; lia).
      apply IH; [|exact Hj]. intros y Hy. apply Hlen. right. exact Hy.
Qed.

Lemma rowCells_full sheet row :
  (forall col, col < columnCount sheet ->
               included (getCell sheet row col) = true) ->
  rowCells sheet row
  = map (fun col => cellData (getCell sheet row col) row col)
        (seq 0 (columnCount sheet)).
Proof.
  intros Hall. unfold rowCells.
  assert (H : forall l, (forall col, In col l -> col < columnCount sheet) ->
            flat_map (fun col => visit (getCell sheet row col) row col []) l
            = map (fun col => cellData (getCell sheet row col) row col) l).
  { induction l as [|c l IH]; intros Hl; [reflexivity|].
    cbn [flat_map map]. unfold visit at 1.
    rewrite (Hall c (Hl c (or_introl eq_refl))). cbn [app]. f_equal.
    apply IH. intros col Hcol. apply Hl. right. exact Hcol. }
  apply H. intros col Hcol. apply in_seq in Hcol. lia.
Qed.

(** X11. A fully populated grid comes out whole and in place: when every
    cell inside the declared bounds has a non-empty raw value and a non-empty
    display, the list has exactly rowCount * columnCount records, and the
    record of the cell at zero-based (row, col) is the one at index
    row * columnCount + col. *)
Theorem full_grid_layout (sheet : Worksheet) :
  (forall row col,
      row < rowCount sheet -> col < columnCount sheet ->
      included (getCell sheet row col) = true) ->
  List.length (cells (extractCellData sheet))
  = rowCount sheet * columnCount sheet
  /\ forall row col,
       row < rowCount sheet -> col < columnCount sheet ->
       nth_error (cells (extractCellData sheet)) (row * columnCount sheet + col)
       = Some (cellData (getCell sheet row col) row col).
Proof.
  intros Hall.
  assert (Hrow : forall row, In row (seq 0 (rowCount sheet)) ->
                 rowCells sheet row
                 = map (fun col => cellData (getCell sheet row col) row col)
                       (seq 0 (columnCount sheet))).
  { intros row Hr. apply in_seq in Hr. apply rowCells_full.
    intros col Hc. apply Hall; [lia | exact Hc]. }
  assert (Hlen : forall row, In row (seq 0 (rowCount sheet)) ->
                 List.length (rowCells sheet row) = columnCount sheet).
  { intros row Hr. rewrite (Hrow row Hr), length_map, length_seq. reflexivity. }
  split.
  - rewrite cells_rows.
    assert (H : forall l, (forall row, In row l ->
                   List.length (rowCells sheet row) = columnCount sheet) ->
              List.length (flat_map (rowCells sheet) l)
              = List.length l * columnCount sheet).
    { induction l as [|r l IH]; intros Hl; [reflexivity|].
      cbn [flat_map List.length]. rewrite length_app, (Hl r (or_introl eq_refl)).
      rewrite IH by (intros row Hr; apply Hl; right; exact Hr). simpl. lia. }
    rewrite (H _ Hlen), length_seq. reflexivity.
  - intros row col Hr Hc. rewrite cells_rows.
    rewrite (nth_error_flat_map_uniform (rowCells sheet) _ Hlen row Hc).
    assert (Hnth : nth_error (seq 0 (rowCount sheet)) row = Some row).
    { rewrite nth_error_nth' with (d := 0) by (rewrite length_seq; exact Hr).
      rewrite seq_nth by exact Hr. reflexivity. }
    rewrite Hnth, Hrow by (apply in_seq; lia).
    rewrite nth_error_map.
    rewrite nth_error_nth' with (d := 0) by (rewrite length_seq; exact Hc).
    rewrite seq_nth by exact Hc. reflexivity.
Qed.

Lemma flat_map_agree {A B} (f g : A -> list B) l :
  (forall x, In x l -> f x = g x) -> flat_map f l = flat_map g l.
Proof.
  induction l as [|x l IH]; intros H; [reflexivity|].
  cbn [flat_map]. rewrite (H x (or_introl eq_refl)). f_equal.
  apply IH. intros y Hy. apply H. right. exact Hy.
Qed.

(** X12. Extraction reads the declared grid and nothing else: two
    worksheets with the same declared dimensions whose cells agree inside
    those bounds yield the same records, whatever lies outside. *)
Theorem extraction_reads_only_the_grid (s1 s2 : Worksheet) :
  rowCount s1 = rowCount s2 ->
  columnCount s1 = columnCount s2 ->
  (forall row col,
      row < rowCount s1 -> col < columnCount s1 ->
      getCell s1 row col = getCell s2 row col) ->
  cells (extractCellData s1) = cells (extractCellData s2).
Proof.
  intros Hr Hc Hcells. rewrite !cells_rows, <- Hr.
  apply flat_map_agree. intros row Hrow. apply in_seq in Hrow.
  unfold rowCells. rewrite <- Hc.
  apply flat_map_agree. intros col Hcol. apply in_seq in Hcol.
  rewrite Hcells by lia. reflexivity.
Qed.

(** X13. [detectCellType] answers with one of its six type names, and the
    name agrees with the kind of the raw value: "boolean" exactly for
    booleans; "percentage", "currency" and "number" only for numbers; a
    number is never a "string" and a string never a "number"; a value that is
    neither boolean, number nor string is a "string". *)
Theorem detectCellType_range (cell : Cell) :
  In (detectCellType cell)
     ["boolean"; "percentage"; "currency"; "date"; "number"; "string"]
  /\ (detectCellType cell = "boolean" <-> typeof (value cell) = TyBoolean)
  /\ (In (detectCellType cell) ["percentage"; "currency"; "number"] ->
      typeof (value cell) = TyNumber)
  /\ (typeof (value cell) = TyNumber -> detectCellType cell <> "string")
  /\ (typeof (value cell) = TyString ->
      In (detectCellType cell) ["date"; "string"])
  /\ (detectCellType cell = "date" ->
      typeof (value cell) = TyNumber \/ typeof (value cell) = TyString).
Proof.
  unfold detectCellType. destruct (value cell) as [| |b|z|s|o]; cbn [typeof].
  1,2,6: repeat split; cbn [In]; try tauto; try discriminate;
         intuition discriminate.
  - repeat split; cbn [In]; try tauto; try discriminate;
      intuition discriminate.
  - destruct (includes _ _); [|destruct (test _ _); [|destruct (test _ _)]];
      repeat split; cbn [In]; try tauto; try discriminate;
      intuition discriminate.
  - destruct (test _ _);
      repeat split; cbn [In]; try tauto; try discriminate;
      intuition discriminate.
Qed.

End CellExtras.

Lemma fullSheet_included :
  forall row col,
    row < rowCount fullSheet -> col < columnCount fullSheet ->
    included (getCell fullSheet row col) = true.
Proof. intros row col _ _. reflexivity. Qed.

Lemma full_grid_layout_witness :
  List.length (cells (extractCellData fullSheet)) = 6
  /\ nth_error (cells (extractCellData fullSheet)) 5
     = Some (cellData (getCell fullSheet 1 2) 1 2).
Proof.
  destruct (full_grid_layout fullSheet fullSheet_included) as [Hlen Hnth].
  split; [exact Hlen|].
  exact (Hnth 1 2 (le_n 2) (le_n 3)).
Defined.

Lemma extraction_reads_only_the_grid_witness :
  cells (extractCellData sampleSheet) = cells (extractCellData paddedSheet).
Proof.
  apply (@extraction_reads_only_the_grid sampleSheet paddedSheet eq_refl eq_refl).
  intros row col Hr Hc. simpl in Hr, Hc.
  destruct row as [|row]; [|lia].
  do 4 (destruct col as [|col]; [reflexivity|]). lia.
Defined.

(* ------------------------------------------------------------------------- *)
(** ** The logger *)

Section LoggerExtras.
Local Open Scope string_scope.





End LoggerExtras.

(* ------------------------------------------------------------------------- *)
(** ** The matcher finds exactly the instances of a pattern *)

Section MatcherCorrect.

Lemma rep_sound R a (k : jsstring -> option R) : forall s lo hi x,
  rep a lo hi s k = Some x ->
  exists w rest,
    s = w ++ rest
    /\ forallb (atom_matches a) w = true
    /\ lo <= List.length w
    /\ (forall h, hi = Some h -> List.length w <= h)
    /\ k rest = Some x.
Proof.
  induction s as [|c s IH]; intros lo hi x H.
  - cbn [rep] in H. destruct lo; [|discriminate].
    exists [], []. repeat split; [lia | intros; simpl; lia | exact H].
  - cbn [rep] in H.
    assert (Hstop : match lo with O => k (c :: s) | S _ => None end = Some x ->
                    exists w rest,
                      c :: s = w ++ rest
                      /\ forallb (atom_matches a) w = true
                      /\ lo <= List.length w
                      /\ (forall h, hi = Some h -> List.length w <= h)
                      /\ k rest = Some x).
    { intros Hs. destruct lo; [|discriminate].
      exists [], (c :: s). repeat split; [lia | intros; simpl; lia | exact Hs]. }
    destruct (may_take hi && atom_matches a c) eqn:Htake; [|exact (Hstop H)].
    apply andb_true_iff in Htake as [Hmay Hc].
    destruct (rep a (Nat.pred lo) (taken hi) s k) as [y|] eqn:Hrec;
      [|exact (Hstop H)].
    injection H as <-.
    destruct (IH _ _ _ Hrec) as (w & rest & Hs & Hall & Hlo & Hhi & Hk).
    exists (c :: w), rest. cbn [app forallb List.length]. rewrite Hc, Hall.
    repeat split.
    + f_equal. exact Hs.
    + lia.
    + intros h Hh. subst hi. destruct h as [|h]; [discriminate|].
      specialize (Hhi h eq_refl). lia.
    + exact Hk.
Qed.

Lemma rep_complete R a (k : jsstring -> option R) rest :
  k rest <> None ->
  forall w lo hi,
    forallb (atom_matches a) w = true ->
    lo <= List.length w ->
    (forall h, hi = Some h -> List.length w <= h) ->
    rep a lo hi (w ++ rest) k <> None.
Proof.
  intros Hk. induction w as [|c w IH]; intros lo hi Hall Hlo Hhi.
  - cbn [app]. simpl in Hlo. assert (lo = 0) by lia. subst lo.
    destruct rest as [|c rest']; cbn [rep]; [exact Hk|].
    destruct (may_take hi && atom_matches a c); [|exact Hk].
    destruct (rep a (Nat.pred 0) (taken hi) rest' k); [discriminate | exact Hk].
  - cbn [app rep]. cbn [forallb] in Hall.
    apply andb_true_iff in Hall as [Hc Hall]. cbn [List.length] in Hlo, Hhi.
    assert (Hmay : may_take hi = true).
    { destruct hi as [[|h]|]; try reflexivity.
      specialize (Hhi 0 eq_refl). lia. }
    rewrite Hmay, Hc. cbn [andb].
    assert (Hrec : rep a (Nat.pred lo) (taken hi) (w ++ rest) k <> None).
    { apply IH; [exact Hall | lia |].
      intros h Hh. destruct hi as [h'|]; [|discriminate].
      injection Hh as <-. specialize (Hhi h' eq_refl). lia. }
    destruct (rep a (Nat.pred lo) (taken hi) (w ++ rest) k) eqn:E;
      [discriminate | exfalso; apply Hrec; reflexivity].
Qed.

(** Whatever the matcher returns comes from an instance of the pattern at
    the start of the text, followed by a successful continuation. *)
Lemma run_sound R : forall r s caps (k : jsstring -> list jsstring -> option R) x,
  run r s caps k = Some x ->
  exists w rest caps',
    s = w ++ rest /\ Matches r w /\ k rest caps' = Some x.
Proof.
  induction r as [|a|a lo hi|r1 IH1 r2 IH2|r1 IH1 r2 IH2|r IH];
    intros s caps k x H; cbn [run] in H.
  - exists [], s, caps. repeat split; [constructor | exact H].
  - destruct s as [|c s]; [discriminate|].
    destruct (atom_matches a c) eqn:Hc; [|discriminate].
    exists [c], s, caps. repeat split; [constructor; exact Hc | exact H].
  - apply rep_sound in H as (w & rest & Hs & Hall & Hlo & Hhi & Hk).
    exists w, rest, caps. repeat split; [exact Hs | constructor; assumption | exact Hk].
  - apply IH1 in H as (w1 & rest1 & caps1 & Hs1 & Hm1 & Hk1).
    apply IH2 in Hk1 as (w2 & rest2 & caps2 & Hs2 & Hm2 & Hk2).
    exists (w1 ++ w2), rest2, caps2. repeat split.
    + rewrite Hs1, Hs2, app_assoc. reflexivity.
    + constructor; assumption.
    + exact Hk2.
  - destruct (run r1 s caps k) as [y|] eqn:E1.
    + injection H as <-. apply IH1 in E1 as (w & rest & caps' & Hs & Hm & Hk).
      exists w, rest, caps'. repeat split; [exact Hs | apply MAltL, Hm | exact Hk].
    + apply IH2 in H as (w & rest & caps' & Hs & Hm & Hk).
      exists w, rest, caps'. repeat split; [exact Hs | apply MAltR, Hm | exact Hk].
  - apply IH in H as (w & rest & caps' & Hs & Hm & Hk).
    eexists w, rest, _. repeat split; [exact Hs | apply MGrp, Hm | exact Hk].
Qed.

(** An instance of the pattern at the start of the text is found, whatever
    the order in which the matcher tries, if the continuation accepts what
    follows it. *)
Lemma run_complete R r w :
  Matches r w ->
  forall rest caps (k : jsstring -> list jsstring -> option R),
    (forall caps', k rest caps' <> None) ->
    run r (w ++ rest) caps k <> None.
Proof.
  induction 1 as [|a c Hc|a lo hi w Hall Hlo Hhi
                  |r1 r2 w1 w2 _ IH1 _ IH2|r1 r2 w _ IH|r1 r2 w _ IH|r w _ IH];
    intros rest caps k Hk; cbn [run].
  - apply Hk.
  - cbn [app]. rewrite Hc. apply Hk.
  - apply rep_complete; try assumption. apply Hk.
  - rewrite <- app_assoc. apply IH1. intros caps'. apply IH2, Hk.
  - specialize (IH rest caps k Hk).
    destruct (run r1 (w ++ rest) caps k) eqn:E;
      [discriminate | exfalso; apply IH; reflexivity].
  - destruct (run r1 (w ++ rest) caps k); [discriminate|]. apply IH, Hk.
  - apply IH. intros caps'. apply Hk.
Qed.

Lemma match_here_iff r s :
  match_here r s <> None <-> exists w rest, s = w ++ rest /\ Matches r w.
Proof.
  unfold match_here. split.
  - destruct (run r s [] _) as [x|] eqn:E;
      [|intros H; exfalso; apply H; reflexivity].
    intros _.
    apply run_sound in E as (w & rest & _ & Hs & Hm & _).
    exists w, rest. split; assumption.
  - intros (w & rest & -> & Hm). apply run_complete; [exact Hm|].
    intros caps'. discriminate.
Qed.

(** [test] answers whether the text contains an instance of the pattern. *)
Lemma test_iff r s : test r s = true <-> Contains r s.
Proof.
  unfold test, Contains. induction s as [|c s IH].
  - cbn [exec]. pose proof (match_here_iff r []) as Hh.
    destruct (match_here r []) as [m|].
    + split; [intros _ | reflexivity].
      destruct (proj1 Hh ltac:(discriminate)) as (w & rest & Hs & Hm).
      exists [], w, rest. split; assumption.
    + split; [discriminate|]. intros (before & w & after & Hs & Hm).
      exfalso. apply (proj2 Hh); [|reflexivity].
      destruct before; [|discriminate]. exists w, after. split; assumption.
  - cbn [exec]. pose proof (match_here_iff r (c :: s)) as Hh.
    destruct (match_here r (c :: s)) as [m|].
    + split; [intros _ | reflexivity].
      destruct (proj1 Hh ltac:(discriminate)) as (w & rest & Hs & Hm).
      exists [], w, rest. split; assumption.
    + rewrite IH. split.
      * intros (before & w & after & Hs & Hm).
        exists (c :: before), w, after. split; [cbn; f_equal; exact Hs | exact Hm].
      * intros (before & w & after & Hs & Hm).
        destruct before as [|b before].
        -- exfalso. apply (proj2 Hh); [|reflexivity].
           exists w, after. split; assumption.
        -- injection Hs as _ Hs. exists before, w, after. split; assumption.
Qed.

End MatcherCorrect.

(* ------------------------------------------------------------------------- *)
(** ** What the date patterns stand for *)

Section DatePatterns.
Local Open Scope string_scope.
Local Open Scope list_scope.

Lemma digit_matches c : atom_matches digit c = isDigit c.
Proof. unfold digit, isDigit. cbn. apply orb_false_r. Qed.

Lemma forallb_digit w : forallb (atom_matches digit) w = forallb isDigit w.
Proof.
  induction w as [|c w IH]; [reflexivity|].
  cbn [forallb]. rewrite digit_matches, IH. reflexivity.
Qed.

Lemma Matches_seq_inv r1 r2 w :
  Matches (Seq r1 r2) w ->
  exists w1 w2, w = w1 ++ w2 /\ Matches r1 w1 /\ Matches r2 w2.
Proof. inversion 1; subst. eexists; eexists; repeat split; eassumption. Qed.

Lemma Matches_chr_inv c w : Matches (One (Chr c)) w -> w = [c].
Proof.
  inversion 1 as [|a d Hd| | | | |]; subst. cbn in Hd.
  apply N.eqb_eq in Hd. subst. reflexivity.
Qed.

Lemma Matches_chr c : Matches (One (Chr c)) [c].
Proof. constructor. cbn. apply N.eqb_refl. Qed.

Lemma Matches_between_digit lo hi w :
  Matches (between digit lo hi) w <->
  digits w /\ lo <= List.length w <= hi.
Proof.
  unfold between, digits. split.
  - inversion 1 as [| |a lo' hi' w' Hall Hlo Hhi| | | |]; subst.
    rewrite forallb_digit in Hall. specialize (Hhi hi eq_refl).
    repeat split; assumption.
  - intros (Hall & Hlo & Hhi). constructor.
    + rewrite forallb_digit. exact Hall.
    + exact Hlo.
    + intros h [= <-]. exact Hhi.
Qed.

(** Five parts in a row: digits, separator, digits, separator, digits. *)
Lemma Matches_three_numbers sep a1 b1 a2 b2 a3 b3 w :
  Matches (Seq (between digit a1 b1)
               (Seq (One (Chr sep))
                    (Seq (between digit a2 b2)
                         (Seq (One (Chr sep)) (between digit a3 b3))))) w
  <-> exists d m y,
        w = d ++ [sep] ++ m ++ [sep] ++ y
        /\ digits d /\ digits m /\ digits y
        /\ a1 <= List.length d <= b1
        /\ a2 <= List.length m <= b2
        /\ a3 <= List.length y <= b3.
Proof.
  split.
  - intros H.
    apply Matches_seq_inv in H as (d & w1 & -> & Hd & H).
    apply Matches_seq_inv in H as (s1 & w2 & -> & Hs1 & H).
    apply Matches_seq_inv in H as (m & w3 & -> & Hm & H).
    apply Matches_seq_inv in H as (s2 & y & -> & Hs2 & Hy).
    apply Matches_chr_inv in Hs1, Hs2. subst s1 s2.
    apply Matches_between_digit in Hd as [Hd Hld], Hm as [Hm Hlm], Hy as [Hy Hly].
    exists d, m, y. repeat split; try assumption; lia.
  - intros (d & m & y & -> & Hd & Hm & Hy & Hld & Hlm & Hly).
    constructor; [apply Matches_between_digit; split; assumption|].
    constructor; [apply Matches_chr|].
    constructor; [apply Matches_between_digit; split; assumption|].
    constructor; [apply Matches_chr|].
    apply Matches_between_digit; split; assumption.
Qed.

Lemma Matches_dayMonthYear sep w :
  Matches (dayMonthYear sep) w <-> dayMonthYearText sep w.
Proof. apply Matches_three_numbers. Qed.

Lemma Contains_alt r1 r2 s :
  Contains (Alt r1 r2) s <-> Contains r1 s \/ Contains r2 s.
Proof.
  unfold Contains. split.
  - intros (b & w & a & Hs & Hm). inversion Hm; subst;
      [left | right]; exists b, w, a; split; trivial.
  - intros [(b & w & a & Hs & Hm) | (b & w & a & Hs & Hm)];
      exists b, w, a; split; trivial; [apply MAltL | apply MAltR]; exact Hm.
Qed.

Lemma Contains_displayDatePattern s :
  Contains displayDatePattern s <-> mentionsDate s.
Proof.
  unfold displayDatePattern, mentionsDate, dateText. rewrite Contains_alt.
  unfold Contains. split.
  - intros [(b & w & a & Hs & Hm) | (b & w & a & Hs & Hm)];
      apply Matches_dayMonthYear in Hm; exists b, w, a; tauto.
  - intros (b & w & a & Hs & [Hm | Hm]); apply Matches_dayMonthYear in Hm;
      [left | right]; exists b, w, a; tauto.
Qed.

(** An ISO date carries a day-month-year piece in its last eight
    characters. *)
Lemma Contains_isoDate s :
  Contains isoDate s -> Contains (dayMonthYear 45) s.
Proof.
  intros (b & w & a & -> & Hm). unfold isoDate in Hm.
  apply Matches_three_numbers in Hm
    as (y & m & d & -> & Hy & Hmo & Hd & Hly & Hlm & Hld).
  destruct y as [|y1 [|y2 [|y3 [|y4 [|? ?]]]]]; cbn [List.length] in Hly; try lia.
  exists (b ++ [y1; y2]), ([y3; y4] ++ [45%N] ++ m ++ [45%N] ++ d), a. split.
  - rewrite <- !app_assoc. reflexivity.
  - apply Matches_dayMonthYear. exists [y3; y4], m, d.
    unfold digits in *. cbn [forallb] in Hy.
    apply andb_true_iff in Hy as [_ Hy]. apply andb_true_iff in Hy as [_ Hy].
    repeat split; try assumption; cbn [List.length]; lia.
Qed.

Lemma Contains_datePattern s :
  Contains datePattern s <-> mentionsDate s.
Proof.
  rewrite <- Contains_displayDatePattern.
  unfold datePattern, displayDatePattern. rewrite !Contains_alt. split.
  - intros [H | [H | H]]; [left; exact H | right; exact H |].
    right. apply Contains_isoDate, H.
  - intros [H | H]; [left; exact H | right; left; exact H].
Qed.

Lemma mentionsDate_embedded before s after :
  mentionsDate s -> mentionsDate (before ++ s ++ after).
Proof.
  intros (b & w & a & -> & Hw).
  exists (before ++ b), w, (a ++ after). split; [|exact Hw].
  rewrite <- !app_assoc. reflexivity.
Qed.

(** X16. Dates are found anywhere in the text.  A string value is typed
    "date" exactly when it contains, at any place, a piece of the form
    digits-separator-digits-separator-digits with one or two, one or two and
    two to four digits and "/" or "-" as the separator; an ISO date is such a
    text through its last eight characters, so the ISO alternative of the
    string pattern never decides.  A longer text around a date stays a date.
    A numeric value is typed "date" exactly when its display has no "%", no
    currency symbol, and contains such a piece. *)
Theorem dates_anywhere (cell : Cell) :
  (forall s, value cell = JStr s ->
             (detectCellType cell = "date" <-> mentionsDate s)
             /\ (detectCellType cell <> "date" -> detectCellType cell = "string"))
  /\ (forall s before after f h,
         mentionsDate s ->
         detectCellType {| value := JStr (before ++ s ++ after);
                           formattedValue := f;
                           Client.hyperlink := h |} = "date")
  /\ (forall z, value cell = JNum z ->
                (detectCellType cell = "date"
                 <-> contains 37 (or_empty (formattedValue cell)) = false
                     /\ existsb isCurrencySymbol
                                (or_empty (formattedValue cell)) = false
                     /\ mentionsDate (or_empty (formattedValue cell))))
  /\ (forall s, test datePattern s = test displayDatePattern s).
Proof.
  assert (Hstr : forall s, test datePattern s = true <-> mentionsDate s)
    by (intros s; rewrite test_iff; apply Contains_datePattern).
  assert (Hnum : forall s, test displayDatePattern s = true <-> mentionsDate s)
    by (intros s; rewrite test_iff; apply Contains_displayDatePattern).
  split; [|split; [|split]].
  - intros s Hv. unfold detectCellType. rewrite Hv.
    destruct (test datePattern s) eqn:E.
    + split; [|intros Hn; exfalso; apply Hn; reflexivity].
      split; [intros _; apply Hstr, E | reflexivity].
    + split; [|reflexivity].
      split; [discriminate|]. intros Hm. apply Hstr in Hm. congruence.
  - intros s before after f h Hm. unfold detectCellType. cbn [value].
    rewrite (proj2 (Hstr _) (mentionsDate_embedded before after Hm)).
    reflexivity.
  - intros z Hv. unfold detectCellType. rewrite Hv. cbv zeta.
    change (lit "%") with [37%N]. rewrite includes_char, test_currency.
    destruct (contains 37 _); [split; [discriminate | intros [? _]; discriminate]|].
    destruct (existsb isCurrencySymbol _);
      [split; [discriminate | intros (_ & ? & _); discriminate]|].
    destruct (test displayDatePattern _) eqn:E.
    + split; [intros _ | reflexivity]. repeat split. apply Hnum, E.
    + split; [discriminate|]. intros (_ & _ & Hm). apply Hnum in Hm. congruence.
  - intros s. destruct (test displayDatePattern s) eqn:E.
    + apply Hstr, Hnum, E.
    + destruct (test datePattern s) eqn:E'; [|reflexivity].
      apply Hstr, Hnum in E'. congruence.
Qed.

Lemma dates_anywhere_witness :
  detectCellType (plainCell (JStr (lit "due 2024-01-15, 9am")) DNull) = "date"
  /\ detectCellType (plainCell (JStr (lit "ref 1-2-34567")) DNull) = "date".
Proof.
  destruct (dates_anywhere (plainCell JNull DNull)) as (_ & Hembed & _).
  split.
  - apply (Hembed (lit "24-01-15") (lit "due 20") (lit ", 9am")).
    exists [], (lit "24-01-15"), []. split; [reflexivity|]. right.
    exists (lit "24"), (lit "01"), (lit "15").
    repeat split; cbn; lia.
  - apply (Hembed (lit "1-2-3456") (lit "ref ") (lit "7")).
    exists [], (lit "1-2-3456"), []. split; [reflexivity|]. right.
    exists (lit "1"), (lit "2"), (lit "3456").
    repeat split; cbn; lia.
Defined.

End DatePatterns.
(* ------------------------------------------------------------------------- *)
(** ** columnToLetter *)

Section ColumnToLetter.
Local Open Scope Z_scope.

Lemma columnToLetterFrom_pos n acc :
  n > 0 ->
  columnToLetterFrom n acc =
  columnToLetterFrom ((n - 1) / 26)
                     (fromCharCode (65 + Z.rem (n - 1) 26) :: acc).
Proof.
  intros H. rewrite columnToLetterFrom_equation_1.
  destruct (Z_gt_dec n 0); simpl; [reflexivity | lia].
Qed.

Lemma columnToLetterFrom_nonpos n acc :
  n <= 0 -> columnToLetterFrom n acc = acc.
Proof.
  intros H. rewrite columnToLetterFrom_equation_1.
  destruct (Z_gt_dec n 0); simpl; [lia | reflexivity].
Qed.

(** The loop variable of one turn: smaller, and still non-negative. *)
Lemma loop_variable_decreases n :
  n > 0 -> 0 <= (n - 1) / 26 < n.
Proof.
  intros H. split.
  - apply Z.div_pos; lia.
  - apply Z.div_lt_upper_bound; lia.
Qed.

(** The character pushed by one turn is the letter of digit
    [(n - 1) mod 26 + 1]. *)
Lemma pushed_letter n :
  n > 0 ->
  exists d, 1 <= d <= 26 /\ n = (n - 1) / 26 * 26 + d /\
            fromCharCode (65 + Z.rem (n - 1) 26) = Z.to_N (64 + d).
Proof.
  intros H. exists ((n - 1) mod 26 + 1).
  assert (Hm : 0 <= (n - 1) mod 26 < 26) by (apply Z.mod_pos_bound; lia).
  assert (Hd := Z.div_mod (n - 1) 26 ltac:(lia)).
  rewrite Z.rem_mod_nonneg by lia.
  repeat split; try lia.
  unfold fromCharCode. rewrite Z.mod_small by lia. f_equal. lia.
Qed.

Lemma letterValue_snoc s c :
  letterValue (s ++ [c]) = letterValue s * 26 + (Z.of_N c - 64).
Proof. unfold letterValue. rewrite fold_left_app. reflexivity. Qed.

(** The accumulator is only ever prepended to. *)
Lemma columnToLetterFrom_acc n : forall acc,
  columnToLetterFrom n acc = columnToLetter n ++ acc.
Proof.
  induction (Z.lt_wf 0 n) as [n _ IH]. intros acc.
  destruct (Z_gt_dec n 0) as [Hp | Hn].
  - unfold columnToLetter.
    rewrite (columnToLetterFrom_pos [] Hp), (columnToLetterFrom_pos acc Hp).
    pose proof (loop_variable_decreases Hp) as Hd.
    rewrite (IH _ Hd (_ :: acc)), (IH _ Hd [_]).
    rewrite <- app_assoc. reflexivity.
  - unfold columnToLetter.
    rewrite !columnToLetterFrom_nonpos by lia. reflexivity.
Qed.

(** One turn of the loop, read on the result. *)
Lemma columnToLetter_step n :
  n > 0 ->
  columnToLetter n =
  columnToLetter ((n - 1) / 26) ++ [fromCharCode (65 + Z.rem (n - 1) 26)].
Proof.
  intros Hp. unfold columnToLetter at 1.
  rewrite (columnToLetterFrom_pos [] Hp). apply columnToLetterFrom_acc.
Qed.

Lemma columnToLetter_zero n : n <= 0 -> columnToLetter n = [].
Proof. intros H. apply columnToLetterFrom_nonpos, H. Qed.

Lemma columnToLetter_letters n :
  forallb isLetter (columnToLetter n) = true.
Proof.
  induction (Z.lt_wf 0 n) as [n _ IH].
  destruct (Z_gt_dec n 0) as [Hp | Hn].
  - rewrite (columnToLetter_step Hp), forallb_app.
    rewrite (IH _ (loop_variable_decreases Hp)). cbn [forallb andb].
    destruct (pushed_letter Hp) as (d & Hd & _ & ->).
    unfold isLetter. rewrite andb_true_r, andb_true_iff.
    split; apply N.leb_le; lia.
  - rewrite columnToLetter_zero by lia. reflexivity.
Qed.

Lemma columnToLetter_value n :
  0 <= n -> letterValue (columnToLetter n) = n.
Proof.
  induction (Z.lt_wf 0 n) as [n _ IH]. intros H0.
  destruct (Z_gt_dec n 0) as [Hp | Hn].
  - rewrite (columnToLetter_step Hp), letterValue_snoc.
    pose proof (loop_variable_decreases Hp) as Hd.
    rewrite (IH _ Hd) by lia.
    destruct (pushed_letter Hp) as (d & Hr & Heq & ->).
    rewrite Z2N.id by lia. lia.
  - rewrite columnToLetter_zero by lia. unfold letterValue. simpl. lia.
Qed.

Lemma letterValue_nonneg s :
  forallb isLetter s = true -> 0 <= letterValue s.
Proof.
  induction s as [|c s IH] using rev_ind; intros H.
  - unfold letterValue. simpl. lia.
  - rewrite forallb_app in H. apply andb_true_iff in H as [Hs Hc].
    simpl in Hc. rewrite andb_true_r in Hc. unfold isLetter in Hc.
    apply andb_true_iff in Hc as [Hl Hu].
    apply N.leb_le in Hl, Hu. rewrite letterValue_snoc.
    specialize (IH Hs). lia.
Qed.

(** No other string of letters denotes the same number. *)
Lemma columnToLetter_unique s :
  forallb isLetter s = true -> columnToLetter (letterValue s) = s.
Proof.
  induction s as [|c s IH] using rev_ind; intros H.
  - reflexivity.
  - rewrite forallb_app in H. apply andb_true_iff in H as [Hs Hc].
    pose proof (letterValue_nonneg s Hs) as Hv.
    simpl in Hc. rewrite andb_true_r in Hc. unfold isLetter in Hc.
    apply andb_true_iff in Hc as [Hl Hu].
    apply N.leb_le in Hl, Hu. rewrite letterValue_snoc.
    set (v := letterValue s) in *. set (d := Z.of_N c - 64).
    assert (Hd : 1 <= d <= 26) by (unfold d; lia).
    assert (Hq : (v * 26 + d - 1) / 26 = v).
    { replace (v * 26 + d - 1) with (d - 1 + v * 26) by lia.
      rewrite Z.div_add by lia. rewrite Z.div_small by lia. lia. }
    assert (Hm : Z.rem (v * 26 + d - 1) 26 = d - 1).
    { rewrite Z.rem_mod_nonneg by lia.
      replace (v * 26 + d - 1) with (d - 1 + v * 26) by lia.
      rewrite Z.mod_add by lia. apply Z.mod_small. lia. }
    rewrite columnToLetter_step by lia. rewrite Hq, Hm.
    rewrite (IH Hs). f_equal. f_equal.
    unfold fromCharCode. rewrite Z.mod_small by lia.
    unfold d. replace (65 + (Z.of_N c - 64 - 1)) with (Z.of_N c) by lia.
    apply N2Z.id.
Qed.

(** *** The loop on doubles *)

Lemma double_turn n acc :
  n > 0 ->
  Float64.columnToLetterFrom n acc =
  Float64.columnToLetterFrom
    (Float64.floorOfQuotient (Float64.decrement n) 26)
    (fromCharCode (65 + Z.rem (Float64.decrement n) 26) :: acc).
Proof.
  intros H. rewrite Float64.columnToLetterFrom_equation_1.
  destruct (Z_gt_dec n 0); simpl; [reflexivity | lia].
Qed.

Lemma double_exit n acc :
  n <= 0 -> Float64.columnToLetterFrom n acc = acc.
Proof.
  intros H. rewrite Float64.columnToLetterFrom_equation_1.
  destruct (Z_gt_dec n 0); simpl; [lia | reflexivity].
Qed.

(** The integers up to 2^53 are doubles. *)
Lemma round_safe z : z <= 2 ^ 53 -> Float64.round z = z.
Proof.
  intros H. unfold Float64.round.
  destruct (Z.ltb_spec z (2 ^ 53)) as [|Hge]; [reflexivity|].
  assert (z = 2 ^ 53) as -> by lia. reflexivity.
Qed.

(** On them the rounding of the quotient never reaches the next integer:
    the quotient ends in a fraction of at most 25/26, and a double of that
    size has at least four bits behind the point. *)
Lemma floorOfQuotient_safe x :
  0 <= x <= 2 ^ 53 -> Float64.floorOfQuotient x 26 = x / 26.
Proof.
  intros Hx. unfold Float64.floorOfQuotient.
  change (54 + Z.log2_up 26) with 59. change (59 + 1) with 60.
  destruct (Z.eq_dec x 0) as [->|Hx0]; [reflexivity|].
  pose proof (Z.div_mod x 26 ltac:(lia)) as Hdm.
  pose proof (Z.mod_pos_bound x 26 ltac:(lia)) as HR.
  assert (HQ : 0 <= x / 26) by (apply Z.div_pos; lia).
  set (Q := x / 26) in *. set (R := x mod 26) in *.
  pose proof (Z.mul_div_le (x * 2 ^ 59) 26 ltac:(lia)) as Hqhi.
  assert (Hqlo : Q * 2 ^ 59 <= x * 2 ^ 59 / 26).
  { apply Z.div_le_lower_bound; [lia|].
    change (2 ^ 59) with 576460752303423488. lia. }
  assert (Hq54 : 2 ^ 54 <= x * 2 ^ 59 / 26).
  { apply Z.div_le_lower_bound; [lia|].
    change (2 ^ 59) with 576460752303423488.
    change (2 ^ 54) with 18014398509481984. lia. }
  set (q := x * 2 ^ 59 / 26) in *.
  set (sticky := if x * 2 ^ 59 mod 26 =? 0 then 0 else 1).
  assert (Hs : 0 <= sticky <= 1) by (unfold sticky; destruct (_ =? _); lia).
  set (t := 2 * q + sticky).
  assert (Ht53 : 2 ^ 53 <= t).
  { unfold t. change (2 ^ 54) with 18014398509481984 in Hq54.
    change (2 ^ 53) with 9007199254740992. lia. }
  assert (Ht109 : t < 2 ^ 109).
  { unfold t. change (2 ^ 59) with 576460752303423488 in Hqhi.
    change (2 ^ 53) with 9007199254740992 in Hx.
    change (2 ^ 109) with 649037107316853453566312041152512. lia. }
  destruct (@Float64.round_bounds t Ht53) as (He1 & Hlo & Hhi).
  set (e := Z.log2 t - 52) in *.
  assert (He56 : e <= 56).
  { assert (Z.log2 t < 109) by (apply Z.log2_lt_pow2; lia). unfold e. lia. }
  assert (Hpe : 0 < 2 ^ e) by (apply Z.pow_pos_nonneg; lia).
  assert (Hsplit : 2 ^ 60 = 2 ^ (60 - e) * 2 ^ e).
  { rewrite <- Z.pow_add_r by lia. f_equal. lia. }
  assert (Hp60e : 0 < 2 ^ (60 - e)) by (apply Z.pow_pos_nonneg; lia).
  assert (Hhalf : 2 ^ (e - 1) <= 2 ^ 55) by (apply Z.pow_le_mono_r; lia).
  assert (Htlo : Q * 2 ^ 60 <= t).
  { unfold t. change (2 ^ 60) with (2 * 2 ^ 59). lia. }
  assert (Hm : Q * 2 ^ (60 - e) <= t / 2 ^ e).
  { apply Z.div_le_lower_bound; [lia|]. rewrite Hsplit in Htlo. lia. }
  assert (Hfloor : Q * 2 ^ 60 <= Float64.round t).
  { rewrite Hsplit. etransitivity; [|exact Hlo].
    rewrite Z.mul_assoc. apply Z.mul_le_mono_nonneg_r; lia. }
  assert (Hceil : Float64.round t < (Q + 1) * 2 ^ 60).
  { assert (Ht : t = 2 * q + sticky) by reflexivity.
    change (2 ^ 59) with 576460752303423488 in Hqhi.
    change (2 ^ 55) with 36028797018963968 in Hhalf.
    change (2 ^ 60) with 1152921504606846976. lia. }
  symmetry. apply Z.div_unique with (r := Float64.round t - Q * 2 ^ 60).
  - left. lia.
  - lia.
Qed.

(** Up to 2^53 the loop on doubles is the loop on integers. *)
Lemma columnToLetterFrom_safe n : forall acc,
  n <= 2 ^ 53 ->
  Float64.columnToLetterFrom n acc = columnToLetterFrom n acc.
Proof.
  induction (Z.lt_wf 0 n) as [n _ IH]. intros acc Hn.
  destruct (Z_gt_dec n 0) as [Hp | Hz].
  - rewrite (double_turn acc Hp), (columnToLetterFrom_pos acc Hp).
    unfold Float64.decrement. rewrite round_safe by lia.
    rewrite floorOfQuotient_safe by lia.
    pose proof (loop_variable_decreases Hp) as Hd.
    apply IH; lia.
  - rewrite double_exit, columnToLetterFrom_nonpos by lia. reflexivity.
Qed.

Lemma columnToLetter_safe n :
  n <= 2 ^ 53 -> Float64.columnToLetter n = columnToLetter n.
Proof. intros H. apply columnToLetterFrom_safe, H. Qed.

(** Whatever the number, the accumulator is only ever prepended to. *)
Lemma double_acc n : forall acc,
  Float64.columnToLetterFrom n acc = Float64.columnToLetter n ++ acc.
Proof.
  induction (Z.lt_wf 0 n) as [n _ IH]. intros acc.
  destruct (Z_gt_dec n 0) as [Hp | Hz].
  - unfold Float64.columnToLetter.
    rewrite (double_turn [] Hp), (double_turn acc Hp).
    pose proof (Float64.turn_decreases Hp) as Hd.
    rewrite (IH _ Hd (_ :: acc)), (IH _ Hd [_]).
    rewrite <- app_assoc. reflexivity.
  - unfold Float64.columnToLetter.
    rewrite !double_exit by lia. reflexivity.
Qed.

Lemma double_step n :
  n > 0 ->
  Float64.columnToLetter n =
  Float64.columnToLetter (Float64.floorOfQuotient (Float64.decrement n) 26)
  ++ [fromCharCode (65 + Z.rem (Float64.decrement n) 26)].
Proof.
  intros Hp. unfold Float64.columnToLetter at 1.
  rewrite (double_turn [] Hp). apply double_acc.
Qed.

Lemma double_letters n :
  forallb isLetter (Float64.columnToLetter n) = true.
Proof.
  induction (Z.lt_wf 0 n) as [n _ IH].
  destruct (Z_gt_dec n 0) as [Hp | Hz].
  - rewrite (double_step Hp), forallb_app.
    rewrite (IH _ (Float64.turn_decreases Hp)). cbn [forallb andb].
    pose proof (@Float64.round_nonneg (n - 1) ltac:(lia)) as Hy.
    unfold Float64.decrement. set (y := Float64.round (n - 1)) in *.
    rewrite Z.rem_mod_nonneg by lia.
    pose proof (Z.mod_pos_bound y 26 ltac:(lia)) as Hm.
    unfold fromCharCode. rewrite Z.mod_small by lia.
    unfold isLetter. rewrite andb_true_r, andb_true_iff.
    split; apply N.leb_le; lia.
  - unfold Float64.columnToLetter. rewrite double_exit by lia. reflexivity.
Qed.

(** Running the loop on a given number, turn by turn. *)
Lemma double_run_turn n acc s :
  n > 0 ->
  Float64.columnToLetterFrom
    (Float64.floorOfQuotient (Float64.decrement n) 26)
    (fromCharCode (65 + Z.rem (Float64.decrement n) 26) :: acc) = s ->
  Float64.columnToLetterFrom n acc = s.
Proof. intros Hp <-. apply double_turn, Hp. Qed.

Lemma double_run_exit n acc s :
  n <= 0 -> acc = s -> Float64.columnToLetterFrom n acc = s.
Proof. intros Hz <-. apply double_exit, Hz. Qed.

Ltac run_loop :=
  unfold Float64.columnToLetter;
  repeat (apply double_run_turn; [vm_compute; reflexivity|]);
  apply double_run_exit; [vm_compute; discriminate | vm_compute; reflexivity].

(** C10, as stated, fails: 10^17 is an integer a number holds, and one
    less is not; [colNum--] leaves it as it is, the last letter comes out
    one too far, and the string returned is the name of 10^17 + 1. *)
Lemma columnToLetter_total_counterexample :
  Float64.round (10 ^ 17) = 10 ^ 17
  /\ Float64.decrement (10 ^ 17) = 10 ^ 17
  /\ Float64.columnToLetter (10 ^ 17) = lit "AAFIWCKSEOVFE"
  /\ letterValue (Float64.columnToLetter (10 ^ 17)) = 10 ^ 17 + 1
  /\ ~ (forall colNum, 1 <= colNum ->
                       letterValue (Float64.columnToLetter colNum) = colNum).
Proof.
  assert (Hname : Float64.columnToLetter (10 ^ 17) = lit "AAFIWCKSEOVFE")
    by run_loop.
  assert (Hvalue : letterValue (Float64.columnToLetter (10 ^ 17)) = 10 ^ 17 + 1)
    by (rewrite Hname; vm_compute; reflexivity).
  split; [vm_compute; reflexivity|].
  split; [vm_compute; reflexivity|].
  split; [exact Hname|]. split; [exact Hvalue|].
  intros claim. specialize (claim (10 ^ 17) ltac:(lia)).
  rewrite Hvalue in claim. lia.
Qed.

(** C10, amended. For every integer [colNum >= 1] the loop of
    [columnToLetter] terminates, its variable strictly decreasing towards 0,
    and the result is a non-empty string of the letters A-Z.  For
    [colNum <= 2^53], where a number counts the integers one by one, every
    step of the loop is exact and the result is the bijective base-26 name of
    [colNum]: it denotes [colNum], and it is the only string of letters that
    does.  1 gives "A", 26 gives "Z" and 27 gives "AA". *)
Theorem columnToLetter_total :
  (forall colNum,
      1 <= colNum ->
      0 <= Float64.floorOfQuotient (Float64.decrement colNum) 26 < colNum
      /\ Float64.columnToLetter colNum <> []
      /\ forallb isLetter (Float64.columnToLetter colNum) = true)
  /\ (forall colNum,
         1 <= colNum <= 2 ^ 53 ->
         Float64.decrement colNum = colNum - 1
         /\ Float64.floorOfQuotient (colNum - 1) 26 = (colNum - 1) / 26
         /\ letterValue (Float64.columnToLetter colNum) = colNum
         /\ (forall s, forallb isLetter s = true -> letterValue s = colNum ->
                       s = Float64.columnToLetter colNum))
  /\ Float64.columnToLetter 1 = lit "A"
  /\ Float64.columnToLetter 26 = lit "Z"
  /\ Float64.columnToLetter 27 = lit "AA".
Proof.
  split; [|split].
  - intros colNum H.
    split; [apply Float64.turn_decreases; lia|].
    split; [|apply double_letters].
    rewrite double_step by lia.
    intros E. symmetry in E. exact (app_cons_not_nil _ _ _ E).
  - intros colNum H.
    split; [unfold Float64.decrement; apply round_safe; lia|].
    split; [apply floorOfQuotient_safe; lia|].
    rewrite columnToLetter_safe by lia.
    split; [apply columnToLetter_value; lia|].
    intros s Hs Hv. rewrite <- Hv. symmetry. apply columnToLetter_unique, Hs.
  - repeat split; rewrite columnToLetter_safe by (vm_compute; discriminate);
      reflexivity.
Qed.

Lemma columnToLetter_total_witness :
  1 <= 703 <= 2 ^ 53
  /\ Float64.columnToLetter 703 = lit "AAA"
  /\ letterValue (Float64.columnToLetter 703) = 703.
Proof.
  assert (H : 1 <= 703 <= 2 ^ 53) by (split; [lia | vm_compute; discriminate]).
  split; [exact H|].
  split; [rewrite columnToLetter_safe by apply H; reflexivity|].
  exact (proj1 (proj2 (proj2 (proj1 (proj2 columnToLetter_total) 703 H)))).
Defined.

End ColumnToLetter.
Section ColumnExtras.
Local Open Scope Z_scope.

(** X14. Column names digit by digit: a number that is not positive gives
    the empty string, and only such a number does.  Up to 2^53 the name of
    26 * q + r, for a digit r from 1 to 26, is the name of q followed by the
    r-th letter (so 1 to 26 give the single letters A to Z), and two
    different positive numbers never share a name.  The bound is needed:
    above 2^53 a number may stay as it is when decremented, and the doubles
    2^53 + 4 and 2^53 + 6 share a name. *)
Theorem columnToLetter_digits :
  (forall n, Float64.columnToLetter n = [] <-> n <= 0)
  /\ (forall q r, 0 <= q -> 1 <= r <= 26 -> 26 * q + r <= 2 ^ 53 ->
                  Float64.columnToLetter (26 * q + r)
                  = Float64.columnToLetter q ++ [Z.to_N (64 + r)])
  /\ (forall a b, 1 <= a <= 2 ^ 53 -> 1 <= b <= 2 ^ 53 ->
                  Float64.columnToLetter a = Float64.columnToLetter b -> a = b)
  /\ (Float64.round (2 ^ 53 + 4) = 2 ^ 53 + 4
      /\ Float64.round (2 ^ 53 + 6) = 2 ^ 53 + 6
      /\ Float64.columnToLetter (2 ^ 53 + 4) = Float64.columnToLetter (2 ^ 53 + 6)).
Proof.
  split; [|split; [|split]].
  - intros n. split.
    + intros E. destruct (Z_gt_dec n 0) as [Hp|]; [|lia].
      rewrite (double_step Hp) in E. symmetry in E.
      destruct (app_cons_not_nil _ _ _ E).
    + intros Hn. unfold Float64.columnToLetter. apply double_exit, Hn.
  - intros q r Hq Hr Hsafe.
    assert (Hdiv : (26 * q + r - 1) / 26 = q).
    { replace (26 * q + r - 1) with (r - 1 + q * 26) by lia.
      rewrite Z.div_add by lia. rewrite Z.div_small by lia. lia. }
    assert (Hrem : Z.rem (26 * q + r - 1) 26 = r - 1).
    { rewrite Z.rem_mod_nonneg by lia.
      replace (26 * q + r - 1) with (r - 1 + q * 26) by lia.
      rewrite Z.mod_add by lia. apply Z.mod_small. lia. }
    rewrite double_step by lia.
    unfold Float64.decrement. rewrite round_safe by lia.
    rewrite floorOfQuotient_safe by lia. rewrite Hdiv, Hrem.
    unfold fromCharCode. rewrite Z.mod_small by lia.
    do 3 f_equal. lia.
  - intros a b Ha Hb E.
    rewrite !columnToLetter_safe in E by lia.
    assert (Hva : letterValue (columnToLetter a) = a)
      by (apply columnToLetter_value; lia).
    assert (Hvb : letterValue (columnToLetter b) = b)
      by (apply columnToLetter_value; lia).
    rewrite <- Hva, <- Hvb, E. reflexivity.
  - split; [vm_compute; reflexivity|]. split; [vm_compute; reflexivity|].
    rewrite (@double_step (2 ^ 53 + 4)) by (vm_compute; reflexivity).
    rewrite (@double_step (2 ^ 53 + 6)) by (vm_compute; reflexivity).
    replace (Float64.decrement (2 ^ 53 + 6))
      with (Float64.decrement (2 ^ 53 + 4)) by (vm_compute; reflexivity).
    reflexivity.
Qed.

Lemma columnToLetter_digits_witness :
  Float64.columnToLetter 28 = Float64.columnToLetter 1 ++ lit "B"
  /\ (Float64.columnToLetter 0 = [] <-> 0 <= 0).
Proof.
  destruct columnToLetter_digits as (Hempty & Hdigit & _).
  split.
  - apply (Hdigit 1 2); [lia | lia | vm_compute; discriminate].
  - apply Hempty.
Defined.

End ColumnExtras.

(* ------------------------------------------------------------------------- *)
(** ** Cell addresses and the address-keyed extractor *)

Section Addresses.

Lemma lit_inj a b : lit a = lit b -> a = b.
Proof.
  revert b. induction a as [|x a IH]; intros [|y b] H; try discriminate.
  - reflexivity.
  - cbn [lit] in H. injection H as Hx Hr.
    apply (f_equal ascii_of_N) in Hx. rewrite !ascii_N_embedding in Hx.
    subst. f_equal. apply IH, Hr.
Qed.

Lemma natToString_inj n m : natToString n = natToString m -> n = m.
Proof.
  unfold natToString. intros H. apply lit_inj in H.
  apply (f_equal NilEmpty.uint_of_string) in H.
  rewrite !NilEmpty.usu in H. injection H as H.
  apply Unsigned.to_uint_inj, H.
Qed.

Lemma natToString_digits n : forallb isDigit (natToString n) = true.
Proof.
  unfold natToString. induction (Nat.to_uint n); cbn [NilEmpty.string_of_uint lit forallb];
    try reflexivity; rewrite IHu; reflexivity.
Qed.

Lemma letter_not_digit c : isLetter c = true -> isDigit c = false.
Proof.
  unfold isLetter, isDigit. intros H. apply andb_true_iff in H as [Hl _].
  apply N.leb_le in Hl. apply andb_false_iff. right. apply N.leb_gt. lia.
Qed.

(** Letters followed by digits split in one way only. *)
Lemma letters_digits_split : forall l1 l2 d1 d2,
  forallb isLetter l1 = true -> forallb isLetter l2 = true ->
  forallb isDigit d1 = true -> forallb isDigit d2 = true ->
  l1 ++ d1 = l2 ++ d2 -> l1 = l2 /\ d1 = d2.
Proof.
  induction l1 as [|c l1 IH]; intros [|c' l2] d1 d2 Hl1 Hl2 Hd1 Hd2 E;
    cbn [app forallb] in *.
  - split; [reflexivity | exact E].
  - exfalso. subst d1. cbn [forallb] in Hd1.
    apply andb_true_iff in Hd1 as [Hc _], Hl2 as [Hc' _].
    rewrite (letter_not_digit _ Hc') in Hc. discriminate.
  - exfalso. subst d2. cbn [forallb] in Hd2.
    apply andb_true_iff in Hd2 as [Hc' _], Hl1 as [Hc _].
    rewrite (letter_not_digit _ Hc) in Hc'. discriminate.
  - injection E as <- E.
    apply andb_true_iff in Hl1 as [_ Hl1], Hl2 as [_ Hl2].
    destruct (IH l2 d1 d2 Hl1 Hl2 Hd1 Hd2 E) as [-> ->]. split; reflexivity.
Qed.

Lemma cellAddress_inj r c r' c' :
  Legacy.cellAddress r c = Legacy.cellAddress r' c' -> r = r' /\ c = c'.
Proof.
  unfold Legacy.cellAddress. intros E.
  apply letters_digits_split in E as [Hl Hd];
    try apply columnToLetter_letters; try apply natToString_digits.
  apply natToString_inj in Hd.
  assert (Hv : forall n, letterValue (columnToLetter (Z.of_nat (n + 1)))
                         = Z.of_nat (n + 1))
    by (intros n; apply columnToLetter_value; lia).
  apply (f_equal letterValue) in Hl. rewrite !Hv in Hl. lia.
Qed.

Lemma entryBefore_keys a b : entryBefore a b -> fst a <> fst b.
Proof.
  intros ((r & c & Ha & Hr & Hc) & (r' & c' & Hb & Hr' & Hc') & Hlt) E.
  rewrite Ha, Hb in E. apply cellAddress_inj in E as [-> ->].
  unfold rowMajor in Hlt. cbn [fst snd] in Hlt. lia.
Qed.

End Addresses.

Section LegacyObject.
Context {V : Type}.

Lemma obj_set_fresh (o : object V) k v :
  ~ In k (map fst o) -> obj_set o k v = o ++ [(k, v)].
Proof.
  induction o as [|[k' v'] o IH]; intros Hk; [reflexivity|].
  cbn [obj_set app]. destruct (str_eqb k' k) eqn:E.
  - apply str_eqb_eq in E. exfalso. apply Hk. left. exact E.
  - f_equal. apply IH. intros Hin. apply Hk. right. exact Hin.
Qed.

(** Setting properties with distinct new names one after the other adds
    them in that order. *)
Lemma obj_set_all (l : list (jsstring * V)) : forall o,
  NoDup (map fst (o ++ l)) ->
  fold_left (fun o kv => obj_set o (fst kv) (snd kv)) l o = o ++ l.
Proof.
  induction l as [|[k v] l IH]; intros o Hnd; cbn [fold_left].
  - symmetry. apply app_nil_r.
  - cbn [fst snd]. rewrite obj_set_fresh.
    + rewrite IH; rewrite <- app_assoc; [reflexivity | exact Hnd].
    + rewrite map_app in Hnd. cbn [map fst] in Hnd.
      apply NoDup_remove_2 in Hnd. intros Hin. apply Hnd.
      apply in_or_app. left. exact Hin.
Qed.

Lemma obj_get_in (o : object V) k v :
  NoDup (map fst o) -> (obj_get o k = Some v <-> In (k, v) o).
Proof.
  induction o as [|[k' v'] o IH]; intros Hnd; cbn [obj_get In].
  - split; [discriminate | tauto].
  - cbn [map fst] in Hnd. inversion Hnd as [|? ? Hk Hrest]; subst.
    destruct (str_eqb k' k) eqn:E.
    + apply str_eqb_eq in E. subst k'. split.
      * intros [= <-]. left. reflexivity.
      * intros [[= <-] | Hin]; [reflexivity|].
        exfalso. apply Hk. apply (in_map fst) in Hin. exact Hin.
    + rewrite (IH Hrest). split; [tauto|].
      intros [[= -> _] | Hin]; [|exact Hin].
      rewrite (proj2 (str_eqb_eq k k) eq_refl) in E. discriminate.
Qed.

Lemma obj_get_none (o : object V) k :
  obj_get o k = None <-> ~ In k (map fst o).
Proof.
  induction o as [|[k' v'] o IH]; cbn [obj_get map fst In]; [tauto|].
  destruct (str_eqb k' k) eqn:E.
  - apply str_eqb_eq in E. split; [discriminate | tauto].
  - rewrite IH. split; [|tauto]. intros Hn [Heq | Hin]; [|tauto].
    subst. rewrite (proj2 (str_eqb_eq k k) eq_refl) in E. discriminate.
Qed.

End LegacyObject.

Section LegacyExtractor.
Variable sheet : Worksheet.
Variable styles : nat -> nat -> Legacy.CellStyle.

Lemma legacy_visit row col cells :
  Legacy.visit (getCell sheet row col) (styles row col) row col cells
  = fold_left (fun o kv => obj_set o (fst kv) (snd kv))
              (legacyEntry sheet styles row col) cells.
Proof.
  unfold Legacy.visit, legacyEntry.
  destruct (has_content _); reflexivity.
Qed.

Lemma fold_left_flat_map {A B C} (f : A -> B -> A) (g : C -> list B) l :
  forall acc,
    fold_left (fun acc x => fold_left f (g x) acc) l acc
    = fold_left f (flat_map g l) acc.
Proof.
  induction l as [|x l IH]; intros acc; [reflexivity|].
  cbn [fold_left flat_map]. rewrite fold_left_app. apply IH.
Qed.

Lemma fold_left_agree {A B} (f g : A -> B -> A) l :
  (forall acc x, f acc x = g acc x) ->
  forall acc, fold_left f l acc = fold_left g l acc.
Proof.
  intros H. induction l as [|x l IH]; intros acc; [reflexivity|].
  cbn [fold_left]. rewrite H. apply IH.
Qed.

Lemma legacy_as_fold :
  Legacy.extractCellData sheet styles
  = fold_left (fun o kv => obj_set o (fst kv) (snd kv))
              (legacyEntries sheet styles) [].
Proof.
  unfold Legacy.extractCellData, legacyEntries.
  rewrite <- fold_left_flat_map. apply fold_left_agree. intros cells row.
  rewrite <- fold_left_flat_map. apply fold_left_agree. intros cells' col.
  apply legacy_visit.
Qed.

Lemma in_legacyEntry e row col :
  In e (legacyEntry sheet styles row col) <->
  has_content (value (getCell sheet row col)) = true
  /\ e = (Legacy.cellAddress row col,
          Legacy.cellData (getCell sheet row col) (styles row col) row col).
Proof.
  unfold legacyEntry. destruct (has_content _); cbn [In]; split.
  - intros [<- | []]. split; reflexivity.
  - intros [_ ->]. left. reflexivity.
  - intros [].
  - intros [H _]. discriminate.
Qed.

Lemma in_legacyEntries e :
  In e (legacyEntries sheet styles) <->
  exists row col,
    row < rowCount sheet /\ col < columnCount sheet
    /\ has_content (value (getCell sheet row col)) = true
    /\ e = (Legacy.cellAddress row col,
            Legacy.cellData (getCell sheet row col) (styles row col) row col).
Proof.
  unfold legacyEntries. rewrite in_flat_map. split.
  - intros (row & Hr & He). apply in_flat_map in He as (col & Hc & He).
    apply in_seq in Hr, Hc. apply in_legacyEntry in He.
    exists row, col. split; [lia|]. split; [lia | exact He].
  - intros (row & col & Hr & Hc & He). exists row. split; [apply in_seq; lia|].
    apply in_flat_map. exists col. split; [apply in_seq; lia|].
    apply in_legacyEntry. exact He.
Qed.

Lemma entryOf_made row col :
  entryOf (Legacy.cellAddress row col,
           Legacy.cellData (getCell sheet row col) (styles row col) row col).
Proof. exists row, col. repeat split. Qed.

Lemma legacyEntries_sorted : StronglySorted entryBefore (legacyEntries sheet styles).
Proof.
  unfold legacyEntries.
  apply StronglySorted_flat_map with (Q := lt).
  - apply StronglySorted_seq.
  - intros row _. apply StronglySorted_flat_map with (Q := lt).
    + apply StronglySorted_seq.
    + intros col _. unfold legacyEntry.
      destruct (has_content _); repeat constructor.
    + intros c1 c2 a b Hc Ha Hb.
      apply in_legacyEntry in Ha as [_ ->]. apply in_legacyEntry in Hb as [_ ->].
      repeat split; try apply entryOf_made. right. cbn. lia.
  - intros r1 r2 a b Hr Ha Hb.
    apply in_flat_map in Ha as (c1 & _ & Ha). apply in_flat_map in Hb as (c2 & _ & Hb).
    apply in_legacyEntry in Ha as [_ ->]. apply in_legacyEntry in Hb as [_ ->].
    repeat split; try apply entryOf_made. left. cbn. lia.
Qed.

Lemma legacyEntries_keys : NoDup (map fst (legacyEntries sheet styles)).
Proof.
  apply StronglySorted_NoDup_map
    with (R := entryBefore) (S := fun k k' : jsstring => k <> k').
  - intros k Hk. apply Hk. reflexivity.
  - apply entryBefore_keys.
  - apply legacyEntries_sorted.
Qed.

(** The object is the list of entries: no assignment replaces an earlier
    one. *)
Lemma legacy_entries :
  Legacy.extractCellData sheet styles = legacyEntries sheet styles.
Proof.
  rewrite legacy_as_fold. apply (obj_set_all (legacyEntries sheet styles) []).
  apply legacyEntries_keys.
Qed.

End LegacyExtractor.

(** X17. The address-keyed extractor of the earlier service loses no
    cell.  A cell address (the column name followed by the 1-based row
    number) names one cell only; so no assignment into the object replaces an
    earlier one: the object has one property per cell of the declared grid
    whose raw value is non-empty (the display is not looked at), in row-major
    order, and reading the object at the address of a cell gives that cell's
    record, or nothing when the raw value is empty. *)
Theorem legacy_cells_by_address
        (sheet : Worksheet) (styles : nat -> nat -> Legacy.CellStyle) :
  (forall r c r' c',
      Legacy.cellAddress r c = Legacy.cellAddress r' c' -> r = r' /\ c = c')
  /\ NoDup (map fst (Legacy.extractCellData sheet styles))
  /\ (forall row col,
         row < rowCount sheet -> col < columnCount sheet ->
         obj_get (Legacy.extractCellData sheet styles)
                 (Legacy.cellAddress row col)
         = if has_content (value (getCell sheet row col))
           then Some (Legacy.cellData (getCell sheet row col)
                                      (styles row col) row col)
           else None)
  /\ (forall k data,
         obj_get (Legacy.extractCellData sheet styles) k = Some data ->
         exists row col,
           row < rowCount sheet /\ col < columnCount sheet
           /\ k = Legacy.cellAddress row col
           /\ Legacy.row data = row + 1 /\ Legacy.column data = col + 1
           /\ nonEmpty (Legacy.value data)).
Proof.
  rewrite legacy_entries.
  pose proof (legacyEntries_keys sheet styles) as Hnd.
  split; [exact cellAddress_inj|]. split; [exact Hnd|]. split.
  - intros row col Hr Hc.
    destruct (has_content (value (getCell sheet row col))) eqn:E.
    + apply (obj_get_in _ _ _ Hnd). apply in_legacyEntries.
      exists row, col. repeat split; assumption.
    + apply obj_get_none. intros Hin. apply in_map_iff in Hin as ([k v] & Hk & Hin).
      cbn [fst] in Hk. subst k.
      apply in_legacyEntries in Hin as (r & c & _ & _ & Hc' & [= Ha _]).
      apply cellAddress_inj in Ha as [<- <-]. congruence.
  - intros k data Hget. apply (obj_get_in _ _ _ Hnd) in Hget.
    apply in_legacyEntries in Hget as (r & c & Hr & Hc & Hv & [= -> ->]).
    exists r, c.
    split; [exact Hr|]. split; [exact Hc|]. split; [reflexivity|].
    split; [reflexivity|]. split; [reflexivity|].
    apply has_content_nonEmpty. exact Hv.
Qed.

Lemma legacy_cells_by_address_witness :
  map fst (Legacy.extractCellData sampleSheet (fun _ _ => plainStyle))
  = [lit "A1"; lit "B1"; lit "C1"; lit "D1"]
  /\ option_map Legacy.formattedValue
       (obj_get (Legacy.extractCellData sampleSheet (fun _ _ => plainStyle))
                (lit "B1"))
     = Some (DStr []).
Proof.
  destruct (legacy_cells_by_address sampleSheet (fun _ _ => plainStyle))
    as (_ & _ & Hget & _).
  split; [reflexivity|].
  change (lit "B1") with (Legacy.cellAddress 0 1).
  rewrite (Hget 0 1); [reflexivity | cbn; lia | cbn; lia].
Defined.

(* ------------------------------------------------------------------------- *)
(** ** [getSheet]: every worksheet, one after the other *)

Lemma requests_loads l : requests (loads l) = loads l.
Proof. induction l as [|s l IH]; [reflexivity|]. cbn. f_equal. exact IH. Qed.

Section GetSheetPaths.
Variable remote : Remote.
Variable styles : Worksheet -> nat -> nat -> Legacy.CellStyle.
Variable doc : Spreadsheet.
Variable this : GoogleSheetsService.

(** The body of the loop of [getSheet]. *)
Let step (i : nat) (acc : list Legacy.SheetData) : M (list Legacy.SheetData) :=
  match sheetsByIndex doc i with
  | Some sheet =>
      bind (loadCells sheet)
           (fun _ => ret (acc ++ [legacySheetData styles sheet]))
  | None =>
      throw (Error "Cannot read properties of undefined (reading 'loadCells')")
  end.

Lemma sheetsByIndex_middle before s after :
  sheets doc = before ++ s :: after ->
  sheetsByIndex doc (List.length before) = Some s.
Proof.
  intros E. unfold sheetsByIndex. rewrite E, nth_error_app2 by lia.
  rewrite Nat.sub_diag. reflexivity.
Qed.

Lemma getSheet_loop_ok : forall l before acc tr,
  sheets doc = before ++ l ->
  Forall (fun s => cellsFailure s = None) l ->
  for_each step (seq (List.length before) (List.length l)) acc this tr
  = (Ret (acc ++ map (legacySheetData styles) l), this, tr ++ loads l).
Proof.
  induction l as [|s l IH]; intros before acc tr E Hok.
  - cbn. rewrite !app_nil_r. reflexivity.
  - cbn [List.length seq for_each map loads]. inversion Hok as [|? ? Hs Hl]; subst.
    unfold step at 1. rewrite (sheetsByIndex_middle _ _ _ E).
    rewrite bind_ret
      with (a := acc ++ [legacySheetData styles s]) (this' := this)
           (tr' := tr ++ [EvLoadCells (title s)]).
    + specialize (IH (before ++ [s]) (acc ++ [legacySheetData styles s])
                     (tr ++ [EvLoadCells (title s)])).
      rewrite length_app, Nat.add_1_r in IH.
      rewrite IH; [|rewrite <- app_assoc; exact E | exact Hl].
      unfold loads. rewrite <- !app_assoc. reflexivity.
    + rewrite bind_ret with (1 := loadCells_ok_run _ _ _ Hs). reflexivity.
Qed.

Lemma getSheet_loop_fail bad after e : forall good before acc tr,
  sheets doc = before ++ good ++ bad :: after ->
  Forall (fun s => cellsFailure s = None) good ->
  cellsFailure bad = Some e ->
  for_each step
           (seq (List.length before) (List.length (good ++ bad :: after)))
           acc this tr
  = (Throw e, this, tr ++ loads (good ++ [bad])).
Proof.
  induction good as [|s good IH]; intros before acc tr E Hok Hbad.
  - cbn [app List.length seq for_each loads map].
    unfold step at 1. rewrite (sheetsByIndex_middle _ _ _ E).
    rewrite bind_throw
      with (e := e) (this' := this) (tr' := tr ++ [EvLoadCells (title bad)]);
      [reflexivity|].
    rewrite bind_throw with (1 := loadCells_failed_run _ _ _ Hbad). reflexivity.
  - cbn [app List.length seq for_each]. inversion Hok as [|? ? Hs Hl]; subst.
    unfold step at 1. rewrite (sheetsByIndex_middle _ _ _ E).
    rewrite bind_ret
      with (a := acc ++ [legacySheetData styles s]) (this' := this)
           (tr' := tr ++ [EvLoadCells (title s)]).
    + specialize (IH (before ++ [s]) (acc ++ [legacySheetData styles s])
                     (tr ++ [EvLoadCells (title s)])).
      rewrite length_app, Nat.add_1_r in IH.
      rewrite IH; [|rewrite <- app_assoc; exact E | exact Hl | exact Hbad].
      unfold loads. cbn [map app]. rewrite <- !app_assoc. reflexivity.
    + rewrite bind_ret with (1 := loadCells_ok_run _ _ _ Hs). reflexivity.
Qed.

(** X18. [getSheet] of the earlier service loads the cell grid of every
    worksheet: when the service is initialised, the document loads and the
    cells of all its worksheets load, it returns one entry per worksheet, in
    index order, each with the address-keyed cells of that worksheet, after
    having requested the document metadata and then the cell grid of each
    worksheet in that same order. *)
Theorem getSheet_loads_every_sheet
        (fileId : jsstring) (tr : list event) (a : JWT) :
  auth this = Some a ->
  remote fileId a = inr doc ->
  Forall (fun s => cellsFailure s = None) (sheets doc) ->
  exists result new,
    Legacy.getSheet remote styles fileId this tr = (Ret result, this, tr ++ new)
    /\ Legacy.resultId result = fileId
    /\ Legacy.resultSheets result = map (legacySheetData styles) (sheets doc)
    /\ Legacy.resultSheetCount result = List.length (Legacy.resultSheets result)
    /\ requests new = EvLoadInfo fileId :: loads (sheets doc).
Proof.
  intros Hauth Hdoc Hok. unfold Legacy.getSheet.
  eexists. eexists. split.
  - apply try_catch_ret. unfold bind at 1. unfold get_this. rewrite Hauth.
    rewrite bind_ret with (1 := info_run _ _ _).
    rewrite bind_ret with (1 := @loadInfo_run remote _ _ _ _ _ Hdoc).
    rewrite bind_ret with (1 := info_run _ _ _).
    rewrite bind_ret
      with (1 := @getSheet_loop_ok (sheets doc) [] [] _ eq_refl Hok).
    rewrite bind_ret with (1 := info_run _ _ _).
    cbn [app ret]. rewrite <- !app_assoc. reflexivity.
  - cbn [Legacy.resultId Legacy.resultSheets Legacy.resultSheetCount].
    split; [reflexivity|]. split; [reflexivity|].
    split; [unfold sheetCount; rewrite length_map; reflexivity|].
    requests_simpl. rewrite requests_loads, ?app_nil_r. reflexivity.
Qed.

(** X19. [getSheet] stops at the first worksheet whose cells fail to
    load: it raises its generic error, the grids of the worksheets before the
    failing one and of the failing one have been requested, in order, and no
    worksheet after it is touched; nothing of what was loaded is returned. *)
Theorem getSheet_stops_at_first_failure
        (fileId : jsstring) (tr : list event) (a : JWT)
        (good after : list Worksheet) (bad : Worksheet) (e : error) :
  auth this = Some a ->
  remote fileId a = inr doc ->
  sheets doc = good ++ bad :: after ->
  Forall (fun s => cellsFailure s = None) good ->
  cellsFailure bad = Some e ->
  exists new,
    Legacy.getSheet remote styles fileId this tr
    = (Throw Legacy.SheetFailed, this, tr ++ new)
    /\ requests new = EvLoadInfo fileId :: loads (good ++ [bad]).
Proof.
  intros Hauth Hdoc Hsheets Hok Hbad. unfold Legacy.getSheet.
  eexists. split.
  - rewrite try_catch_throw
      with (e := e) (this' := this)
           (tr' := tr ++ infoLine this (Text "Retrieving sheet data...")
                      ++ [EvLoadInfo fileId]
                      ++ infoLine this (Template "Spreadsheet loaded with "
                                                 (sheetCount doc) " sheets")
                      ++ loads (good ++ [bad])).
    + rewrite handler_run, <- !app_assoc. reflexivity.
    + unfold bind at 1. unfold get_this. rewrite Hauth.
      rewrite bind_ret with (1 := info_run _ _ _).
      rewrite bind_ret with (1 := @loadInfo_run remote _ _ _ _ _ Hdoc).
      rewrite bind_ret with (1 := info_run _ _ _).
      pose proof (@getSheet_loop_fail bad after e good [] []
                    ((tr ++ infoLine this (Text "Retrieving sheet data..."))
                       ++ [EvLoadInfo fileId]
                       ++ infoLine this (Template "Spreadsheet loaded with "
                                                  (sheetCount doc) " sheets"))
                    Hsheets Hok Hbad) as Hloop.
      replace (List.length (good ++ bad :: after)) with (sheetCount doc) in Hloop
        by (unfold sheetCount; rewrite Hsheets; reflexivity).
      rewrite <- !app_assoc in Hloop. rewrite <- !app_assoc.
      rewrite bind_throw with (1 := Hloop). reflexivity.
  - requests_simpl. rewrite requests_loads, ?app_nil_r. reflexivity.
Qed.

End GetSheetPaths.

Lemma getSheet_loads_every_sheet_witness :
  exists result new,
    Legacy.getSheet sampleRemote (fun _ _ _ => plainStyle) (lit "abc")
                    sampleService []
    = (Ret result, sampleService, [] ++ new)
    /\ requests new = [EvLoadInfo (lit "abc"); EvLoadCells (lit "Sheet1")].
Proof.
  destruct (@getSheet_loads_every_sheet sampleRemote (fun _ _ _ => plainStyle)
              sampleDoc sampleService (lit "abc") [] sampleJWT eq_refl eq_refl
              (Forall_cons _ (eq_refl : cellsFailure sampleSheet = None)
                           (Forall_nil _)))
    as (result & new & E & _ & _ & _ & Hreq).
  exists result, new. split; [exact E | exact Hreq].
Defined.

Lemma getSheet_stops_at_first_failure_witness :
  exists new,
    Legacy.getSheet (fun _ _ => inr threeSheetDoc) (fun _ _ _ => plainStyle)
                    (lit "abc") sampleService []
    = (Throw Legacy.SheetFailed, sampleService, [] ++ new)
    /\ requests new = [EvLoadInfo (lit "abc"); EvLoadCells (lit "Sheet1");
                       EvLoadCells (lit "Locked")].
Proof.
  exact (@getSheet_stops_at_first_failure
           (fun _ _ => inr threeSheetDoc) (fun _ _ _ => plainStyle)
           threeSheetDoc sampleService (lit "abc") [] sampleJWT
           [sampleSheet] [fullSheet] lockedSheet quotaExceeded
           eq_refl eq_refl eq_refl
           (Forall_cons _ (eq_refl : cellsFailure sampleSheet = None)
                        (Forall_nil _))
           eq_refl).
Defined.

(* ------------------------------------------------------------------------- *)
(** ** Unescaping the private key *)

Section Unescape.

Lemma pair_induction (P : jsstring -> Prop) :
  P [] -> (forall c, P [c]) ->
  (forall c d s, P s -> P (d :: s) -> P (c :: d :: s)) ->
  forall s, P s.
Proof.
  intros H0 H1 H2 s.
  assert (H : P s /\ forall c, P (c :: s)); [|exact (proj1 H)].
  induction s as [|d s [IHs IHc]].
  - split; [exact H0 | exact H1].
  - split; [apply IHc|]. intros c. apply H2; [exact IHs | apply IHc].
Qed.

Lemma match_here_backslash_n s :
  match_here (chars [92; 110]%N) s
  = match s with
    | c :: d :: _ =>
        if N.eqb c 92 && N.eqb d 110 then Some [[92; 110]%N] else None
    | _ => None
    end.
Proof.
  unfold match_here. rewrite run_chars.
  destruct s as [|c [|d s]]; cbn [strip_prefix].
  - reflexivity.
  - destruct (N.eqb 92 c); reflexivity.
  - rewrite (N.eqb_sym 92 c), (N.eqb_sym 110 d).
    destruct (N.eqb_spec c 92) as [-> | _]; [|reflexivity].
    destruct (N.eqb_spec d 110) as [-> | _]; [|reflexivity].
    cbn [andb List.length].
    replace (S (S (List.length s)) - List.length s) with 2 by lia.
    reflexivity.
Qed.

Lemma unescaped_pair c d s :
  unescaped (c :: d :: s)
  = if N.eqb c 92 && N.eqb d 110 then 10%N :: unescaped s
    else c :: unescaped (d :: s).
Proof. reflexivity. Qed.

(** The global replacement of the source is the left-to-right rewriting. *)
Lemma unescapeNewlines_unescaped s :
  Server.unescapeNewlines s = unescaped s.
Proof.
  unfold Server.unescapeNewlines, replaceAll.
  induction s as [| c | c d s IHs IHd] using pair_induction.
  - cbn [replaceFrom]. rewrite match_here_backslash_n. reflexivity.
  - cbn [replaceFrom]. rewrite !match_here_backslash_n. reflexivity.
  - rewrite unescaped_pair. cbn [replaceFrom] in *.
    rewrite match_here_backslash_n.
    destruct (N.eqb c 92 && N.eqb d 110).
    + cbn [List.length app]. f_equal. exact IHs.
    + f_equal. exact IHd.
Qed.

Lemma includes_pair_cons c d s :
  includes (c :: d :: s) [92; 110]%N
  = (N.eqb c 92 && N.eqb d 110) || includes (d :: s) [92; 110]%N.
Proof.
  cbn [includes strip_prefix].
  rewrite (N.eqb_sym 92 c), (N.eqb_sym 110 d).
  destruct (N.eqb c 92); [|reflexivity].
  destruct (N.eqb d 110); reflexivity.
Qed.

Lemma includes_pair_single c : includes [c] [92; 110]%N = false.
Proof. cbn [includes strip_prefix]. destruct (N.eqb 92 c); reflexivity. Qed.

Lemma unescaped_head d s :
  exists rest, unescaped (d :: s) = 10%N :: rest \/ unescaped (d :: s) = d :: rest.
Proof.
  cbn [unescaped]. destruct s as [|e s]; [exists []; right; reflexivity|].
  destruct (N.eqb d 92 && N.eqb e 110); eexists; [left | right]; reflexivity.
Qed.

Lemma unescaped_clean s : includes (unescaped s) [92; 110]%N = false.
Proof.
  induction s as [| c | c d s IHs IHd] using pair_induction.
  - reflexivity.
  - apply includes_pair_single.
  - rewrite unescaped_pair.
    destruct (N.eqb c 92 && N.eqb d 110) eqn:E.
    + destruct (unescaped s) as [|u us] eqn:Eu; [reflexivity|].
      rewrite includes_pair_cons. cbn [N.eqb andb orb]. exact IHs.
    + destruct (unescaped_head d s) as (rest & [Hu | Hu]); rewrite Hu in *.
      * rewrite includes_pair_cons, IHd.
        rewrite andb_false_r. reflexivity.
      * rewrite includes_pair_cons, IHd, E. reflexivity.
Qed.

Lemma unescaped_fixed s :
  includes s [92; 110]%N = false -> unescaped s = s.
Proof.
  induction s as [| c | c d s IHs IHd] using pair_induction; intros H.
  - reflexivity.
  - reflexivity.
  - rewrite includes_pair_cons in H. apply orb_false_iff in H as [Hp Hrest].
    rewrite unescaped_pair, Hp.
    f_equal. apply IHd, Hrest.
Qed.

Lemma unescaped_length s : List.length (unescaped s) <= List.length s.
Proof.
  induction s as [| c | c d s IHs IHd] using pair_induction.
  - reflexivity.
  - reflexivity.
  - rewrite unescaped_pair.
    destruct (N.eqb c 92 && N.eqb d 110); cbn [List.length] in *; lia.
Qed.

(** X20. The private key is unescaped for good: after the replacement no
    backslash-n pair is left, so unescaping again changes nothing; a key
    without such a pair is passed on unchanged; and the key never gets
    longer. *)
Theorem unescapeNewlines_clean (key : jsstring) :
  includes (Server.unescapeNewlines key) [92; 110]%N = false
  /\ Server.unescapeNewlines (Server.unescapeNewlines key)
     = Server.unescapeNewlines key
  /\ (includes key [92; 110]%N = false -> Server.unescapeNewlines key = key)
  /\ List.length (Server.unescapeNewlines key) <= List.length key.
Proof.
  rewrite !unescapeNewlines_unescaped.
  split; [apply unescaped_clean|].
  split; [apply unescaped_fixed, unescaped_clean|].
  split; [apply unescaped_fixed | apply unescaped_length].
Qed.

Lemma unescapeNewlines_clean_witness :
  Server.unescapeNewlines (lit "-----BEGIN-----\nMIIE\\n\n-----END-----\n")
  = lit "-----BEGIN-----" ++ [10%N] ++ lit "MIIE\" ++ [10; 10]%N
    ++ lit "-----END-----" ++ [10%N]
  /\ Server.unescapeNewlines (lit "KEY") = lit "KEY".
Proof.
  split; [reflexivity|].
  apply (unescapeNewlines_clean (lit "KEY")). reflexivity.
Defined.

End Unescape.

(* ------------------------------------------------------------------------- *)
(** ** Running the tool layer *)

Section ServerRuns.
Variable settings : Logger.
Variable world : Server.World.
Variable remote : Remote.
Variable stringify : SheetData -> jsstring.

Lemma fileReads_app a b : fileReads (a ++ b) = fileReads a ++ fileReads b.
Proof. apply filter_app. Qed.

Lemma serviceRequests_app a b :
  serviceRequests (a ++ b) = serviceRequests a ++ serviceRequests b.
Proof. apply filter_app. Qed.

Lemma fileReads_sline level enabled msg args :
  fileReads (sline settings level enabled msg args) = [].
Proof. unfold sline. destruct (existsb _ _); reflexivity. Qed.

Lemma serviceRequests_sline level enabled msg args :
  serviceRequests (sline settings level enabled msg args) = [].
Proof. unfold sline. destruct (existsb _ _); reflexivity. Qed.

Lemma fileReads_Svc l : fileReads (map Server.Svc l) = [].
Proof. induction l as [|e l IH]; [reflexivity | exact IH]. Qed.

Lemma serviceRequests_Svc l :
  serviceRequests (map Server.Svc l) = map Server.Svc (requests l).
Proof.
  induction l as [|e l IH]; [reflexivity|].
  cbn [map serviceRequests requests filter isServiceRequest].
  destruct (isRequest e); cbn [map]; [f_equal|]; exact IH.
Qed.

Lemma sinfo_run msg st tr :
  Server.sinfo settings msg st tr = (Ret tt, st, tr ++ sinfoLine settings msg).
Proof. reflexivity. Qed.

Lemma serror_run msg e st tr :
  Server.serror settings msg e st tr
  = (Ret tt, st, tr ++ serrorLine settings msg e).
Proof. reflexivity. Qed.

Lemma sbind_ret {A B} (m : Server.S A) (k : A -> Server.S B) st tr a st' tr' :
  m st tr = (Ret a, st', tr') -> Server.sbind m k st tr = k a st' tr'.
Proof. intros H. unfold Server.sbind. rewrite H. reflexivity. Qed.

Lemma sbind_throw {A B} (m : Server.S A) (k : A -> Server.S B) st tr e st' tr' :
  m st tr = (Throw e, st', tr') ->
  Server.sbind m k st tr = (Throw e, st', tr').
Proof. intros H. unfold Server.sbind. rewrite H. reflexivity. Qed.

Lemma stry_ret {A} (m : Server.S A) h st tr a st' tr' :
  m st tr = (Ret a, st', tr') -> Server.stry m h st tr = (Ret a, st', tr').
Proof. intros H. unfold Server.stry. rewrite H. reflexivity. Qed.

Lemma stry_throw {A} (m : Server.S A) h st tr e st' tr' :
  m st tr = (Throw e, st', tr') -> Server.stry m h st tr = h e st' tr'.
Proof. intros H. unfold Server.stry. rewrite H. reflexivity. Qed.

Lemma call_run {A} name (method : M A) this tr res this' new :
  method this [] = (res, this', new) ->
  Server.call name method (Some this) tr
  = (res, Some this', tr ++ map Server.Svc new).
Proof. intros H. unfold Server.call. rewrite H. reflexivity. Qed.

(** The shape shared by the two tools, once [sheetsService] is assigned:
    print, call the method, print again, answer. *)
Lemma tool_run {A} (render : A -> jsstring) name (method : M A)
      intro done failed st tr this res this' new :
  st = Some this ->
  method this [] = (res, this', new) ->
  Server.stry
    (Server.sbind (Server.sinfo settings intro) (fun _ =>
     Server.sbind (Server.ensureService settings world) (fun _ =>
     Server.sbind (Server.call name method) (fun data =>
     Server.sbind (Server.sinfo settings done) (fun _ =>
     Server.sret {| Server.text := render data; Server.isError := false |})))))
    (fun e =>
       Server.sbind (Server.serror settings failed e) (fun _ =>
       Server.sret {| Server.text := Server.errorText e;
                      Server.isError := true |}))
    st tr
  = (Ret (answer render res), Some this',
     tr ++ sinfoLine settings intro
        ++ map Server.Svc new
        ++ match res with
           | Ret _ => sinfoLine settings done
           | Throw e => serrorLine settings failed e
           end).
Proof.
  intros -> Hm. destruct res as [data|e].
  - apply stry_ret.
    rewrite sbind_ret with (1 := sinfo_run _ _ _).
    rewrite sbind_ret
      with (a := tt) (st' := Some this) (tr' := tr ++ sinfoLine settings intro)
      by reflexivity.
    rewrite sbind_ret with (1 := @call_run _ name _ _ _ _ _ _ Hm).
    rewrite sbind_ret with (1 := sinfo_run _ _ _).
    cbn [answer Server.sret]. rewrite <- !app_assoc. reflexivity.
  - rewrite stry_throw
      with (e := e) (st' := Some this')
           (tr' := tr ++ sinfoLine settings intro ++ map Server.Svc new).
    + rewrite sbind_ret with (1 := serror_run _ _ _ _).
      cbn [answer Server.sret]. rewrite <- !app_assoc. reflexivity.
    + rewrite sbind_ret with (1 := sinfo_run _ _ _).
      rewrite sbind_ret
        with (a := tt) (st' := Some this) (tr' := tr ++ sinfoLine settings intro)
        by reflexivity.
      rewrite sbind_throw with (1 := @call_run _ name _ _ _ _ _ _ Hm).
      rewrite <- !app_assoc. reflexivity.
Qed.


Lemma readCredentials_run path st tr :
  Server.readCredentials world path st tr
  = (match Server.readFile world path with
     | inl e => Throw e
     | inr data => Ret data
     end, st, tr ++ [Server.ReadFile path]).
Proof.
  unfold Server.readCredentials. destruct (Server.readFile world path); reflexivity.
Qed.

Lemma initialize_on_service this tr :
  Server.call "initialize" initialize (Some this) tr
  = (Ret tt, Some (initialized this),
     tr ++ map Server.Svc
             (infoLine this
                (Text "Google authentication configured with JWT and scopes"))).
Proof.
  rewrite (@call_run _ "initialize" initialize this tr _ _ _
                     (initialize_run this [])).
  reflexivity.
Qed.

Ltac init_fails err premise :=
  eexists; split;
  [ unfold Server.initializeSheetsService;
    erewrite stry_throw with (e := err); cycle 1;
    [ rewrite sbind_ret with (1 := sinfo_run _ _ _); premise
    | rewrite sbind_ret with (1 := serror_run _ _ _ _);
      unfold Server.sthrow; rewrite <- ?app_assoc; reflexivity ]
  | ].

Ltac trace_facts :=
  rewrite ?fileReads_app, ?serviceRequests_app,
          ?fileReads_sline, ?serviceRequests_sline,
          ?fileReads_Svc, ?serviceRequests_Svc;
  unfold sinfoLine, serrorLine;
  rewrite ?fileReads_sline, ?serviceRequests_sline;
  cbn [fileReads serviceRequests filter isFileRead isServiceRequest app];
  rewrite ?requests_infoLine, ?requests_errorLine, ?app_nil_r;
  cbn [map app].

(** Every path of [initializeSheetsService]: what the configuration
    decides, what is read, and that the spreadsheet service is not
    contacted. *)
Lemma initialize_paths st tr :
  exists new,
    Server.initializeSheetsService settings world st tr
    = match configuration world with
      | inl e => (Throw e, st, tr ++ new)
      | inr (email, key, project) =>
          (Ret tt, Some (serviceFor settings email key project), tr ++ new)
      end
    /\ fileReads new = credentialReads world
    /\ serviceRequests new = [].
Proof.
  unfold configuration, credentialReads, credentialsPath.
  destruct (Server.credentialsJsonFile world) as [[|c file]|] eqn:Henv.
  - init_fails Server.MissingEnv ltac:(rewrite Henv; reflexivity).
    split; trace_facts; reflexivity.
  - destruct (includes (c :: file) (lit "${user_config.")) eqn:Hph.
    { init_fails Server.InterpolationFailed ltac:(rewrite Henv, Hph; reflexivity).
      split; trace_facts; reflexivity. }
    destruct (Server.readFile world (Server.resolve world (c :: file)))
      as [e|data] eqn:Hread.
    { init_fails e ltac:(
        rewrite Henv, Hph;
        rewrite sbind_ret with (1 := sinfo_run _ _ _);
        apply sbind_throw;
        rewrite readCredentials_run, Hread; reflexivity).
      split; trace_facts; reflexivity. }
    assert (Hstep : forall (k : jsstring -> Server.S unit) res,
      k data st
        (((tr ++ sinfoLine settings "Initializing Google Sheets service...")
            ++ sinfoLine settings "Loading credentials from JSON file...")
            ++ [Server.ReadFile (Server.resolve world (c :: file))]) = res ->
      Server.sbind (Server.sinfo settings "Loading credentials from JSON file...")
        (fun _ => Server.sbind
           (Server.readCredentials world (Server.resolve world (c :: file))) k)
        st (tr ++ sinfoLine settings "Initializing Google Sheets service...")
      = res).
    { intros k res Hk.
      rewrite sbind_ret with (1 := sinfo_run _ _ _).
      rewrite sbind_ret
        with (a := data) (st' := st)
             (tr' := ((tr ++ sinfoLine settings "Initializing Google Sheets service...")
                        ++ sinfoLine settings "Loading credentials from JSON file...")
                        ++ [Server.ReadFile (Server.resolve world (c :: file))])
        by (rewrite readCredentials_run, Hread; reflexivity).
      exact Hk. }
    destruct (Server.parse world data) as [e|[credentials|]] eqn:Hparse.
    { init_fails e ltac:(
        rewrite Henv, Hph; apply Hstep; rewrite Hparse; reflexivity).
      split; trace_facts; reflexivity. }
    2:{ init_fails Server.NullCredentials ltac:(
          rewrite Henv, Hph; apply Hstep; rewrite Hparse; reflexivity).
        split; trace_facts; reflexivity. }
    destruct (Server.client_email credentials) as [| |[|e1 email]] eqn:He;
      try (init_fails Server.InvalidCredentials ltac:(
             rewrite Henv, Hph; apply Hstep; rewrite Hparse, He; reflexivity);
           split; trace_facts; reflexivity).
    destruct (Server.private_key credentials) as [| |[|k1 key]] eqn:Hk;
      try (init_fails Server.InvalidCredentials ltac:(
             rewrite Henv, Hph; apply Hstep; rewrite Hparse, He, Hk; reflexivity);
           split; trace_facts; reflexivity).
    destruct (Server.project_id credentials) as [| |[|p1 project]] eqn:Hp;
      try (init_fails Server.InvalidCredentials ltac:(
             rewrite Henv, Hph; apply Hstep; rewrite Hparse, He, Hk, Hp;
             reflexivity);
           split; trace_facts; reflexivity).
    eexists. split.
    + unfold Server.initializeSheetsService. apply stry_ret.
      rewrite sbind_ret with (1 := sinfo_run _ _ _).
      rewrite Henv, Hph. apply Hstep. rewrite Hparse, He, Hk, Hp.
      rewrite sbind_ret with (1 := sinfo_run _ _ _).
      unfold Server.sbind at 1. unfold Server.assignService.
      rewrite sbind_ret with (1 := initialize_on_service _ _).
      rewrite sinfo_run. unfold serviceFor. rewrite <- !app_assoc. reflexivity.
    + split; trace_facts; reflexivity.
  - init_fails Server.MissingEnv ltac:(rewrite Henv; reflexivity).
    split; trace_facts; reflexivity.
Qed.


Lemma ensureService_fresh tr :
  Server.ensureService settings world None tr
  = Server.initializeSheetsService settings world None
      (tr ++ sinfoLine settings "Sheets service not initialized, initializing now...").
Proof. reflexivity. Qed.

(** A tool called while [sheetsService] is null, with a configuration
    that does not load. *)
Lemma tool_fresh_config_error {A} (render : A -> jsstring) name (method : M A)
      intro done failed tr e :
  configuration world = inl e ->
  exists new,
    Server.stry
      (Server.sbind (Server.sinfo settings intro) (fun _ =>
       Server.sbind (Server.ensureService settings world) (fun _ =>
       Server.sbind (Server.call name method) (fun data =>
       Server.sbind (Server.sinfo settings done) (fun _ =>
       Server.sret {| Server.text := render data; Server.isError := false |})))))
      (fun e =>
         Server.sbind (Server.serror settings failed e) (fun _ =>
         Server.sret {| Server.text := Server.errorText e;
                        Server.isError := true |}))
      None tr
    = (Ret {| Server.text := Server.errorText e; Server.isError := true |},
       None, tr ++ new)
    /\ fileReads new = credentialReads world
    /\ serviceRequests new = [].
Proof.
  intros Hcfg.
  destruct (initialize_paths None
              ((tr ++ sinfoLine settings intro)
                 ++ sinfoLine settings "Sheets service not initialized, initializing now..."))
    as (new & Hinit & Hreads & Hreqs).
  rewrite Hcfg in Hinit.
  eexists. split.
  - rewrite stry_throw
      with (e := e) (st' := None)
           (tr' := ((tr ++ sinfoLine settings intro)
                      ++ sinfoLine settings "Sheets service not initialized, initializing now...")
                     ++ new).
    + rewrite sbind_ret with (1 := serror_run _ _ _ _).
      unfold Server.sret. rewrite <- !app_assoc. reflexivity.
    + rewrite sbind_ret with (1 := sinfo_run _ _ _).
      apply sbind_throw. rewrite ensureService_fresh. exact Hinit.
  - split; trace_facts; rewrite ?Hreads, ?Hreqs, ?app_nil_r; reflexivity.
Qed.

(** A tool called while [sheetsService] is null, with a configuration
    that loads: the service is built, initialised, and called. *)
Lemma tool_fresh_ok {A} (render : A -> jsstring) name (method : M A)
      intro done failed tr email key project res this' new0 :
  configuration world = inr (email, key, project) ->
  method (serviceFor settings email key project) [] = (res, this', new0) ->
  exists new,
    Server.stry
      (Server.sbind (Server.sinfo settings intro) (fun _ =>
       Server.sbind (Server.ensureService settings world) (fun _ =>
       Server.sbind (Server.call name method) (fun data =>
       Server.sbind (Server.sinfo settings done) (fun _ =>
       Server.sret {| Server.text := render data; Server.isError := false |})))))
      (fun e =>
         Server.sbind (Server.serror settings failed e) (fun _ =>
         Server.sret {| Server.text := Server.errorText e;
                        Server.isError := true |}))
      None tr
    = (Ret (answer render res), Some this', tr ++ new)
    /\ fileReads new = credentialReads world
    /\ serviceRequests new = map Server.Svc (requests new0).
Proof.
  intros Hcfg Hm.
  destruct (initialize_paths None
              ((tr ++ sinfoLine settings intro)
                 ++ sinfoLine settings "Sheets service not initialized, initializing now..."))
    as (new & Hinit & Hreads & Hreqs).
  rewrite Hcfg in Hinit.
  assert (Hensure :
    Server.ensureService settings world None (tr ++ sinfoLine settings intro)
    = (Ret tt, Some (serviceFor settings email key project),
       ((tr ++ sinfoLine settings intro)
          ++ sinfoLine settings "Sheets service not initialized, initializing now...")
         ++ new))
    by (rewrite ensureService_fresh; exact Hinit).
  destruct res as [data|e].
  - eexists. split.
    + apply stry_ret.
      rewrite sbind_ret with (1 := sinfo_run _ _ _).
      rewrite sbind_ret with (1 := Hensure).
      rewrite sbind_ret with (1 := @call_run _ name _ _ _ _ _ _ Hm).
      rewrite sbind_ret with (1 := sinfo_run _ _ _).
      cbn [answer Server.sret]. rewrite <- !app_assoc. reflexivity.
    + split; trace_facts; rewrite ?Hreads, ?Hreqs, ?app_nil_r; reflexivity.
  - eexists. split.
    + rewrite stry_throw
        with (e := e) (st' := Some this')
             (tr' := (((tr ++ sinfoLine settings intro)
                         ++ sinfoLine settings "Sheets service not initialized, initializing now...")
                        ++ new) ++ map Server.Svc new0).
      * rewrite sbind_ret with (1 := serror_run _ _ _ _).
        cbn [answer Server.sret]. rewrite <- !app_assoc. reflexivity.
      * rewrite sbind_ret with (1 := sinfo_run _ _ _).
        rewrite sbind_ret with (1 := Hensure).
        apply sbind_throw. exact (@call_run _ name _ _ _ _ _ _ Hm).
    + split; trace_facts; rewrite ?Hreads, ?Hreqs, ?app_nil_r; reflexivity.
Qed.

(** What the two retrieval methods can answer, from an empty trace. *)
Lemma getSpreadsheetSummary_result url this :
  exists res new,
    getSpreadsheetSummary remote url this [] = (res, this, new)
    /\ (res = Throw SummaryFailed \/ exists summary, res = Ret summary).
Proof.
  rewrite getSpreadsheetSummary_paths.
  destruct (auth this) as [a|]; [|eexists; eexists; split; [reflexivity | left; reflexivity]].
  destruct (first_match patterns url) as [sheetId|];
    [|eexists; eexists; split; [reflexivity | left; reflexivity]].
  destruct (remote sheetId a);
    eexists; eexists; (split; [reflexivity|]);
    [left; reflexivity | right; eexists; reflexivity].
Qed.

Lemma getSheetData_result url sheetName this :
  exists res new,
    getSheetData remote url sheetName this [] = (res, this, new)
    /\ (res = Throw SheetDataFailed \/ exists data, res = Ret data).
Proof.
  rewrite getSheetData_paths.
  destruct (auth this) as [a|]; [|eexists; eexists; split; [reflexivity | left; reflexivity]].
  destruct (first_match patterns url) as [sheetId|];
    [|eexists; eexists; split; [reflexivity | left; reflexivity]].
  destruct (remote sheetId a) as [e|doc];
    [eexists; eexists; split; [reflexivity | left; reflexivity]|].
  destruct (sheetsByTitle doc sheetName) as [sheet| |];
    [destruct (cellsFailure sheet)| |];
    eexists; eexists; (split; [reflexivity|]);
    try (left; reflexivity); right; eexists; reflexivity.
Qed.

End ServerRuns.

(* ------------------------------------------------------------------------- *)
(** ** The two tools *)

Section ToolExtras.
Variable settings : Logger.
Variable world : Server.World.
Variable remote : Remote.
Variable stringify : SheetData -> jsstring.

Let summaryTool := Server.get_spreadsheet_summary settings world remote.
Let sheetDataTool := Server.get_spreadsheet_sheet_data settings world remote stringify.

Ltac tool_trace :=
  rewrite ?fileReads_app, ?serviceRequests_app,
          ?fileReads_sline, ?serviceRequests_sline,
          ?fileReads_Svc, ?serviceRequests_Svc;
  unfold sinfoLine, serrorLine;
  rewrite ?fileReads_sline, ?serviceRequests_sline;
  cbn [fileReads serviceRequests filter isFileRead isServiceRequest app];
  rewrite ?requests_infoLine, ?requests_errorLine, ?app_nil_r;
  cbn [map app].

Lemma ready_serviceFor email key project :
  ready (Some (serviceFor settings email key project)).
Proof. intros this [= <-]. discriminate. Qed.

Lemma credentialReads_length : List.length (credentialReads world) <= 1.
Proof.
  unfold credentialReads. destruct (credentialsPath world); simpl; lia.
Qed.

(** With [sheetsService] assigned, either tool answers, keeps the service
    and reads no file. *)
Lemma tools_answer_from_service_aux
      (url sheet_name : jsstring) (this : GoogleSheetsService)
      (tr : list Server.io) :
  (exists response new,
      summaryTool url (Some this) tr = (Ret response, Some this, tr ++ new)
      /\ fileReads new = [])
  /\ (exists response new,
         sheetDataTool url sheet_name (Some this) tr
         = (Ret response, Some this, tr ++ new)
         /\ fileReads new = []).
Proof.
  split.
  - destruct (getSpreadsheetSummary_result remote url this)
      as (res & new0 & Hm & _).
    unfold summaryTool, Server.get_spreadsheet_summary.
    rewrite (@tool_run settings world _ Server.summaryText _ _ _ _ _ _ tr
               this res this new0 eq_refl Hm).
    eexists. eexists. split; [reflexivity|].
    tool_trace. destruct res; unfold sinfoLine, serrorLine;
      rewrite fileReads_sline; reflexivity.
  - destruct (getSheetData_result remote url sheet_name this)
      as (res & new0 & Hm & _).
    unfold sheetDataTool, Server.get_spreadsheet_sheet_data.
    rewrite (@tool_run settings world _ (Server.sheetDataText stringify)
               _ _ _ _ _ _ tr this res this new0 eq_refl Hm).
    eexists. eexists. split; [reflexivity|].
    tool_trace. destruct res; unfold sinfoLine, serrorLine;
      rewrite fileReads_sline; reflexivity.
Qed.

(** X21. With [sheetsService] assigned, a tool call never throws and
    never reads the credentials again; it leaves the service as it is; and
    what it answers is either the formatted result or an error answer whose
    text is "Error: " followed by the generic message of the method, whatever
    went wrong underneath. *)
Theorem tools_answer_from_service
        (url sheet_name : jsstring) (this : GoogleSheetsService)
        (tr : list Server.io) :
  (exists response new,
      summaryTool url (Some this) tr = (Ret response, Some this, tr ++ new)
      /\ fileReads new = []
      /\ (response = {| Server.text := Server.errorText SummaryFailed;
                        Server.isError := true |}
          \/ exists summary,
               fst (fst (getSpreadsheetSummary remote url this [])) = Ret summary
               /\ response = {| Server.text := Server.summaryText summary;
                                Server.isError := false |}))
  /\ (exists response new,
         sheetDataTool url sheet_name (Some this) tr
         = (Ret response, Some this, tr ++ new)
         /\ fileReads new = []
         /\ (response = {| Server.text := Server.errorText SheetDataFailed;
                           Server.isError := true |}
             \/ exists data,
                  fst (fst (getSheetData remote url sheet_name this [])) = Ret data
                  /\ response = {| Server.text := Server.sheetDataText stringify data;
                                   Server.isError := false |})).
Proof.
  split.
  - destruct (getSpreadsheetSummary_result remote url this)
      as (res & new0 & Hm & Hres).
    unfold summaryTool, Server.get_spreadsheet_summary.
    rewrite (@tool_run settings world _ Server.summaryText _ _ _ _ _ _ tr
               this res this new0 eq_refl Hm).
    eexists. eexists. split; [reflexivity|]. split.
    + tool_trace. destruct res; unfold sinfoLine, serrorLine;
        rewrite fileReads_sline; reflexivity.
    + rewrite Hm. destruct Hres as [-> | (summary & ->)];
        [left; reflexivity | right; exists summary; split; reflexivity].
  - destruct (getSheetData_result remote url sheet_name this)
      as (res & new0 & Hm & Hres).
    unfold sheetDataTool, Server.get_spreadsheet_sheet_data.
    rewrite (@tool_run settings world _ (Server.sheetDataText stringify)
               _ _ _ _ _ _ tr this res this new0 eq_refl Hm).
    eexists. eexists. split; [reflexivity|]. split.
    + tool_trace. destruct res; unfold sinfoLine, serrorLine;
        rewrite fileReads_sline; reflexivity.
    + rewrite Hm. destruct Hres as [-> | (data & ->)];
        [left; reflexivity | right; exists data; split; reflexivity].
Qed.

(** X22. A configuration that does not load is reported as it is: when
    [sheetsService] is null and the environment variable is missing or empty,
    or holds an unresolved placeholder, or the file cannot be read or parsed,
    or lacks one of the three fields, either tool answers with an error whose
    text is "Error: " followed by the message of exactly that cause.  The
    file is read at most once (not at all in the first two cases), the
    spreadsheet service is not contacted, and [sheetsService] stays null, so
    that the next call tries again. *)
Theorem tools_report_configuration_errors
        (url sheet_name : jsstring) (tr : list Server.io) (e : error) :
  configuration world = inl e ->
  (exists new,
      summaryTool url None tr
      = (Ret {| Server.text := Server.errorText e; Server.isError := true |},
         None, tr ++ new)
      /\ fileReads new = credentialReads world
      /\ serviceRequests new = [])
  /\ (exists new,
         sheetDataTool url sheet_name None tr
         = (Ret {| Server.text := Server.errorText e; Server.isError := true |},
            None, tr ++ new)
         /\ fileReads new = credentialReads world
         /\ serviceRequests new = [])
  /\ (Server.credentialsJsonFile world = None -> credentialReads world = []).
Proof.
  intros Hcfg. split; [|split].
  - apply tool_fresh_config_error. exact Hcfg.
  - apply tool_fresh_config_error. exact Hcfg.
  - intros Henv. unfold credentialReads, credentialsPath. rewrite Henv. reflexivity.
Qed.

(** X23. The first call initialises, later calls do not: when
    [sheetsService] is null and the configuration loads, a tool call reads
    the credentials file once, assigns the service built from it (private key
    unescaped, handle in place), and then answers exactly as a call on that
    service answers, with the same requests to the spreadsheet service; the
    call on the assigned service reads no file. *)
Theorem first_call_initialises
        (url sheet_name : jsstring) (tr : list Server.io)
        (email key project : jsstring) :
  configuration world = inr (email, key, project) ->
  let service := serviceFor settings email key project in
  ready (Some service)
  /\ privateKey (config service) = Server.unescapeNewlines key
  /\ (exists path, credentialReads world = [Server.ReadFile path])
  /\ (exists response new new',
         summaryTool url None tr = (Ret response, Some service, tr ++ new)
         /\ summaryTool url (Some service) tr
            = (Ret response, Some service, tr ++ new')
         /\ fileReads new = credentialReads world
         /\ fileReads new' = []
         /\ serviceRequests new = serviceRequests new')
  /\ (exists response new new',
         sheetDataTool url sheet_name None tr
         = (Ret response, Some service, tr ++ new)
         /\ sheetDataTool url sheet_name (Some service) tr
            = (Ret response, Some service, tr ++ new')
         /\ fileReads new = credentialReads world
         /\ fileReads new' = []
         /\ serviceRequests new = serviceRequests new').
Proof.
  intros Hcfg service.
  split; [apply ready_serviceFor|]. split; [reflexivity|]. split.
  { unfold credentialReads, credentialsPath. unfold configuration in Hcfg.
    destruct (Server.credentialsJsonFile world) as [[|c file]|]; try discriminate.
    destruct (includes (c :: file) (lit "${user_config.")); [discriminate|].
    eexists. reflexivity. }
  split.
  - destruct (getSpreadsheetSummary_result remote url service)
      as (res & new0 & Hm & _).
    destruct (@tool_fresh_ok settings world _ Server.summaryText
                "getSpreadsheetSummary" (getSpreadsheetSummary remote url)
                "Retrieving Google Sheet summary..."
                "Successfully retrieved spreadsheet summary"
                "Error in get_spreadsheet_summary:" tr
                email key project res service new0 Hcfg Hm)
      as (new & Hrun & Hreads & Hreqs).
    exists (answer Server.summaryText res), new. eexists.
    split; [exact Hrun|]. split.
    + unfold summaryTool, Server.get_spreadsheet_summary.
      apply (@tool_run settings world _ Server.summaryText _ _ _ _ _ _ tr
               service res service new0 eq_refl Hm).
    + split; [exact Hreads|]. rewrite Hreqs. split.
      * tool_trace. destruct res; unfold sinfoLine, serrorLine;
          rewrite fileReads_sline; reflexivity.
      * tool_trace. destruct res; unfold sinfoLine, serrorLine;
          rewrite serviceRequests_sline, ?app_nil_r; reflexivity.
  - destruct (getSheetData_result remote url sheet_name service)
      as (res & new0 & Hm & _).
    destruct (@tool_fresh_ok settings world _ (Server.sheetDataText stringify)
                "getSheetData" (getSheetData remote url sheet_name)
                "Retrieving specific sheet data..."
                "Successfully retrieved sheet data"
                "Error in get_spreadsheet_sheet_data:" tr
                email key project res service new0 Hcfg Hm)
      as (new & Hrun & Hreads & Hreqs).
    exists (answer (Server.sheetDataText stringify) res), new. eexists.
    split; [exact Hrun|]. split.
    + unfold sheetDataTool, Server.get_spreadsheet_sheet_data.
      apply (@tool_run settings world _ (Server.sheetDataText stringify)
               _ _ _ _ _ _ tr service res service new0 eq_refl Hm).
    + split; [exact Hreads|]. rewrite Hreqs. split.
      * tool_trace. destruct res; unfold sinfoLine, serrorLine;
          rewrite fileReads_sline; reflexivity.
      * tool_trace. destruct res; unfold sinfoLine, serrorLine;
          rewrite serviceRequests_sline, ?app_nil_r; reflexivity.
Qed.


(** X24. Neither tool ever throws, whatever the state, the surroundings
    and the spreadsheet service do: every call answers.  A call reads the
    credentials file at most once, and not at all when [sheetsService] is
    assigned; it never replaces an assigned service; and it keeps the
    invariant that an assigned service has been initialised, which holds at
    start-up, when [sheetsService] is null. *)
Theorem tools_never_throw
        (url sheet_name : jsstring) (st : option GoogleSheetsService)
        (tr : list Server.io) :
  ready None
  /\ (exists response st' new,
         summaryTool url st tr = (Ret response, st', tr ++ new)
         /\ (ready st -> ready st')
         /\ (st <> None -> st' = st /\ fileReads new = [])
         /\ List.length (fileReads new) <= 1)
  /\ (exists response st' new,
         sheetDataTool url sheet_name st tr = (Ret response, st', tr ++ new)
         /\ (ready st -> ready st')
         /\ (st <> None -> st' = st /\ fileReads new = [])
         /\ List.length (fileReads new) <= 1).
Proof.
  split; [intros this [=]|].
  destruct st as [this|].
  - destruct (tools_answer_from_service_aux url sheet_name this tr)
      as [(r1 & n1 & H1 & F1) (r2 & n2 & H2 & F2)].
    split.
    + exists r1, (Some this), n1. rewrite F1.
      repeat split; trivial; simpl; lia.
    + exists r2, (Some this), n2. rewrite F2.
      repeat split; trivial; simpl; lia.
  - pose proof credentialReads_length as Hlen.
    destruct (configuration world) as [e|[[email key] project]] eqn:Hcfg.
    + split.
      * destruct (@tool_fresh_config_error settings world _ Server.summaryText
                    "getSpreadsheetSummary" (getSpreadsheetSummary remote url)
                    "Retrieving Google Sheet summary..."
                    "Successfully retrieved spreadsheet summary"
                    "Error in get_spreadsheet_summary:" tr e Hcfg)
          as (new & Hrun & Hreads & _).
        eexists. exists None, new. split; [exact Hrun|]. rewrite Hreads.
        split; [trivial|]. split; [intros H; destruct (H eq_refl) | exact Hlen].
      * destruct (@tool_fresh_config_error settings world _
                    (Server.sheetDataText stringify)
                    "getSheetData" (getSheetData remote url sheet_name)
                    "Retrieving specific sheet data..."
                    "Successfully retrieved sheet data"
                    "Error in get_spreadsheet_sheet_data:" tr e Hcfg)
          as (new & Hrun & Hreads & _).
        eexists. exists None, new. split; [exact Hrun|]. rewrite Hreads.
        split; [trivial|]. split; [intros H; destruct (H eq_refl) | exact Hlen].
    + split.
      * destruct (getSpreadsheetSummary_result remote url
                    (serviceFor settings email key project))
          as (res & new0 & Hm & _).
        destruct (@tool_fresh_ok settings world _ Server.summaryText
                    "getSpreadsheetSummary" (getSpreadsheetSummary remote url)
                    "Retrieving Google Sheet summary..."
                    "Successfully retrieved spreadsheet summary"
                    "Error in get_spreadsheet_summary:" tr
                    email key project res _ new0 Hcfg Hm)
          as (new & Hrun & Hreads & _).
        eexists. eexists. exists new. split; [exact Hrun|]. rewrite Hreads.
        split; [intros _; apply ready_serviceFor|].
        split; [intros H; destruct (H eq_refl) | exact Hlen].
      * destruct (getSheetData_result remote url sheet_name
                    (serviceFor settings email key project))
          as (res & new0 & Hm & _).
        destruct (@tool_fresh_ok settings world _ (Server.sheetDataText stringify)
                    "getSheetData" (getSheetData remote url sheet_name)
                    "Retrieving specific sheet data..."
                    "Successfully retrieved sheet data"
                    "Error in get_spreadsheet_sheet_data:" tr
                    email key project res _ new0 Hcfg Hm)
          as (new & Hrun & Hreads & _).
        eexists. eexists. exists new. split; [exact Hrun|]. rewrite Hreads.
        split; [intros _; apply ready_serviceFor|].
        split; [intros H; destruct (H eq_refl) | exact Hlen].
Qed.

End ToolExtras.

Lemma tools_report_configuration_errors_witness :
  configuration bareWorld = inl Server.MissingEnv
  /\ exists new,
       Server.get_spreadsheet_summary (logger sampleService) bareWorld
                                      sampleRemote sampleUrl None []
       = (Ret {| Server.text := Server.errorText Server.MissingEnv;
                 Server.isError := true |},
          None, [] ++ new)
       /\ fileReads new = []
       /\ serviceRequests new = [].
Proof.
  split; [reflexivity|].
  exact (proj1 (@tools_report_configuration_errors
                  (logger sampleService) bareWorld sampleRemote
                  (fun _ => lit "{}") sampleUrl (lit "Sheet1") []
                  Server.MissingEnv eq_refl)).
Defined.

Lemma first_call_initialises_witness :
  configuration goodWorld
  = inr (lit "reader@project.iam.gserviceaccount.com", lit "KEY", lit "project")
  /\ exists path, credentialReads goodWorld = [Server.ReadFile path].
Proof.
  split; [reflexivity|].
  exact (proj1 (proj2 (proj2
           (@first_call_initialises
              (logger sampleService) goodWorld sampleRemote
              (fun _ => lit "{}") sampleUrl (lit "Sheet1") []
              (lit "reader@project.iam.gserviceaccount.com") (lit "KEY")
              (lit "project") eq_refl)))).
Defined.
